(** * Background task manager of oh-my-opencode-slim: a shallow embedding

    The development follows [BackgroundTaskManager] (the background task
    manager module) and [SUBAGENT_DELEGATION_RULES] (src/config/constants.ts).

    - Pure helpers ([parseModelReference], [getSubagentRules],
      [resolveFallbackChain], the text extraction of
      [extractAndCompleteTask]) are Rocq functions.
    - The manager is a record of its fields.  Task objects live in a heap
      ([heap], indexed by reference) because the registry, the start queue,
      suspended [startTask] activations and resolved promises all alias the
      same JavaScript object.
    - Every [await] is a suspension point: the synchronous code up to the
      next [await] is one function, and the host's answer is an [Event]. *)

From Stdlib Require Import ZArith Lia Ascii String.
From stdpp Require Import gmap strings list pretty.

#[local] Open Scope Z_scope.

(* ================================================================== *)
(** * Part I: definitions *)
(* ================================================================== *)

(** ** JavaScript string helpers *)

Module Js.

(** [s.indexOf(c)]: index of the first occurrence, [-1] when absent. *)
Fixpoint indexOf_from (c : ascii) (s : string) (i : Z) : Z :=
  match s with
  | EmptyString => -1
  | String a s' => if Ascii.eqb a c then i else indexOf_from c s' (i + 1)
  end.

Definition indexOf (c : ascii) (s : string) : Z := indexOf_from c s 0.

Definition length (s : string) : Z := Z.of_nat (String.length s).

(** [s.slice(from, to)] and [s.slice(from)] for in-range, non-negative
    indices (the only way the manager calls them). *)
Definition slice (s : string) (from to : Z) : string :=
  String.substring (Z.to_nat from) (Z.to_nat (to - from)) s.

Definition slice_from (s : string) (from : Z) : string :=
  slice s from (length s).

(** Truthiness of a [string | undefined] value: [undefined], [null] and
    the empty string are falsy. *)
Definition truthy (v : option string) : bool :=
  match v with
  | Some s => negb (String.eqb s "")
  | None => false
  end.

(** [parts.join(sep)]. *)
Fixpoint join (sep : string) (parts : list string) : string :=
  match parts with
  | [] => ""
  | [p] => p
  | p :: rest => p +:+ sep +:+ join sep rest
  end.

Definition slash : ascii := "/"%char.
Definition newline : string := String (ascii_of_nat 10) EmptyString.
Definition dquote : string := String (ascii_of_nat 34) EmptyString.

End Js.

(** ** Model references *)

Record ModelRef := { providerID : string; modelID : string }.

Definition parseModelReference (model : string) : option ModelRef :=
  let slashIndex := Js.indexOf Js.slash model in
  if (slashIndex <=? 0) || (slashIndex >=? Js.length model - 1) then None
  else Some {| providerID := Js.slice model 0 slashIndex;
               modelID := Js.slice_from model (slashIndex + 1) |}.

(** What the specification says about a model identifier, read for the
    separator that [parseModelReference] splits at (the first ['/']). *)
Fixpoint occurs (c : ascii) (s : string) : Prop :=
  match s with
  | EmptyString => False
  | String a s' => a = c ∨ occurs c s'
  end.

Definition separator_missing (model : string) : Prop :=
  ¬ occurs Js.slash model.

Definition separator_at_start (model : string) : Prop :=
  ∃ rest, model = String Js.slash rest.

Definition separator_at_end (model : string) : Prop :=
  ∃ pre, model = pre +:+ String Js.slash EmptyString
         ∧ ¬ occurs Js.slash pre.

(** ** Delegation policy (src/config/constants.ts) *)

Definition SUBAGENT_NAMES : list string :=
  ["explorer"; "librarian"; "oracle"; "designer"; "fixer"].

Definition ORCHESTRATOR_NAME : string := "orchestrator".

Definition SUBAGENT_DELEGATION_RULES : gmap string (list string) :=
  <["orchestrator" := SUBAGENT_NAMES]>
  (<["fixer" := []]>
  (<["designer" := []]>
  (<["explorer" := []]>
  (<["librarian" := []]>
  (<["oracle" := []]> ∅))))).

(** [SUBAGENT_DELEGATION_RULES[agentName] ?? ['explorer']]; the table is
    read as a finite map over its own keys. *)
Definition getSubagentRules (agentName : string) : list string :=
  default ["explorer"] (SUBAGENT_DELEGATION_RULES !! agentName).

(** [allowedSubagents.includes(requestedAgent)]. *)
Definition includes (l : list string) (x : string) : bool :=
  existsb (String.eqb x) l.

Record ToolPermissions := { background_task : bool; task : bool }.

Definition calculateToolPermissions (agentName : string) : ToolPermissions :=
  let allowedSubagents := getSubagentRules agentName in
  if (List.length allowedSubagents =? 0)%nat
  then {| background_task := false; task := false |}
  else {| background_task := true; task := true |}.

(** ** Plugin configuration (the fields the manager reads) *)

Record BackgroundTaskConfig := { cfg_maxConcurrentStarts : Z }.

Record FallbackConfig := {
  fb_enabled : option bool;
  fb_timeoutMs : option Z;
  fb_chains : option (gmap string (list string));
}.

Record AgentOverrideConfig := { ao_model : option string }.

Record PluginConfig := {
  background : option BackgroundTaskConfig;
  fallback : option FallbackConfig;
  agents : option (gmap string AgentOverrideConfig);
}.

Definition FALLBACK_FAILOVER_TIMEOUT_MS : Z := 15000.

(** ** Fallback resolver *)

(** The [for (const model of [primary, ...configuredChain])] loop, with its
    two accumulators [seen] and [chain]. *)
Fixpoint resolveLoop (models : list (option string))
    (seen : gset string) (chain : list string) : list string :=
  match models with
  | [] => chain
  | model :: rest =>
      match model with
      | Some s =>
          if negb (Js.truthy model) || bool_decide (s ∈ seen)
          then resolveLoop rest seen chain
          else resolveLoop rest ({[s]} ∪ seen) (chain ++ [s])
      | None => resolveLoop rest seen chain
      end
  end.

Definition configuredChainOf (config : option PluginConfig)
    (agentName : string) : list string :=
  match config with
  | Some c =>
      match fallback c with
      | Some fb =>
          match fb_chains fb with
          | Some chains => default [] (chains !! agentName)
          | None => []
          end
      | None => []
      end
  | None => []
  end.

Definition primaryOf (config : option PluginConfig)
    (agentName : string) : option string :=
  match config with
  | Some c =>
      match agents c with
      | Some a =>
          match a !! agentName with
          | Some o => ao_model o
          | None => None
          end
      | None => None
      end
  | None => None
  end.

Definition resolveFallbackChain (config : option PluginConfig)
    (agentName : string) : list string :=
  let configuredChain := configuredChainOf config agentName in
  let primary := primaryOf config agentName in
  resolveLoop (primary :: (Some <$> configuredChain)) ∅ [].

(** Reference formulation of the resolved chain: keep the first occurrence
    of every entry. *)
Fixpoint dedup_first (l : list string) : list string :=
  match l with
  | [] => []
  | x :: l' => x :: filter (λ y, y ≠ x) (dedup_first l')
  end.

(** The chain as the specification words it: primary, then the configured
    sequence, absent entries skipped, duplicates removed. *)
Definition chain_as_specified (primary : option string)
    (configured : list string) : list string :=
  dedup_first (omap id (primary :: (Some <$> configured))).

(** A falsy entry (absent or empty) counts as no entry. *)
Definition keep_truthy (v : option string) : option string :=
  if Js.truthy v then v else None.

(** The chain with every falsy entry skipped. *)
Definition chain_skipping_falsy (primary : option string)
    (configured : list string) : list string :=
  dedup_first (omap keep_truthy (primary :: (Some <$> configured))).

(** ** Session messages and result extraction *)

Record MessageInfo := { role : string }.
Record Part := { part_type : string; part_text : option string }.
Record Message := { info : option MessageInfo; parts : option (list Part) }.

Definition is_assistant (m : Message) : bool :=
  match info m with
  | Some i => String.eqb (role i) "assistant"
  | None => false
  end.

(** Inner loop of [extractAndCompleteTask]: push the text of every text or
    reasoning part with a truthy [text]. *)
Fixpoint pushParts (ps : list Part) (extractedContent : list string)
    : list string :=
  match ps with
  | [] => extractedContent
  | part :: ps' =>
      if (String.eqb (part_type part) "text"
          || String.eqb (part_type part) "reasoning")
         && Js.truthy (part_text part)
      then pushParts ps' (extractedContent ++ [default "" (part_text part)])
      else pushParts ps' extractedContent
  end.

(** Outer loop over the assistant messages. *)
Fixpoint pushMessages (ms : list Message) (extractedContent : list string)
    : list string :=
  match ms with
  | [] => extractedContent
  | message :: ms' =>
      pushMessages ms' (pushParts (default [] (parts message)) extractedContent)
  end.

Definition blank_line : string := Js.newline +:+ Js.newline.

Definition responseText (messages : list Message) : string :=
  let assistantMessages := List.filter is_assistant messages in
  let extractedContent := pushMessages assistantMessages [] in
  Js.join blank_line
    (List.filter (λ t, 0 <? Js.length t) extractedContent).

(** The string handed to [completeTask(task, 'completed', _)]. *)
Definition extractedResult (messages : list Message) : string :=
  let text := responseText messages in
  if Js.truthy (Some text) then text else "(No output)".

(** Reference formulation: the non-empty text/reasoning fragments of the
    assistant messages, in message order then part order. *)
Definition fragment (p : Part) : option string :=
  match part_text p with
  | Some t =>
      if (String.eqb (part_type p) "text"
          || String.eqb (part_type p) "reasoning")
         && negb (String.eqb t "")
      then Some t else None
  | None => None
  end.

Definition fragments (messages : list Message) : list string :=
  flat_map (λ m, if is_assistant m then omap fragment (default [] (parts m))
                 else [])
           messages.

(** The stored result as the specification words it: the fragments joined
    by blank lines, or the marker when that is empty. *)
Definition result_as_specified (messages : list Message) : string :=
  let text := Js.join blank_line (fragments messages) in
  if String.eqb text "" then "(No output)" else text.

(** ** Tasks *)

Inductive Status :=
  pending | starting | running | completed | failed | cancelled.

#[global] Instance Status_eq_dec : EqDecision Status.
Proof. solve_decision. Defined.

Module Task.

Record t := mk {
  id : string;
  sessionId : option string;
  description : string;
  agent : string;
  status : Status;
  result : option string;
  error : option string;
  config : BackgroundTaskConfig;
  parentSessionId : string;
  startedAt : nat;
  completedAt : option nat;
  prompt : string;
}.

Definition with_sessionId (v : option string) (x : t) : t :=
  mk (id x) v (description x) (agent x) (status x) (result x) (error x)
    (config x) (parentSessionId x) (startedAt x) (completedAt x) (prompt x).

Definition with_status (v : Status) (x : t) : t :=
  mk (id x) (sessionId x) (description x) (agent x) v (result x) (error x)
    (config x) (parentSessionId x) (startedAt x) (completedAt x) (prompt x).

Definition with_result (v : option string) (x : t) : t :=
  mk (id x) (sessionId x) (description x) (agent x) (status x) v (error x)
    (config x) (parentSessionId x) (startedAt x) (completedAt x) (prompt x).

Definition with_error (v : option string) (x : t) : t :=
  mk (id x) (sessionId x) (description x) (agent x) (status x) (result x) v
    (config x) (parentSessionId x) (startedAt x) (completedAt x) (prompt x).

Definition with_completedAt (v : option nat) (x : t) : t :=
  mk (id x) (sessionId x) (description x) (agent x) (status x) (result x)
    (error x) (config x) (parentSessionId x) (startedAt x) v (prompt x).

(** Placeholder read through a reference that was never allocated.  The
    manager only holds references returned by [launch], so it is never
    read in a reachable state (see [reachable_refs_allocated]). *)
Definition unallocated : t :=
  mk "" None "" "" pending None None {| cfg_maxConcurrentStarts := 0 |}
     "" 0%nat None "".

End Task.

Abbreviation BackgroundTask := Task.t.

Record LaunchOptions := {
  lo_agent : string;
  lo_prompt : string;
  lo_description : string;
  lo_parentSessionId : string;
}.

Definition isActive (s : Status) : bool :=
  match s with
  | pending | starting | running => true
  | _ => false
  end.

Definition isTerminal (s : Status) : bool :=
  match s with
  | completed | failed | cancelled => true
  | _ => false
  end.

(** ** Host calls and suspended activations *)

(** The body of a prompt sent to a session.  The behavioural variant
    ([resolveAgentVariant]/[applyAgentVariant] of ../utils) is not part of
    the sources at hand and is left out of the body. *)
Record PromptBody := {
  pb_agent : string;
  pb_tools : ToolPermissions;
  pb_text : string;
  pb_model : option ModelRef;
}.

(** Requests issued to the host client, in program order. *)
Inductive HostCall :=
| SessionCreate (parentID title directory : string)
| SessionPrompt (sid : string) (body : PromptBody) (directory : string)
| SessionAbort (sid : string)
| SessionMessages (sid : string)
| ParentNotification (parent message : string).

(** Where a [startTask] activation is suspended. *)
Inductive StartPhase :=
| AwaitCreate
| AwaitDelay (sid : string)
| AwaitPrompt (sid : string) (model : option string)
    (rest : list (option string)) (errors : list string).

Record StartFrame := { sf_task : nat; sf_phase : StartPhase }.

(** ** The manager *)

Record Manager := mkManager {
  (** task objects, by reference *)
  heap : list BackgroundTask;
  (** [tasks : Map<string, BackgroundTask>], in insertion order *)
  tasks : list (string * nat);
  tasksBySessionId : gmap string string;
  agentBySessionId : gmap string string;
  startQueue : list nat;
  activeStarts : Z;
  (** [completionResolvers]: task id to the promise its resolver settles *)
  completionResolvers : gmap string nat;
  (** suspended [startTask] activations *)
  starts : list StartFrame;
  (** suspended [extractAndCompleteTask] activations (their task) *)
  extractions : list nat;
  (** promises returned by [waitForCompletion]: [None] while pending,
      [Some v] once settled with task [v] ([Some None] is [null]) *)
  promises : list (option (option nat));
  (** armed [setTimeout] callbacks of [waitForCompletion]: promise, task id *)
  timers : list (nat * string);
  outbox : list HostCall;
  clock : nat;
}.

Definition with_heap (v : list BackgroundTask) (x : Manager) : Manager :=
  mkManager v (tasks x) (tasksBySessionId x) (agentBySessionId x)
    (startQueue x) (activeStarts x) (completionResolvers x) (starts x)
    (extractions x) (promises x) (timers x) (outbox x) (clock x).

Definition with_tasks (v : list (string * nat)) (x : Manager) : Manager :=
  mkManager (heap x) v (tasksBySessionId x) (agentBySessionId x)
    (startQueue x) (activeStarts x) (completionResolvers x) (starts x)
    (extractions x) (promises x) (timers x) (outbox x) (clock x).

Definition with_tasksBySessionId (v : gmap string string) (x : Manager)
    : Manager :=
  mkManager (heap x) (tasks x) v (agentBySessionId x) (startQueue x)
    (activeStarts x) (completionResolvers x) (starts x) (extractions x)
    (promises x) (timers x) (outbox x) (clock x).

Definition with_agentBySessionId (v : gmap string string) (x : Manager)
    : Manager :=
  mkManager (heap x) (tasks x) (tasksBySessionId x) v (startQueue x)
    (activeStarts x) (completionResolvers x) (starts x) (extractions x)
    (promises x) (timers x) (outbox x) (clock x).

Definition with_startQueue (v : list nat) (x : Manager) : Manager :=
  mkManager (heap x) (tasks x) (tasksBySessionId x) (agentBySessionId x) v
    (activeStarts x) (completionResolvers x) (starts x) (extractions x)
    (promises x) (timers x) (outbox x) (clock x).

Definition with_activeStarts (v : Z) (x : Manager) : Manager :=
  mkManager (heap x) (tasks x) (tasksBySessionId x) (agentBySessionId x)
    (startQueue x) v (completionResolvers x) (starts x) (extractions x)
    (promises x) (timers x) (outbox x) (clock x).

Definition with_completionResolvers (v : gmap string nat) (x : Manager)
    : Manager :=
  mkManager (heap x) (tasks x) (tasksBySessionId x) (agentBySessionId x)
    (startQueue x) (activeStarts x) v (starts x) (extractions x)
    (promises x) (timers x) (outbox x) (clock x).

Definition with_starts (v : list StartFrame) (x : Manager) : Manager :=
  mkManager (heap x) (tasks x) (tasksBySessionId x) (agentBySessionId x)
    (startQueue x) (activeStarts x) (completionResolvers x) v
    (extractions x) (promises x) (timers x) (outbox x) (clock x).

Definition with_extractions (v : list nat) (x : Manager) : Manager :=
  mkManager (heap x) (tasks x) (tasksBySessionId x) (agentBySessionId x)
    (startQueue x) (activeStarts x) (completionResolvers x) (starts x) v
    (promises x) (timers x) (outbox x) (clock x).

Definition with_promises (v : list (option (option nat))) (x : Manager)
    : Manager :=
  mkManager (heap x) (tasks x) (tasksBySessionId x) (agentBySessionId x)
    (startQueue x) (activeStarts x) (completionResolvers x) (starts x)
    (extractions x) v (timers x) (outbox x) (clock x).

Definition with_timers (v : list (nat * string)) (x : Manager) : Manager :=
  mkManager (heap x) (tasks x) (tasksBySessionId x) (agentBySessionId x)
    (startQueue x) (activeStarts x) (completionResolvers x) (starts x)
    (extractions x) (promises x) v (outbox x) (clock x).

Definition with_outbox (v : list HostCall) (x : Manager) : Manager :=
  mkManager (heap x) (tasks x) (tasksBySessionId x) (agentBySessionId x)
    (startQueue x) (activeStarts x) (completionResolvers x) (starts x)
    (extractions x) (promises x) (timers x) v (clock x).

Definition with_clock (v : nat) (x : Manager) : Manager :=
  mkManager (heap x) (tasks x) (tasksBySessionId x) (agentBySessionId x)
    (startQueue x) (activeStarts x) (completionResolvers x) (starts x)
    (extractions x) (promises x) (timers x) (outbox x) v.

(** [Map.prototype.get/set] on the insertion-ordered registry. *)
Module TaskMap.

Fixpoint get (k : string) (l : list (string * nat)) : option nat :=
  match l with
  | [] => None
  | (k', v) :: l' => if String.eqb k k' then Some v else get k l'
  end.

Fixpoint set (k : string) (v : nat) (l : list (string * nat))
    : list (string * nat) :=
  match l with
  | [] => [(k, v)]
  | (k', v') :: l' =>
      if String.eqb k k' then (k, v) :: l' else (k', v') :: set k v l'
  end.

Definition values (l : list (string * nat)) : list nat := snd <$> l.

End TaskMap.

Definition taskAt (m : Manager) (r : nat) : BackgroundTask :=
  default Task.unallocated (heap m !! r).

Definition statusAt (m : Manager) (r : nat) : Status :=
  Task.status (taskAt m r).

(** In-place mutation of the task object [r]. *)
Definition updTask (f : BackgroundTask → BackgroundTask) (r : nat)
    (m : Manager) : Manager :=
  with_heap (alter f r (heap m)) m.

Definition call (c : HostCall) (m : Manager) : Manager :=
  with_outbox (outbox m ++ [c]) m.

(** Settling a promise: only the first settlement counts. *)
Definition resolvePromise (p : nat) (v : option nat) (m : Manager)
    : Manager :=
  match promises m !! p with
  | Some None => with_promises (<[p := Some v]> (promises m)) m
  | _ => m
  end.

(** Number of task objects whose status is ['starting']. *)
Definition count_starting (m : Manager) : nat :=
  List.length (List.filter
    (λ t, bool_decide (Task.status t = starting)) (heap m)).

(** ** Host answers and external stimuli *)

Inductive CreateResult :=
| CreateData (id : option string)       (* resolved; [session.data?.id] *)
| CreateRejected (message : string).

Inductive PromptResult :=
| PromptResolved
| PromptRejected (message : string)
| PromptTimedOut.                        (* the timer of the race won *)

Inductive MessagesResult :=
| MessagesData (data : option (list Message))
| MessagesRejected (message : string).

Record StatusEvent := {
  se_type : string;
  se_sessionID : option string;          (* [properties?.sessionID] *)
  se_statusType : option string;         (* [properties?.status?.type] *)
}.

Record DeletedEvent := {
  de_type : string;
  de_infoId : option string;             (* [properties?.info?.id] *)
  de_sessionID : option string;          (* [properties?.sessionID] *)
}.

Inductive Event :=
| EvLaunch (opts : LaunchOptions) (rnd : string)
| EvCancel (taskId : option string)
| EvSessionStatus (e : StatusEvent)
| EvSessionDeleted (e : DeletedEvent)
| EvWaitForCompletion (taskId : string) (timeout : Z)
| EvCleanup
| EvCreateSettled (k : nat) (res : CreateResult)
| EvDelayElapsed (k : nat)
| EvPromptSettled (k : nat) (res : PromptResult)
| EvMessagesSettled (k : nat) (res : MessagesResult)
| EvTimerFired (k : nat)
| EvTick.

(** How the body of [startTask]'s [try] block leaves a synchronous run:
    suspended at the next [await], completed, or by a thrown error. *)
Inductive Completion :=
| Await (m : Manager) (ph : StartPhase)
| Normal (m : Manager)
| Throw (m : Manager) (message : string).

Section Manager.

Variable config : option PluginConfig.
Variable tmuxEnabled : bool.
Variable directory : string.

(** [config?.background ?? { maxConcurrentStarts: 10 }]. *)
Definition backgroundConfig : BackgroundTaskConfig :=
  default {| cfg_maxConcurrentStarts := 10 |} (config ≫= background).

Definition maxConcurrentStarts : Z := cfg_maxConcurrentStarts backgroundConfig.

Definition init : Manager :=
  mkManager [] [] ∅ ∅ [] 0 ∅ [] [] [] [] [] 0%nat.

(** *** Delegation checks *)

Definition parentAgentName (m : Manager) (parentSessionId : string) : string :=
  default "orchestrator" (agentBySessionId m !! parentSessionId).

Definition isAgentAllowed (m : Manager) (parentSessionId requestedAgent : string)
    : bool :=
  let allowedSubagents := getSubagentRules (parentAgentName m parentSessionId) in
  if (List.length allowedSubagents =? 0)%nat then false
  else includes allowedSubagents requestedAgent.

Definition getAllowedSubagents (m : Manager) (parentSessionId : string)
    : list string :=
  getSubagentRules (parentAgentName m parentSessionId).

(** *** Terminal handling *)

(** Synchronous part of [sendCompletionNotification]: the message is built
    from the task as it is at the call. *)
Definition sendCompletionNotification (r : nat) (m : Manager) : Manager :=
  let t := taskAt m r in
  let message :=
    if bool_decide (Task.status t = completed)
    then "[Background task " +:+ Js.dquote +:+ Task.description t
         +:+ Js.dquote +:+ " completed]"
    else "[Background task " +:+ Js.dquote +:+ Task.description t
         +:+ Js.dquote +:+ " failed: "
         +:+ default "undefined" (Task.error t) +:+ "]" in
  call (ParentNotification (Task.parentSessionId t) message) m.

(** [task.status = status; task.completedAt = new Date();] and the
    result or the error, on one task object. *)
Definition terminalFields (status : Status) (resultOrError : string)
    (now : nat) (t : BackgroundTask) : BackgroundTask :=
  let t := Task.with_status status t in
  let t := Task.with_completedAt (Some now) t in
  if bool_decide (status = completed)
  then Task.with_result (Some resultOrError) t
  else Task.with_error (Some resultOrError) t.

Definition markTerminal (r : nat) (status : Status) (resultOrError : string)
    (m : Manager) : Manager :=
  updTask (terminalFields status resultOrError (clock m)) r m.

(** Clean up the session tracking maps. *)
Definition untrackSession (r : nat) (m : Manager) : Manager :=
  let sessionId := Task.sessionId (taskAt m r) in
  if Js.truthy sessionId
  then with_agentBySessionId
         (delete (default "" sessionId) (agentBySessionId m))
         (with_tasksBySessionId
            (delete (default "" sessionId) (tasksBySessionId m)) m)
  else m.

(** Abort the session (best effort; failures are swallowed). *)
Definition abortSession (r : nat) (m : Manager) : Manager :=
  let sessionId := Task.sessionId (taskAt m r) in
  if Js.truthy sessionId
  then call (SessionAbort (default "" sessionId)) m
  else m.

(** Send the notification to the parent session (failures are logged). *)
Definition notifyParent (r : nat) (m : Manager) : Manager :=
  if Js.truthy (Some (Task.parentSessionId (taskAt m r)))
  then sendCompletionNotification r m
  else m.

(** Resolve waiting callers: call the resolver registered under [taskId]
    with the task, then delete it. *)
Definition resolveWaiter (taskId : string) (r : nat) (m : Manager)
    : Manager :=
  match completionResolvers m !! taskId with
  | Some p =>
      with_completionResolvers (delete taskId (completionResolvers m))
        (resolvePromise p (Some r) m)
  | None => m
  end.

Definition completeTask (r : nat) (status : Status) (resultOrError : string)
    (m : Manager) : Manager :=
  if bool_decide (statusAt m r = completed)
     || bool_decide (statusAt m r = failed)
  then m
  else
    let m := markTerminal r status resultOrError m in
    let m := untrackSession r m in
    let m := abortSession r m in
    let m := notifyParent r m in
    resolveWaiter (Task.id (taskAt m r)) r m.

(** *** Start queue *)

(** [startTask] up to its first [await]. *)
Definition startTask (r : nat) (m : Manager) : Manager :=
  let m := updTask (Task.with_status starting) r m in
  let m := with_activeStarts (activeStarts m + 1) m in
  if bool_decide (statusAt m r = cancelled)
  then completeTask r cancelled "Task cancelled before start" m
  else
    let t := taskAt m r in
    let m := call (SessionCreate (Task.parentSessionId t)
                     ("Background: " +:+ Task.description t) directory) m in
    with_starts (starts m ++ [{| sf_task := r; sf_phase := AwaitCreate |}]) m.

(** The [while] loop of [processQueue]; [fuel] bounds the iterations. *)
Fixpoint processQueue_loop (fuel : nat) (m : Manager) : Manager :=
  match fuel with
  | O => m
  | S fuel' =>
      if (activeStarts m <? maxConcurrentStarts)
         && (0 <? List.length (startQueue m))%nat
      then
        match startQueue m with
        | r :: q' =>
            processQueue_loop fuel' (startTask r (with_startQueue q' m))
        | [] => m
        end
      else m
  end.

(** Every iteration shifts one task off the queue and nothing is enqueued
    meanwhile, so the queue length is enough fuel
    (see [processQueue_exits_by_condition]). *)
Definition processQueue (m : Manager) : Manager :=
  processQueue_loop (List.length (startQueue m)) m.

Definition enqueueStart (r : nat) (m : Manager) : Manager :=
  processQueue (with_startQueue (startQueue m ++ [r]) m).

(** [launch]; [rnd] stands for the digits drawn by [generateTaskId]. *)
Definition launch (opts : LaunchOptions) (rnd : string) (m : Manager)
    : nat * Manager :=
  let task :=
    Task.mk ("bg_" +:+ rnd) None (lo_description opts) (lo_agent opts)
      pending None None
      {| cfg_maxConcurrentStarts := maxConcurrentStarts |}
      (lo_parentSessionId opts) (clock m) None (lo_prompt opts) in
  let r := List.length (heap m) in
  let m := with_heap (heap m ++ [task]) m in
  let m := with_tasks (TaskMap.set (Task.id task) r (tasks m)) m in
  (r, enqueueStart r m).

(** *** Prompt delivery with fallback *)

Definition fallbackEnabled : bool :=
  default true ((config ≫= fallback) ≫= fb_enabled).

Definition timeoutMs : Z :=
  if fallbackEnabled
  then default FALLBACK_FAILOVER_TIMEOUT_MS ((config ≫= fallback) ≫= fb_timeoutMs)
  else 0.

Definition attemptModels (agentName : string) : list (option string) :=
  let chain :=
    if fallbackEnabled then resolveFallbackChain config agentName else [] in
  if (0 <? List.length chain)%nat then Some <$> chain else [None].

(** The entry pushed on [errors] by the [catch] of one attempt. *)
Definition attemptError (model : option string) (msg : string) : string :=
  if Js.truthy model then default "" model +:+ ": " +:+ msg
  else "default-model: " +:+ msg.

Definition promptBody (r : nat) (m : Manager) (model : option ModelRef)
    : PromptBody :=
  let t := taskAt m r in
  {| pb_agent := Task.agent t;
     pb_tools := calculateToolPermissions (Task.agent t);
     pb_text := Task.prompt t;
     pb_model := model |}.

(** The [for (const model of attemptModels)] loop, run until an attempt
    awaits the host.  A model that does not parse throws inside the inner
    [try]; its [catch] records the error and the loop goes on. *)
Fixpoint attemptLoop (r : nat) (sid : string) (models : list (option string))
    (errors : list string) (m : Manager) : Completion :=
  match models with
  | [] => Throw m ("All fallback models failed. " +:+ Js.join " | " errors)
  | model :: rest =>
      if Js.truthy model then
        match parseModelReference (default "" model) with
        | None =>
            attemptLoop r sid rest
              (errors ++ [attemptError model
                            ("Invalid fallback model format: "
                             +:+ default "" model)]) m
        | Some ref =>
            Await (call (SessionPrompt sid (promptBody r m (Some ref))
                           directory) m)
                  (AwaitPrompt sid model rest errors)
        end
      else
        Await (call (SessionPrompt sid (promptBody r m None) directory) m)
              (AwaitPrompt sid model rest errors)
  end.

(** From the tool-permission computation to the first prompt attempt. *)
Definition sendPrompt (r : nat) (sid : string) (m : Manager) : Completion :=
  attemptLoop r sid (attemptModels (Task.agent (taskAt m r))) [] m.

(** [startTask] resumed with the answer of [session.create]. *)
Definition afterCreate (r : nat) (res : CreateResult) (m : Manager)
    : Completion :=
  match res with
  | CreateRejected msg => Throw m msg
  | CreateData id =>
      if negb (Js.truthy id)
      then Throw m "Failed to create background session"
      else
        let sid := default "" id in
        let m := updTask (Task.with_sessionId (Some sid)) r m in
        let m := with_tasksBySessionId
                   (<[sid := Task.id (taskAt m r)]> (tasksBySessionId m)) m in
        let m := with_agentBySessionId
                   (<[sid := Task.agent (taskAt m r)]> (agentBySessionId m)) m in
        let m := updTask (Task.with_status running) r m in
        if tmuxEnabled then Await m (AwaitDelay sid) else sendPrompt r sid m
  end.

(** [startTask] resumed with the outcome of [promptWithTimeout]. *)
Definition afterPrompt (r : nat) (sid : string) (model : option string)
    (rest : list (option string)) (errors : list string)
    (res : PromptResult) (m : Manager) : Completion :=
  match res with
  | PromptResolved => Normal m
  | PromptRejected msg =>
      attemptLoop r sid rest (errors ++ [attemptError model msg]) m
  | PromptTimedOut =>
      attemptLoop r sid rest
        (errors ++ [attemptError model
                      ("Prompt timed out after " +:+ pretty timeoutMs
                       +:+ "ms")]) m
  end.

(** [promptWithTimeout] arms its timer only when [timeoutMs > 0]. *)
Definition raceCanEndWith (res : PromptResult) : bool :=
  match res with
  | PromptTimedOut => 0 <? timeoutMs
  | _ => true
  end.

(** The [finally] block. *)
Definition finallyStart (k : nat) (m : Manager) : Manager :=
  let m := with_starts (delete k (starts m)) m in
  let m := with_activeStarts (activeStarts m - 1) m in
  processQueue m.

(** The outer [catch]/[finally] around the body, for the activation [k]. *)
Definition settle (k r : nat) (c : Completion) : Manager :=
  match c with
  | Await m ph =>
      with_starts (<[k := {| sf_task := r; sf_phase := ph |}]> (starts m)) m
  | Normal m => finallyStart k m
  | Throw m msg => finallyStart k (completeTask r failed msg m)
  end.

(** *** Session events *)

(** [extractAndCompleteTask] up to its [await]. *)
Definition extractAndCompleteTask (r : nat) (m : Manager) : Manager :=
  let sessionId := Task.sessionId (taskAt m r) in
  if negb (Js.truthy sessionId) then m
  else
    let m := call (SessionMessages (default "" sessionId)) m in
    with_extractions (extractions m ++ [r]) m.

(** [extractAndCompleteTask] resumed with the message history. *)
Definition afterMessages (r : nat) (res : MessagesResult) (m : Manager)
    : Manager :=
  match res with
  | MessagesData data =>
      completeTask r completed (extractedResult (default [] data)) m
  | MessagesRejected msg => completeTask r failed msg m
  end.

Definition handleSessionStatus (e : StatusEvent) (m : Manager) : Manager :=
  if negb (String.eqb (se_type e) "session.status") then m
  else if negb (Js.truthy (se_sessionID e)) then m
  else
    let taskId := tasksBySessionId m !! default "" (se_sessionID e) in
    if negb (Js.truthy taskId) then m
    else
      match TaskMap.get (default "" taskId) (tasks m) with
      | None => m
      | Some r =>
          if negb (bool_decide (statusAt m r = running)) then m
          else if bool_decide (se_statusType e = Some "idle")
          then extractAndCompleteTask r m
          else m
      end.

Definition handleSessionDeleted (e : DeletedEvent) (m : Manager) : Manager :=
  if negb (String.eqb (de_type e) "session.deleted") then m
  else
    let sessionId :=
      match de_infoId e with
      | Some i => Some i
      | None => de_sessionID e
      end in
    if negb (Js.truthy sessionId) then m
    else
      let sid := default "" sessionId in
      let taskId := tasksBySessionId m !! sid in
      if negb (Js.truthy taskId) then m
      else
        let tid := default "" taskId in
        match TaskMap.get tid (tasks m) with
        | None => m
        | Some r =>
            if bool_decide (statusAt m r = running)
               || bool_decide (statusAt m r = pending)
            then
              let m := updTask (Task.with_status cancelled) r m in
              let m := updTask (Task.with_completedAt (Some (clock m))) r m in
              let m := updTask (Task.with_error (Some "Session deleted")) r m in
              let m := with_tasksBySessionId (delete sid (tasksBySessionId m)) m in
              let m := with_agentBySessionId (delete sid (agentBySessionId m)) m in
              resolveWaiter tid r m
            else m
        end.

(** *** Retrieval and waiting *)

Definition getResult (taskId : string) (m : Manager) : option nat :=
  TaskMap.get taskId (tasks m).

(** [waitForCompletion]; the promise it returns is the one allocated. *)
Definition waitForCompletion (taskId : string) (timeout : Z) (m : Manager)
    : nat * Manager :=
  let p := List.length (promises m) in
  match TaskMap.get taskId (tasks m) with
  | None => (p, with_promises (promises m ++ [Some None]) m)
  | Some r =>
      if isTerminal (statusAt m r)
      then (p, with_promises (promises m ++ [Some (Some r)]) m)
      else
        let m := with_promises (promises m ++ [None]) m in
        let m := with_completionResolvers
                   (<[taskId := p]> (completionResolvers m)) m in
        let m := if 0 <? timeout
                 then with_timers (timers m ++ [(p, taskId)]) m
                 else m in
        (p, m)
  end.

(** The [setTimeout] callback armed by [waitForCompletion]. *)
Definition timerFired (p : nat) (taskId : string) (m : Manager) : Manager :=
  let m := with_completionResolvers
             (delete taskId (completionResolvers m)) m in
  resolvePromise p (TaskMap.get taskId (tasks m)) m.

(** *** Cancellation *)

(** [startQueue.findIndex(t => t.id === taskId)] followed by [splice]. *)
Fixpoint spliceFirst (m : Manager) (taskId : string) (q : list nat)
    : list nat :=
  match q with
  | [] => []
  | r :: q' =>
      if String.eqb (Task.id (taskAt m r)) taskId then q'
      else r :: spliceFirst m taskId q'
  end.

(** The body both branches of [cancel] run for an active task [r],
    reached under the key [taskId]. *)
Definition cancelTask (taskId : string) (r : nat) (m : Manager) : Manager :=
  let m := with_completionResolvers
             (delete taskId (completionResolvers m)) m in
  let inStartQueue := bool_decide (statusAt m r = pending) in
  let m := updTask (Task.with_status cancelled) r m in
  let m := if inStartQueue
           then with_startQueue (spliceFirst m taskId (startQueue m)) m
           else m in
  completeTask r cancelled "Cancelled by user" m.

(** [for (const task of this.tasks.values())] of [cancel()]. *)
Fixpoint cancelAll (rs : list nat) (count : Z) (m : Manager) : Z * Manager :=
  match rs with
  | [] => (count, m)
  | r :: rs' =>
      if isActive (statusAt m r)
      then cancelAll rs' (count + 1) (cancelTask (Task.id (taskAt m r)) r m)
      else cancelAll rs' count m
  end.

Definition cancel (taskId : option string) (m : Manager) : Z * Manager :=
  if Js.truthy taskId then
    let tid := default "" taskId in
    match TaskMap.get tid (tasks m) with
    | Some r =>
        if isActive (statusAt m r) then (1, cancelTask tid r m) else (0, m)
    | None => (0, m)
    end
  else cancelAll (TaskMap.values (tasks m)) 0 m.

Definition cleanup (m : Manager) : Manager :=
  let m := with_startQueue [] m in
  let m := with_completionResolvers ∅ m in
  let m := with_tasks [] m in
  let m := with_tasksBySessionId ∅ m in
  with_agentBySessionId ∅ m.

(** *** The step function

    One event is one run of synchronous code between two suspension
    points.  An event that names no suspended activation, or an answer the
    activation is not waiting for, is not enabled. *)
Definition step (m : Manager) (e : Event) : option Manager :=
  match e with
  | EvLaunch opts rnd => Some (launch opts rnd m).2
  | EvCancel taskId => Some (cancel taskId m).2
  | EvSessionStatus ev => Some (handleSessionStatus ev m)
  | EvSessionDeleted ev => Some (handleSessionDeleted ev m)
  | EvWaitForCompletion taskId timeout =>
      Some (waitForCompletion taskId timeout m).2
  | EvCleanup => Some (cleanup m)
  | EvCreateSettled k res =>
      match starts m !! k with
      | Some {| sf_task := r; sf_phase := AwaitCreate |} =>
          Some (settle k r (afterCreate r res m))
      | _ => None
      end
  | EvDelayElapsed k =>
      match starts m !! k with
      | Some {| sf_task := r; sf_phase := AwaitDelay sid |} =>
          Some (settle k r (sendPrompt r sid m))
      | _ => None
      end
  | EvPromptSettled k res =>
      match starts m !! k with
      | Some {| sf_task := r; sf_phase := AwaitPrompt sid model rest errors |} =>
          if raceCanEndWith res
          then Some (settle k r (afterPrompt r sid model rest errors res m))
          else None
      | _ => None
      end
  | EvMessagesSettled k res =>
      match extractions m !! k with
      | Some r =>
          Some (afterMessages r res (with_extractions (delete k (extractions m)) m))
      | None => None
      end
  | EvTimerFired k =>
      match timers m !! k with
      | Some (p, taskId) =>
          Some (timerFired p taskId (with_timers (delete k (timers m)) m))
      | None => None
      end
  | EvTick => Some (with_clock (S (clock m)) m)
  end.

(** Running a trace of events. *)
Fixpoint run (m : Manager) (es : list Event) : option Manager :=
  match es with
  | [] => Some m
  | e :: es' =>
      match step m e with
      | Some m' => run m' es'
      | None => None
      end
  end.

Inductive reachable : Manager → Prop :=
| reachable_init : reachable init
| reachable_step m e m' :
    reachable m → step m e = Some m' → reachable m'.

End Manager.

(** ** Invariants of the start queue *)

(** The task object [r] exists and is in ['starting'] status. *)
Definition starting_at (m : Manager) (r : nat) : Prop :=
  ∃ t, heap m !! r = Some t ∧ Task.status t = starting.

(** The task object [r] exists and is in ['pending'] status. *)
Definition pending_at (m : Manager) (r : nat) : Prop :=
  ∃ t, heap m !! r = Some t ∧ Task.status t = pending.

(** From status [s] to [s'] without entering ['pending'] or ['starting']. *)
Definition status_advances (s s' : Status) : Prop :=
  s' = s ∨ (s' ≠ starting ∧ s' ≠ pending).

(** [m'] has the suspended [startTask] activations, the counter and the
    task objects of [m], and no task entered ['pending'] or ['starting']. *)
Definition quiet (m m' : Manager) : Prop :=
  starts m' = starts m
  ∧ activeStarts m' = activeStarts m
  ∧ List.length (heap m') = List.length (heap m)
  ∧ ∀ r t, heap m !! r = Some t →
           ∃ t', heap m' !! r = Some t'
                 ∧ status_advances (Task.status t) (Task.status t').

(** The task object [r] exists and has left ['pending']. *)
Definition admitted_at (m : Manager) (r : nat) : Prop :=
  ∃ t, heap m !! r = Some t ∧ Task.status t ≠ pending.

(** No task object of [m] is lost or set back to ['pending'] in [m']. *)
Definition keeps_admitted (m m' : Manager) : Prop :=
  ∀ r, admitted_at m r → admitted_at m' r.

(** The tasks [0 .. k-1] were launched into an idle manager and are all
    being started. *)
Definition burst_started (k : nat) (m : Manager) : Prop :=
  List.length (heap m) = k
  ∧ (∀ r, (r < k)%nat → starting_at m r)
  ∧ activeStarts m = Z.of_nat k
  ∧ startQueue m = [].

(** The [launch] calls of a list of requests (options and drawn id). *)
Definition launches (ls : list (LaunchOptions * string)) : list Event :=
  (λ l, EvLaunch l.1 l.2) <$> ls.

(** The task references the manager holds: in the start queue, in the
    suspended activations and in the registry. *)
Definition refs (m : Manager) : list nat :=
  startQueue m ++ (sf_task <$> starts m) ++ extractions m
  ++ TaskMap.values (tasks m).

(** Every reference held designates a task object. *)
Definition refs_allocated (m : Manager) : Prop :=
  ∀ r, r ∈ refs m → is_Some (heap m !! r).

(** [m'] holds no reference that [m] does not hold, and has at least the
    task objects of [m]. *)
Definition no_new_refs (m m' : Manager) : Prop :=
  (List.length (heap m) ≤ List.length (heap m'))%nat
  ∧ ∀ r, r ∈ refs m' → r ∈ refs m.

(** What the concurrency governor maintains for the ceiling [N]: the
    counter is the number of suspended [startTask] activations, it stays
    under the ceiling, and every task in ['starting'] status has an
    activation waiting for its session. *)
Definition admission_inv (N : Z) (m : Manager) : Prop :=
  Z.of_nat (List.length (starts m)) = activeStarts m
  ∧ activeStarts m ≤ Z.max 0 N
  ∧ ∀ r, starting_at m r →
         ∃ k, starts m !! k = Some {| sf_task := r; sf_phase := AwaitCreate |}.

(** The manager a synchronous run of the [try] body ends with. *)
Definition completion_manager (c : Completion) : Manager :=
  match c with
  | Await m _ | Normal m | Throw m _ => m
  end.

Definition is_throw (c : Completion) : bool :=
  match c with
  | Throw _ _ => true
  | _ => false
  end.

(** What holds when the activation [k] is about to run its [finally]
    block: the activations that wait for a session on behalf of a
    ['starting'] task are other than [k]. *)
Definition settling_pre (N : Z) (k : nat) (m : Manager) : Prop :=
  Z.of_nat (List.length (starts m)) = activeStarts m
  ∧ activeStarts m ≤ Z.max 0 N
  ∧ is_Some (starts m !! k)
  ∧ ∀ r, starting_at m r →
         ∃ j, j ≠ k
              ∧ starts m !! j
                = Some {| sf_task := r; sf_phase := AwaitCreate |}.

(** ** Sample configurations and states

    Concrete inputs on which the properties of Part II are exercised. *)

Definition fixer_session : Manager :=
  with_agentBySessionId (<["ses_fixer" := "fixer"]> ∅) init.




Definition assistant_text (t : string) : Message :=
  {| info := Some {| role := "assistant" |};
     parts := Some [{| part_type := "text"; part_text := Some t |}] |}.

Definition ceiling_one : option PluginConfig :=
  Some {| background := Some {| cfg_maxConcurrentStarts := 1 |};
          fallback := None; agents := None |}.

Definition explore (description : string) : LaunchOptions :=
  {| lo_agent := "explorer"; lo_prompt := "look around";
     lo_description := description; lo_parentSessionId := "ses_root" |}.

(** Two launches under ceiling 1: the first task is starting, the second
    waits in the queue. *)
Definition first_launch : list (LaunchOptions * string) :=
  [(explore "first", "aaaaaaaa")].

Definition two_launches : list Event :=
  launches first_launch ++ [EvLaunch (explore "second") "bbbbbbbb"].

Definition after_two_launches : Manager :=
  default init (run ceiling_one false "/repo" init two_launches).

(** The second launch, then the start of the first task runs to its end:
    the second task is admitted. *)
Definition second_admitted : list Event :=
  [EvLaunch (explore "second") "bbbbbbbb";
   EvCreateSettled 0 (CreateData (Some "ses_1"));
   EvPromptSettled 0 PromptResolved].

Definition after_second_admitted : Manager :=
  default init
    (run ceiling_one false "/repo" init
       (launches first_launch ++ second_admitted)).

Definition idle_event (sid : string) : StatusEvent :=
  {| se_type := "session.status"; se_sessionID := Some sid;
     se_statusType := Some "idle" |}.

(** What a caller of [getResult] sees of the task object [r]. *)
Definition observe (r : nat) (m : Manager)
    : Status * option string * option string :=
  (statusAt m r, Task.result (taskAt m r), Task.error (taskAt m r)).

(** A task is launched and cancelled while its [startTask] activation
    still waits for the session. *)
Definition cancel_during_start : list Event :=
  [EvLaunch (explore "first") "aaaaaaaa"; EvCancel (Some "bg_aaaaaaaa")].

(** ... then the host answers the session creation ... *)
Definition then_session_created : list Event :=
  cancel_during_start ++ [EvCreateSettled 0 (CreateData (Some "ses_1"))].

(** ... the prompt is delivered, the session goes idle and its history is
    read. *)
Definition then_session_idle : list Event :=
  then_session_created
  ++ [EvPromptSettled 0 PromptResolved;
      EvSessionStatus (idle_event "ses_1");
      EvMessagesSettled 0 (MessagesData (Some [assistant_text "A"]))].

(** ... or the host rejects the session creation. *)
Definition then_create_rejected : list Event :=
  cancel_during_start ++ [EvCreateSettled 0 (CreateRejected "boom")].

(** A task is brought to ['running']. *)
Definition to_running : list Event :=
  [EvLaunch (explore "first") "aaaaaaaa";
   EvCreateSettled 0 (CreateData (Some "ses_1"));
   EvPromptSettled 0 PromptResolved].

Definition running_task : Manager :=
  default init (run None false "/repo" init to_running).

(** The session of the running task goes idle and, while its history is
    being fetched, the session is deleted ... *)
Definition deleted_during_extraction : list Event :=
  to_running
  ++ [EvSessionStatus (idle_event "ses_1");
      EvSessionDeleted {| de_type := "session.deleted";
                          de_infoId := Some "ses_1";
                          de_sessionID := None |}].

(** ... then the history arrives. *)
Definition then_history_arrives : list Event :=
  deleted_during_extraction
  ++ [EvMessagesSettled 0 (MessagesData (Some [assistant_text "A"]))].

(** A caller waits for the running task with a 100 ms timeout and the
    timer fires first. *)
Definition wait_then_timeout : list Event :=
  to_running ++ [EvWaitForCompletion "bg_aaaaaaaa" 100; EvTimerFired 0].


Definition waited_task : Manager :=
  default init
    (run None false "/repo" init
       (to_running ++ [EvWaitForCompletion "bg_aaaaaaaa" 0])).


(** The history of a session with two assistant messages. *)
Definition history_A_B : list Message :=
  [assistant_text "A"; assistant_text "B"].

(** A role whose only configured model has no separator. *)
Definition chain_badmodel : option PluginConfig :=
  Some {| background := None;
          fallback := Some {| fb_enabled := None; fb_timeoutMs := None;
                              fb_chains :=
                                Some (<["explorer" := ["badmodel"]]> ∅) |};
          agents := None |}.


(** ** Further sample inputs *)

Definition codex_reference : string := "openai/gpt-5.2-codex".



Definition user_text (t : string) : Message :=
  {| info := Some {| role := "user" |};
     parts := Some [{| part_type := "text"; part_text := Some t |}] |}.

(** The one-line notification sent to the parent session for a task with
    the given description that ended in [status] with [resultOrError]. *)
Definition completionMessage (description : string) (status : Status)
    (resultOrError : string) : string :=
  if bool_decide (status = completed)
  then "[Background task " +:+ Js.dquote +:+ description +:+ Js.dquote
       +:+ " completed]"
  else "[Background task " +:+ Js.dquote +:+ description +:+ Js.dquote
       +:+ " failed: " +:+ resultOrError +:+ "]".

(** The host calls of the terminal handling of a task. *)
Definition terminalCalls (t : BackgroundTask) (status : Status)
    (resultOrError : string) : list HostCall :=
  (if Js.truthy (Task.sessionId t)
   then [SessionAbort (default "" (Task.sessionId t))] else [])
  ++ (if Js.truthy (Some (Task.parentSessionId t))
      then [ParentNotification (Task.parentSessionId t)
              (completionMessage (Task.description t) status resultOrError)]
      else []).

(** The session indexes with the session of [t] removed. *)
Definition withoutSession (t : BackgroundTask) (index : gmap string string)
    : gmap string string :=
  if Js.truthy (Task.sessionId t)
  then delete (default "" (Task.sessionId t)) index
  else index.


(** The number of tasks [processQueue] admits: as many as the queue holds
    and the ceiling [N] leaves room for. *)
Definition admissions (N : Z) (m : Manager) : nat :=
  Z.to_nat (Z.min (Z.of_nat (List.length (startQueue m)))
                  (N - activeStarts m)).

(** The session request [startTask] issues for the task [r]. *)
Definition creation (directory : string) (m : Manager) (r : nat) : HostCall :=
  SessionCreate (Task.parentSessionId (taskAt m r))
    ("Background: " +:+ Task.description (taskAt m r)) directory.

(** A [startTask] activation for [r], suspended at [session.create]. *)
Definition awaitingSession (r : nat) : StartFrame :=
  {| sf_task := r; sf_phase := AwaitCreate |}.

(** The three assignments [handleSessionDeleted] makes to the task. *)
Definition sessionDeletedFields (now : nat) (t : BackgroundTask)
    : BackgroundTask :=
  Task.with_error (Some "Session deleted")
    (Task.with_completedAt (Some now) (Task.with_status cancelled t)).

(** [properties?.info?.id ?? properties?.sessionID]. *)
Definition deletedSessionId (e : DeletedEvent) : option string :=
  match de_infoId e with
  | Some i => Some i
  | None => de_sessionID e
  end.


(** The error a [session.create] answer makes [startTask] throw, if any. *)
Definition creationFailure (res : CreateResult) : option string :=
  match res with
  | CreateRejected msg => Some msg
  | CreateData id =>
      if Js.truthy id then None
      else Some "Failed to create background session"
  end.
(* ================================================================== *)
(** * Part II: properties *)
(* ================================================================== *)

(** ** Delegation policy *)


Lemma getSubagentRules_unknown (agentName : string) :
  SUBAGENT_DELEGATION_RULES !! agentName = None →
  getSubagentRules agentName = ["explorer"].
Proof. unfold getSubagentRules. by intros ->. Qed.

Lemma getAllowedSubagents_untracked (m : Manager) (p : string) :
  agentBySessionId m !! p = None →
  getAllowedSubagents m p = SUBAGENT_NAMES.
Proof.
  unfold getAllowedSubagents, parentAgentName. intros ->. reflexivity.
Qed.

Lemma getAllowedSubagents_unknown_role (m : Manager) (p role : string) :
  agentBySessionId m !! p = Some role →
  SUBAGENT_DELEGATION_RULES !! role = None →
  getAllowedSubagents m p = ["explorer"].
Proof.
  unfold getAllowedSubagents, parentAgentName. intros -> Hr.
  by apply getSubagentRules_unknown.
Qed.

(** C9. A role whose delegation roster is empty may delegate to nobody:
    [isAgentAllowed] is false for a parent session owned by that role and
    any requested role, and [calculateToolPermissions] switches both
    delegation tools ([background_task] and [task]) off. *)
Theorem empty_roster_disables_delegation
    (m : Manager) (parentSessionId R X : string) :
  agentBySessionId m !! parentSessionId = Some R →
  getSubagentRules R = [] →
  isAgentAllowed m parentSessionId X = false
  ∧ calculateToolPermissions R
    = {| background_task := false; task := false |}.
Proof.
  intros Hown Hempty. split.
  - unfold isAgentAllowed, parentAgentName. rewrite Hown. cbn.
    by rewrite Hempty.
  - unfold calculateToolPermissions. by rewrite Hempty.
Qed.

Lemma empty_roster_disables_delegation_witness :
  isAgentAllowed fixer_session "ses_fixer" "explorer" = false
  ∧ calculateToolPermissions "fixer"
    = {| background_task := false; task := false |}.
Proof.
  apply (empty_roster_disables_delegation fixer_session "ses_fixer" "fixer"
           "explorer"); vm_compute; reflexivity.
Defined.


(** ** Model references *)

Section IndexOf.

Variable c : ascii.

Lemma length_append (s1 s2 : string) :
  String.length (s1 +:+ s2) = (String.length s1 + String.length s2)%nat.
Proof. induction s1 as [|a s1 IH]; simpl; [done | by f_equal]. Qed.

Lemma indexOf_from_absent (s : string) (i : Z) :
  ¬ occurs c s → Js.indexOf_from c s i = -1.
Proof.
  revert i. induction s as [|a s IH]; intros i Hno; simpl; [done|].
  simpl in Hno. destruct (Ascii.eqb_spec a c) as [->|Hne]; [tauto|].
  apply IH. tauto.
Qed.

Lemma indexOf_from_first (pre post : string) (i : Z) :
  ¬ occurs c pre →
  Js.indexOf_from c (pre +:+ String c post) i
  = i + Z.of_nat (String.length pre).
Proof.
  revert i. induction pre as [|a pre IH]; intros i Hno; simpl.
  - rewrite Ascii.eqb_refl. lia.
  - simpl in Hno. destruct (Ascii.eqb_spec a c) as [->|Hne]; [tauto|].
    rewrite IH by tauto. lia.
Qed.

(** A string either lacks [c] or splits at its first occurrence. *)
Lemma first_occurrence (s : string) :
  ¬ occurs c s
  ∨ ∃ pre post, s = pre +:+ String c post ∧ ¬ occurs c pre.
Proof.
  induction s as [|a s IH].
  - left. simpl. tauto.
  - destruct (Ascii.eqb_spec a c) as [->|Hne].
    + right. exists EmptyString, s. simpl. tauto.
    + destruct IH as [Hno | (pre & post & -> & Hpre)].
      * left. simpl. tauto.
      * right. exists (String a pre), post. simpl. tauto.
Qed.

Lemma occurs_append (pre post : string) :
  occurs c (pre +:+ String c post).
Proof. induction pre as [|a pre IH]; simpl; tauto. Qed.

Lemma first_occurrence_unique (pre pre' post post' : string) :
  ¬ occurs c pre → ¬ occurs c pre' →
  pre +:+ String c post = pre' +:+ String c post' →
  pre = pre' ∧ post = post'.
Proof.
  revert pre'. induction pre as [|a pre IH]; intros [|a' pre'] Hno Hno' Heq;
    simpl in *.
  - by inversion Heq.
  - inversion Heq; subst. tauto.
  - inversion Heq; subst. tauto.
  - inversion Heq; subst. destruct (IH pre') as [-> ->]; tauto.
Qed.

End IndexOf.

Lemma parseModelReference_none_iff (model : string) :
  parseModelReference model = None
  ↔ separator_missing model ∨ separator_at_start model
    ∨ separator_at_end model.
Proof.
  unfold parseModelReference, separator_missing, separator_at_start,
    separator_at_end, Js.indexOf, Js.length.
  destruct (first_occurrence Js.slash model)
    as [Hno | (pre & post & -> & Hpre)].
  - rewrite indexOf_from_absent by done. cbn. tauto.
  - rewrite indexOf_from_first by done. rewrite length_append. cbn [String.length].
    destruct (_ || _) eqn:Hguard.
    + split; [intros _ | done].
      apply orb_true_iff in Hguard as [Hle | Hge].
      * apply Z.leb_le in Hle. destruct pre; [|cbn in Hle; lia].
        right; left. by exists post.
      * apply Z.geb_le in Hge. destruct post; [|cbn in Hge; lia].
        right; right. by exists pre.
    + apply orb_false_iff in Hguard as [Hle Hge].
      apply Z.leb_gt in Hle. rewrite Z.geb_leb in Hge. apply Z.leb_gt in Hge.
      split; [done|]. intros [Hmiss | [(rest & Heq) | (pre' & Heq & Hpre')]].
      * destruct Hmiss. apply occurs_append.
      * destruct pre; [cbn in Hle; lia|]. cbn in Heq, Hpre.
        inversion Heq; subst. tauto.
      * apply first_occurrence_unique in Heq as [_ ->]; [|done..].
        cbn in Hge. lia.
Qed.

Lemma truthy_Some (s : string) : Js.truthy (Some s) = true ↔ s ≠ "".
Proof.
  unfold Js.truthy. destruct (String.eqb_spec s ""); cbn; split; try done.
Qed.

Lemma attemptLoop_invalid_model (directory : string) (r : nat)
    (sid model : string) (rest : list (option string))
    (errors : list string) (m : Manager) :
  model ≠ "" → parseModelReference model = None →
  attemptLoop directory r sid (Some model :: rest) errors m
  = attemptLoop directory r sid rest
      (errors ++ [model +:+ ": Invalid fallback model format: " +:+ model]) m.
Proof.
  intros Hne Hparse. apply truthy_Some in Hne.
  cbn [attemptLoop]. rewrite Hne.
  change (default "" (Some model)) with model. rewrite Hparse.
  unfold attemptError. rewrite Hne. reflexivity.
Qed.

Lemma attemptLoop_all_invalid (directory : string) (r : nat) (sid : string)
    (models : list string) (errors : list string) (m : Manager) :
  Forall (λ model, model ≠ "" ∧ parseModelReference model = None) models →
  attemptLoop directory r sid (Some <$> models) errors m
  = Throw m ("All fallback models failed. "
             +:+ Js.join " | "
                   (errors ++ ((λ model, model
                                +:+ ": Invalid fallback model format: "
                                +:+ model) <$> models))).
Proof.
  intros Hall. revert errors.
  induction Hall as [|model rest [Hne Hparse] _ IH]; intros errors.
  - cbn. by rewrite app_nil_r.
  - rewrite fmap_cons, attemptLoop_invalid_model by done.
    rewrite IH, fmap_cons, <- app_assoc. reflexivity.
Qed.

(** C8. Parsing a model identifier fails exactly when the separator (the
    first ['/']) is missing, at the start, or at the end of the string.  A
    model that fails to parse during a fallback attempt is recorded as a
    per-attempt error naming it and the loop goes on with the next
    candidate; when nothing else is left the start sequence ends in the
    failed handling of [completeTask], not in an escaping exception. *)
Theorem invalid_model_is_recorded_not_thrown :
  (∀ model : string,
     parseModelReference model = None
     ↔ separator_missing model ∨ separator_at_start model
       ∨ separator_at_end model)
  ∧ (∀ (directory : string) (r : nat) (sid model : string)
       (rest : list (option string)) (errors : list string) (m : Manager),
       model ≠ "" → parseModelReference model = None →
       attemptLoop directory r sid (Some model :: rest) errors m
       = attemptLoop directory r sid rest
           (errors ++ [model +:+ ": Invalid fallback model format: "
                       +:+ model]) m)
  ∧ (∀ (config : option PluginConfig) (directory : string) (k r : nat)
       (sid : string) (models errors : list string) (m : Manager),
       Forall (λ model, model ≠ "" ∧ parseModelReference model = None)
         models →
       settle config directory k r
         (attemptLoop directory r sid (Some <$> models) errors m)
       = finallyStart config directory k
           (completeTask r failed
              ("All fallback models failed. "
               +:+ Js.join " | "
                     (errors
                      ++ ((λ model, model
                           +:+ ": Invalid fallback model format: "
                           +:+ model) <$> models))) m)).
Proof.
  split; [exact parseModelReference_none_iff | split].
  - intros. by apply attemptLoop_invalid_model.
  - intros. by rewrite attemptLoop_all_invalid.
Qed.

Lemma invalid_model_is_recorded_not_thrown_witness :
  attemptLoop "/repo" 0 "ses_1" [Some "badmodel"; Some "q/b"] [] init
  = attemptLoop "/repo" 0 "ses_1" [Some "q/b"]
      ["badmodel: Invalid fallback model format: badmodel"] init
  ∧ settle None "/repo" 0 0
      (attemptLoop "/repo" 0 "ses_1" (Some <$> ["badmodel"]) [] init)
    = finallyStart None "/repo" 0
        (completeTask 0 failed
           ("All fallback models failed. "
            +:+ Js.join " | "
                  ([] ++ ((λ model, model
                           +:+ ": Invalid fallback model format: "
                           +:+ model) <$> ["badmodel"]))) init).
Proof.
  split.
  - apply (proj1 (proj2 invalid_model_is_recorded_not_thrown)
             "/repo" 0%nat "ses_1" "badmodel" [Some "q/b"] [] init).
    + discriminate.
    + vm_compute. reflexivity.
  - apply (proj2 (proj2 invalid_model_is_recorded_not_thrown)
             None "/repo" 0%nat 0%nat "ses_1" ["badmodel"] [] init).
    constructor; [|constructor]. split; [discriminate|].
    vm_compute. reflexivity.
Defined.

(** The model identifier ["badmodel"] as the only candidate: the start
    sequence ends with the task failed and the attempt on record. *)
Example badmodel_fails_the_task :
  observe 0
    <$> run chain_badmodel false "/repo" init
          [EvLaunch (explore "first") "aaaaaaaa";
           EvCreateSettled 0 (CreateData (Some "ses_1"))]
  = Some (failed, None,
          Some ("All fallback models failed. "
                +:+ "badmodel: Invalid fallback model format: badmodel")).
Proof. vm_compute. reflexivity. Qed.

(** ** Fallback resolver *)






Lemma omap_keep_truthy_id (l : list (option string)) :
  Forall (λ v, v ≠ Some "") l → omap keep_truthy l = omap id l.
Proof.
  induction 1 as [|v l Hv _ IH]; [done|].
  cbn [omap list_omap]. rewrite IH. unfold keep_truthy.
  destruct v as [s|]; [|done].
  assert (Js.truthy (Some s) = true) as ->; [|done].
  apply truthy_Some. congruence.
Qed.

(** When no entry is the empty string the two formulations coincide. *)
Lemma chain_as_specified_without_empty (primary : option string)
    (configured : list string) :
  primary ≠ Some "" → "" ∉ configured →
  chain_skipping_falsy primary configured
  = chain_as_specified primary configured.
Proof.
  intros Hp Hc. unfold chain_skipping_falsy, chain_as_specified.
  rewrite omap_keep_truthy_id; [done|].
  constructor; [done|]. apply Forall_fmap, Forall_forall.
  intros s Hs. cbn. congruence.
Qed.



(** ** Result extraction *)

Lemma pushParts_spec (ps : list Part) (acc : list string) :
  pushParts ps acc = acc ++ omap fragment ps.
Proof.
  revert acc. induction ps as [|p ps IH]; intros acc; cbn [pushParts].
  - cbn. by rewrite app_nil_r.
  - cbn [omap list_omap]. unfold fragment at 1, Js.truthy.
    destruct (part_text p) as [t|]; cbn [default].
    + destruct (_ || _); cbn [andb]; [|apply IH].
      destruct (String.eqb t ""); cbn [negb]; [apply IH|].
      rewrite IH, <- app_assoc. reflexivity.
    + rewrite andb_false_r. apply IH.
Qed.

Lemma pushMessages_spec (ms : list Message) (acc : list string) :
  pushMessages (List.filter is_assistant ms) acc = acc ++ fragments ms.
Proof.
  revert acc. induction ms as [|m ms IH]; intros acc; cbn.
  - by rewrite app_nil_r.
  - destruct (is_assistant m); cbn.
    + rewrite IH, pushParts_spec, <- app_assoc. reflexivity.
    + apply IH.
Qed.

Lemma fragment_nonempty (p : Part) (t : string) :
  fragment p = Some t → t ≠ "".
Proof.
  unfold fragment. destruct (part_text p) as [t'|]; [|done].
  destruct (_ || _); cbn; [|done].
  destruct (String.eqb_spec t' ""); cbn; [done|]. by intros [= <-].
Qed.

Lemma fragments_nonempty (ms : list Message) :
  Forall (λ t, t ≠ "") (fragments ms).
Proof.
  unfold fragments. apply Forall_forall. intros t Hin.
  apply list_elem_of_In, in_flat_map in Hin as (m & _ & Hin).
  destruct (is_assistant m); [|by destruct Hin].
  apply list_elem_of_In, list_elem_of_omap in Hin as (p & _ & Hp).
  by eapply fragment_nonempty.
Qed.

Lemma filter_nonempty_id (l : list string) :
  Forall (λ t, t ≠ "") l →
  List.filter (λ t, 0 <? Js.length t) l = l.
Proof.
  induction 1 as [|t l Ht _ IH]; [done|]. cbn. rewrite IH.
  destruct t; [done|]. reflexivity.
Qed.

Lemma responseText_spec (ms : list Message) :
  responseText ms = Js.join blank_line (fragments ms).
Proof.
  unfold responseText. rewrite pushMessages_spec. cbn [app].
  by rewrite filter_nonempty_id by apply fragments_nonempty.
Qed.

Lemma extractedResult_spec (ms : list Message) :
  extractedResult ms = result_as_specified ms.
Proof.
  unfold extractedResult, result_as_specified. rewrite responseText_spec.
  unfold Js.truthy. by destruct (String.eqb _ "").
Qed.

(** ** Frame lemmas of the manager operations *)

Lemma quiet_refl (m : Manager) : quiet m m.
Proof.
  split; [done | split; [done | split; [done|]]].
  intros r t Hlook. exists t. split; [done | by left].
Qed.

Lemma status_advances_trans (s1 s2 s3 : Status) :
  status_advances s1 s2 → status_advances s2 s3 → status_advances s1 s3.
Proof. intros [-> | H12] [-> | H23]; (by left) || (by right). Qed.

Lemma quiet_trans (m1 m2 m3 : Manager) :
  quiet m1 m2 → quiet m2 m3 → quiet m1 m3.
Proof.
  intros (Hs & Ha & Hl & Hfw) (Hs' & Ha' & Hl' & Hfw').
  split; [congruence | split; [congruence | split; [congruence|]]].
  intros r t Hlook. destruct (Hfw r t Hlook) as (t2 & Hlook2 & Hadv).
  destruct (Hfw' r t2 Hlook2) as (t3 & Hlook3 & Hadv').
  exists t3. split; [done | by eapply status_advances_trans].
Qed.

(** A task found in [s] after a quiet operation was in [s] before it, for
    [s] one of ['pending'] and ['starting']. *)
Lemma quiet_backwards (s : Status) (m m' : Manager) (r : nat) :
  s = starting ∨ s = pending →
  quiet m m' →
  (∃ t', heap m' !! r = Some t' ∧ Task.status t' = s) →
  ∃ t, heap m !! r = Some t ∧ Task.status t = s.
Proof.
  intros Hs (_ & _ & Hl & Hfw) (t' & Hlook' & Hst').
  assert (is_Some (heap m !! r)) as (t & Hlook).
  { apply lookup_lt_is_Some. rewrite <- Hl. by eapply lookup_lt_Some. }
  destruct (Hfw r t Hlook) as (t2 & Hlook2 & Hadv).
  assert (t2 = t') as -> by congruence.
  exists t. split; [done|]. destruct Hadv as [Heq | [Hns Hnp]];
    [congruence|]. destruct Hs; congruence.
Qed.

Lemma quiet_starting (m m' : Manager) (r : nat) :
  quiet m m' → starting_at m' r → starting_at m r.
Proof. intros Hq. apply (quiet_backwards starting); auto. Qed.

Lemma quiet_pending (m m' : Manager) (r : nat) :
  quiet m m' → pending_at m' r → pending_at m r.
Proof. intros Hq. apply (quiet_backwards pending); auto. Qed.

(** Peel the outermost operation off [quiet m (op ... m')]. *)
Ltac quiet_peel :=
  lazymatch goal with
  | |- quiet ?m (?op ?m') => apply (quiet_trans m m' (op m'))
  end.

Ltac status_kept := intros ?; by left.
Ltac status_left := intros ?; right; cbn; split; congruence.

(** An operation that leaves heap, activations and counter alone. *)
Lemma quiet_same (m m' : Manager) :
  heap m' = heap m → starts m' = starts m →
  activeStarts m' = activeStarts m → quiet m m'.
Proof.
  intros Hh Hs Ha.
  split; [done | split; [done | split; [by rewrite Hh|]]].
  intros r t Hlook. exists t. rewrite Hh. split; [done | by left].
Qed.

Lemma updTask_quiet (f : BackgroundTask → BackgroundTask) (r : nat)
    (m : Manager) :
  (∀ t, status_advances (Task.status t) (Task.status (f t))) →
  quiet m (updTask f r m).
Proof.
  intros Hf. split; [done | split; [done | split]].
  - cbn. apply length_alter.
  - intros r' t Hlook. cbn. rewrite list_lookup_alter.
    case_decide as Heq.
    + subst r'. rewrite Hlook. cbn. eauto.
    + exists t. split; [done | by left].
Qed.

Lemma heap_resolvePromise (p : nat) (v : option nat) (m : Manager) :
  heap (resolvePromise p v m) = heap m
  ∧ starts (resolvePromise p v m) = starts m
  ∧ activeStarts (resolvePromise p v m) = activeStarts m
  ∧ startQueue (resolvePromise p v m) = startQueue m
  ∧ tasks (resolvePromise p v m) = tasks m
  ∧ completionResolvers (resolvePromise p v m) = completionResolvers m.
Proof. unfold resolvePromise. by destruct (promises m !! p) as [[]|]. Qed.

Lemma terminalFields_status (st : Status) (msg : string) (now : nat)
    (t : BackgroundTask) :
  Task.status (terminalFields st msg now t) = st
  ∧ Task.id (terminalFields st msg now t) = Task.id t
  ∧ Task.sessionId (terminalFields st msg now t) = Task.sessionId t.
Proof. unfold terminalFields. cbv zeta. by case_bool_decide. Qed.

Lemma markTerminal_quiet (r : nat) (st : Status) (msg : string)
    (m : Manager) :
  st ≠ starting → st ≠ pending → quiet m (markTerminal r st msg m).
Proof.
  intros Hst Hpe. apply updTask_quiet. intros t. right.
  by rewrite (proj1 (terminalFields_status _ _ _ _)).
Qed.

Lemma untrackSession_quiet (r : nat) (m : Manager) :
  quiet m (untrackSession r m).
Proof. unfold untrackSession. destruct (Js.truthy _); by apply quiet_same. Qed.

Lemma abortSession_quiet (r : nat) (m : Manager) :
  quiet m (abortSession r m).
Proof. unfold abortSession. destruct (Js.truthy _); by apply quiet_same. Qed.

Lemma notifyParent_quiet (r : nat) (m : Manager) :
  quiet m (notifyParent r m).
Proof. unfold notifyParent. destruct (Js.truthy _); by apply quiet_same. Qed.

Lemma resolveWaiter_quiet (taskId : string) (r : nat) (m : Manager) :
  quiet m (resolveWaiter taskId r m).
Proof.
  unfold resolveWaiter. destruct (completionResolvers m !! taskId) as [p|];
    [|apply quiet_refl].
  destruct (heap_resolvePromise p (Some r) m) as (Hh & Hs & Ha & _).
  by apply quiet_same.
Qed.

Lemma completeTask_quiet (r : nat) (st : Status) (msg : string)
    (m : Manager) :
  st ≠ starting → st ≠ pending → quiet m (completeTask r st msg m).
Proof.
  intros Hst Hpe. unfold completeTask.
  destruct (_ || _); [apply quiet_refl|]. cbv zeta.
  quiet_peel; [|apply resolveWaiter_quiet].
  quiet_peel; [|apply notifyParent_quiet].
  quiet_peel; [|apply abortSession_quiet].
  quiet_peel; [|apply untrackSession_quiet].
  by apply markTerminal_quiet.
Qed.

Lemma cancelTask_quiet (taskId : string) (r : nat) (m : Manager) :
  quiet m (cancelTask taskId r m).
Proof.
  unfold cancelTask. cbv zeta.
  quiet_peel; [|by apply completeTask_quiet].
  assert (quiet m (updTask (Task.with_status cancelled) r
                     (with_completionResolvers
                        (delete taskId (completionResolvers m)) m))) as H1.
  { quiet_peel; [by apply quiet_same|].
    apply updTask_quiet. status_left. }
  destruct (bool_decide _); [|exact H1].
  quiet_peel; [exact H1 | by apply quiet_same].
Qed.

Lemma cancelAll_quiet (rs : list nat) (count : Z) (m : Manager) :
  quiet m (cancelAll rs count m).2.
Proof.
  revert count m. induction rs as [|r rs IH]; intros count m; cbn.
  - apply quiet_refl.
  - destruct (isActive _); [|apply IH].
    eapply quiet_trans; [|apply IH]. apply cancelTask_quiet.
Qed.

Lemma cancel_quiet (taskId : option string) (m : Manager) :
  quiet m (cancel taskId m).2.
Proof.
  unfold cancel. destruct (Js.truthy taskId); [|apply cancelAll_quiet].
  destruct (TaskMap.get _ _) as [r|]; [|apply quiet_refl].
  destruct (isActive _); [apply cancelTask_quiet | apply quiet_refl].
Qed.

Lemma extractAndCompleteTask_quiet (r : nat) (m : Manager) :
  quiet m (extractAndCompleteTask r m).
Proof.
  unfold extractAndCompleteTask. destruct (negb _); by apply quiet_same.
Qed.

Lemma handleSessionStatus_quiet (e : StatusEvent) (m : Manager) :
  quiet m (handleSessionStatus e m).
Proof.
  unfold handleSessionStatus.
  destruct (negb (String.eqb _ _)); [apply quiet_refl|].
  destruct (negb (Js.truthy (se_sessionID e))); [apply quiet_refl|].
  cbv zeta.
  destruct (negb (Js.truthy _)); [apply quiet_refl|].
  destruct (TaskMap.get _ _) as [r|]; [|apply quiet_refl].
  destruct (negb (bool_decide _)); [apply quiet_refl|].
  destruct (bool_decide _);
    [apply extractAndCompleteTask_quiet | apply quiet_refl].
Qed.

Lemma handleSessionDeleted_quiet (e : DeletedEvent) (m : Manager) :
  quiet m (handleSessionDeleted e m).
Proof.
  unfold handleSessionDeleted.
  destruct (negb (String.eqb _ _)); [apply quiet_refl|]. cbv zeta.
  destruct (negb (Js.truthy _)); [apply quiet_refl|].
  destruct (negb (Js.truthy _)); [apply quiet_refl|].
  destruct (TaskMap.get _ _) as [r|]; [|apply quiet_refl].
  destruct (_ || _); [|apply quiet_refl].
  quiet_peel; [|apply resolveWaiter_quiet].
  quiet_peel; [|by apply quiet_same].
  quiet_peel; [|by apply quiet_same].
  quiet_peel; [|apply updTask_quiet; status_kept].
  quiet_peel; [|apply updTask_quiet; status_kept].
  apply updTask_quiet. status_left.
Qed.

Lemma waitForCompletion_quiet (taskId : string) (timeout : Z)
    (m : Manager) :
  quiet m (waitForCompletion taskId timeout m).2.
Proof.
  unfold waitForCompletion. cbv zeta.
  destruct (TaskMap.get _ _) as [r|]; [|by apply quiet_same].
  destruct (isTerminal _); [by apply quiet_same|].
  destruct (0 <? timeout); by apply quiet_same.
Qed.

Lemma timerFired_quiet (p : nat) (taskId : string) (m : Manager) :
  quiet m (timerFired p taskId m).
Proof.
  unfold timerFired. cbv zeta.
  match goal with |- quiet _ (resolvePromise ?p ?v ?m') =>
    destruct (heap_resolvePromise p v m') as (Hh & Hs & Ha & _) end.
  by apply quiet_same.
Qed.

Lemma afterMessages_quiet (r : nat) (res : MessagesResult) (m : Manager) :
  quiet m (afterMessages r res m).
Proof. destruct res; by apply completeTask_quiet. Qed.

Lemma cleanup_quiet (m : Manager) : quiet m (cleanup m).
Proof. by apply quiet_same. Qed.

(** ** The concurrency governor *)

Lemma admission_inv_quiet (N : Z) (m m' : Manager) :
  admission_inv N m → quiet m m' → admission_inv N m'.
Proof.
  intros (Hlen & Hle & Hfr) Hq. pose proof Hq as (Hs & Ha & _).
  unfold admission_inv. rewrite Hs, Ha.
  split; [done | split; [done|]]. intros r Hr.
  by apply Hfr, (quiet_starting m m').
Qed.

Lemma settling_pre_quiet (N : Z) (k : nat) (m m' : Manager) :
  settling_pre N k m → quiet m m' → settling_pre N k m'.
Proof.
  intros (Hlen & Hle & Hk & Hfr) Hq. pose proof Hq as (Hs & Ha & _).
  unfold settling_pre. rewrite Hs, Ha.
  split; [done | split; [done | split; [done|]]].
  intros r Hr. by apply Hfr, (quiet_starting m m').
Qed.

(** The status read right after [task.status = 'starting'] is never
    ['cancelled']: the check of [startTask] cannot fire. *)
Lemma statusAt_after_starting (r : nat) (a : Z) (m : Manager) :
  statusAt (with_activeStarts a (updTask (Task.with_status starting) r m)) r
  ≠ cancelled.
Proof.
  unfold statusAt, taskAt, updTask. cbn. rewrite list_lookup_alter.
  case_decide; [|done]. by destruct (heap m !! r).
Qed.

Lemma startTask_unfold (directory : string) (r : nat) (m : Manager) :
  startTask directory r m
  = let m1 := with_activeStarts (activeStarts m + 1)
                (updTask (Task.with_status starting) r m) in
    with_starts (starts m ++ [{| sf_task := r; sf_phase := AwaitCreate |}])
      (call (SessionCreate (Task.parentSessionId (taskAt m1 r))
               ("Background: " +:+ Task.description (taskAt m1 r))
               directory) m1).
Proof.
  unfold startTask. cbv zeta.
  rewrite bool_decide_eq_false_2 by apply statusAt_after_starting.
  reflexivity.
Qed.


Lemma startTask_inv (N : Z) (directory : string) (r : nat) (m : Manager) :
  admission_inv N m → activeStarts m < N →
  admission_inv N (startTask directory r m).
Proof.
  intros (Hlen & Hle & Hfr) Hlt. rewrite startTask_unfold. cbv zeta.
  split; [|split].
  - cbn. rewrite length_app. cbn. lia.
  - cbn. lia.
  - intros r' Hr'. cbn.
    assert (r' = r ∨ starting_at m r') as [-> | Hold].
    { destruct Hr' as (t & Hlook & Hst). cbn in Hlook.
      rewrite list_lookup_alter in Hlook. case_decide; [by left|].
      right. by exists t. }
    + exists (List.length (starts m)). by apply list_lookup_middle.
    + destruct (Hfr r' Hold) as (k & Hk). exists k.
      by apply lookup_app_l_Some.
Qed.

Section Governor.

Variable config : option PluginConfig.
Variable directory : string.

#[local] Abbreviation N := (maxConcurrentStarts config).

Lemma processQueue_loop_inv (fuel : nat) (m : Manager) :
  admission_inv N m →
  admission_inv N (processQueue_loop config directory fuel m).
Proof.
  revert m. induction fuel as [|fuel IH]; intros m Hinv; cbn; [done|].
  destruct (activeStarts m <? N) eqn:Hlt; cbn [andb]; [|done].
  destruct (startQueue m) as [|r q'] eqn:Hq; cbn; [done|].
  apply IH, startTask_inv; [|by apply Z.ltb_lt in Hlt].
  by apply (admission_inv_quiet _ m), quiet_same.
Qed.

Lemma processQueue_inv (m : Manager) :
  admission_inv N m → admission_inv N (processQueue config directory m).
Proof. apply processQueue_loop_inv. Qed.



Lemma finallyStart_inv (k : nat) (m : Manager) :
  settling_pre N k m → admission_inv N (finallyStart config directory k m).
Proof.
  intros (Hlen & Hle & Hk & Hfr). unfold finallyStart. cbv zeta.
  apply processQueue_inv. split; [|split]; cbn.
  - rewrite length_delete by done.
    destruct Hk as (f & Hk). apply lookup_lt_Some in Hk. lia.
  - lia.
  - intros r Hr. destruct (Hfr r Hr) as (j & Hne & Hj).
    destruct (decide (j < k)%nat) as [Hlt | Hge].
    + exists j. by rewrite list_lookup_delete_lt.
    + exists (j - 1)%nat. rewrite list_lookup_delete_ge by lia.
      by replace (S (j - 1)) with j by lia.
Qed.

End Governor.

(** ** The start sequence *)

Lemma attemptLoop_same (directory : string) (r : nat) (sid : string)
    (models : list (option string)) (errors : list string) (m : Manager) :
  let m' := completion_manager (attemptLoop directory r sid models errors m) in
  heap m' = heap m ∧ starts m' = starts m ∧ activeStarts m' = activeStarts m.
Proof.
  cbv zeta. revert errors.
  induction models as [|model rest IH]; intros errors; cbn [attemptLoop].
  - done.
  - destruct (Js.truthy model); [|done].
    destruct (parseModelReference _); [done | apply IH].
Qed.

Lemma not_starting_after (st : Status) (r : nat) (m : Manager) :
  st ≠ starting → ¬ starting_at (updTask (Task.with_status st) r m) r.
Proof.
  intros Hst (t & Hlook & Hstatus). cbn in Hlook.
  rewrite list_lookup_alter in Hlook. case_decide; [|done].
  destruct (heap m !! r) as [t0|]; [|done]. cbn in Hlook.
  injection Hlook as <-. cbn in Hstatus. congruence.
Qed.

Lemma not_starting_same_heap (m m' : Manager) (r : nat) :
  heap m' = heap m → ¬ starting_at m r → ¬ starting_at m' r.
Proof. unfold starting_at. by intros ->. Qed.

Lemma markTerminal_not_starting (r : nat) (st : Status) (msg : string)
    (m : Manager) :
  st ≠ starting → ¬ starting_at (markTerminal r st msg m) r.
Proof.
  intros Hst (t & Hlook & Hstatus). unfold markTerminal, updTask in Hlook.
  cbn in Hlook. rewrite list_lookup_alter in Hlook. case_decide; [|done].
  destruct (heap m !! r) as [t0|]; [|done]. cbn in Hlook.
  injection Hlook as <-.
  rewrite (proj1 (terminalFields_status _ _ _ _)) in Hstatus. congruence.
Qed.

Lemma heap_after_markTerminal (r : nat) (m : Manager) :
  let m4 := notifyParent r (abortSession r (untrackSession r m)) in
  heap (resolveWaiter (Task.id (taskAt m4 r)) r m4) = heap m.
Proof.
  cbv zeta. unfold resolveWaiter, notifyParent, abortSession, untrackSession.
  repeat match goal with
         | |- context [completionResolvers ?x !! ?k] =>
             destruct (completionResolvers x !! k)
         | |- context [Js.truthy ?x] => destruct (Js.truthy x)
         end; cbn;
    rewrite ?(proj1 (heap_resolvePromise _ _ _)); reflexivity.
Qed.

Lemma completeTask_not_starting (r : nat) (st : Status) (msg : string)
    (m : Manager) :
  st ≠ starting → ¬ starting_at (completeTask r st msg m) r.
Proof.
  intros Hst. unfold completeTask.
  destruct (_ || _) eqn:Hguard.
  - intros (t & Hlook & Hstatus). unfold statusAt, taskAt in Hguard.
    rewrite Hlook in Hguard. cbn in Hguard. rewrite Hstatus in Hguard.
    done.
  - cbv zeta. eapply not_starting_same_heap;
      [apply heap_after_markTerminal
      |by apply (markTerminal_not_starting r st msg m)].
Qed.

Lemma afterCreate_quiet (tmuxEnabled : bool) (config : option PluginConfig)
    (directory : string) (r : nat) (res : CreateResult) (m : Manager) :
  let c := afterCreate config tmuxEnabled directory r res m in
  quiet m (completion_manager c)
  ∧ (is_throw c = false → ¬ starting_at (completion_manager c) r).
Proof.
  cbv zeta. unfold afterCreate. destruct res as [id | msg];
    [|split; [apply quiet_refl | done]].
  destruct (negb (Js.truthy id)); [split; [apply quiet_refl | done]|].
  cbv zeta.
  set (m1 := updTask (Task.with_sessionId (Some (default "" id))) r m).
  set (m2 := with_tasksBySessionId _ m1).
  set (m3 := with_agentBySessionId _ m2).
  set (m4 := updTask (Task.with_status running) r m3).
  assert (quiet m m4) as Hq.
  { apply (quiet_trans m m3); [|apply updTask_quiet; status_left].
    apply (quiet_trans m m1); [apply updTask_quiet; status_kept|].
    by apply quiet_same. }
  assert (¬ starting_at m4 r) as Hns by by apply not_starting_after.
  destruct tmuxEnabled; [by split|].
  unfold sendPrompt.
  match goal with |- context [attemptLoop ?d ?r ?s ?ms ?es ?m] =>
    destruct (attemptLoop_same d r s ms es m) as (Hh & Hs & Ha) end.
  split.
  - apply (quiet_trans m m4); [done | by apply quiet_same].
  - intros _. by eapply not_starting_same_heap.
Qed.

Lemma settling_pre_intro (N : Z) (k r : nat) (ph : StartPhase)
    (m0 m1 : Manager) :
  admission_inv N m0 →
  starts m0 !! k = Some {| sf_task := r; sf_phase := ph |} →
  quiet m0 m1 →
  (ph = AwaitCreate → ¬ starting_at m1 r) →
  settling_pre N k m1.
Proof.
  intros (Hlen & Hle & Hfr) Hk Hq Hns. pose proof Hq as (Hs & Ha & _).
  unfold settling_pre. rewrite Hs, Ha.
  split; [done | split; [done | split; [by eexists|]]].
  intros r' Hr'.
  destruct (Hfr r' (quiet_starting m0 m1 r' Hq Hr')) as (j & Hj).
  exists j. split; [|done]. intros ->. rewrite Hk in Hj.
  injection Hj as -> ->. by apply Hns.
Qed.

Section StartSequence.

Variable config : option PluginConfig.
Variable tmuxEnabled : bool.
Variable directory : string.

#[local] Abbreviation N := (maxConcurrentStarts config).

Lemma settle_inv (k r : nat) (ph : StartPhase) (c : Completion)
    (m0 : Manager) :
  admission_inv N m0 →
  starts m0 !! k = Some {| sf_task := r; sf_phase := ph |} →
  quiet m0 (completion_manager c) →
  (ph = AwaitCreate → is_throw c = false →
   ¬ starting_at (completion_manager c) r) →
  admission_inv N (settle config directory k r c).
Proof.
  intros Hinv Hk Hq Hns. destruct c as [m ph' | m | m msg]; cbn in *.
  - destruct (settling_pre_intro N k r ph m0 m Hinv Hk Hq)
      as (Hlen & Hle & _ & Hfr); [auto|].
    split; [|split]; cbn.
    + by rewrite length_insert.
    + done.
    + intros r' Hr'. destruct (Hfr r' Hr') as (j & Hne & Hj).
      exists j. by rewrite list_lookup_insert_ne.
  - apply finallyStart_inv.
    apply (settling_pre_intro N k r ph m0 m); auto.
  - apply finallyStart_inv.
    apply (settling_pre_intro N k r ph m0); [done | done | |].
    + apply (quiet_trans _ m); [done | by apply completeTask_quiet].
    + intros _. by apply completeTask_not_starting.
Qed.

Lemma launch_inv (opts : LaunchOptions) (rnd : string) (m : Manager) :
  admission_inv N m →
  admission_inv N (launch config directory opts rnd m).2.
Proof.
  intros Hinv. unfold launch, enqueueStart. cbv zeta. cbn [snd].
  apply processQueue_inv. destruct Hinv as (Hlen & Hle & Hfr).
  split; [done | split; [done|]]. intros r (t & Hlook & Hst).
  cbn in Hlook. apply lookup_app_Some in Hlook as [Hold | [_ Hnew]].
  - apply Hfr. by exists t.
  - apply list_lookup_singleton_Some in Hnew as [_ <-]. done.
Qed.

Lemma step_inv (m m' : Manager) (e : Event) :
  admission_inv N m →
  step config tmuxEnabled directory m e = Some m' →
  admission_inv N m'.
Proof.
  intros Hinv Hstep. destruct e; cbn in Hstep.
  - injection Hstep as <-. by apply launch_inv.
  - injection Hstep as <-. eapply admission_inv_quiet, cancel_quiet. done.
  - injection Hstep as <-.
    eapply admission_inv_quiet, handleSessionStatus_quiet. done.
  - injection Hstep as <-.
    eapply admission_inv_quiet, handleSessionDeleted_quiet. done.
  - injection Hstep as <-.
    eapply admission_inv_quiet, waitForCompletion_quiet. done.
  - injection Hstep as <-. eapply admission_inv_quiet, cleanup_quiet. done.
  - destruct (starts m !! k) as [[r ph]|] eqn:Hk; [|done].
    destruct ph; try done. injection Hstep as <-.
    destruct (afterCreate_quiet tmuxEnabled config directory r res m)
      as [Hq Hns].
    eapply settle_inv; eauto.
  - destruct (starts m !! k) as [[r ph]|] eqn:Hk; [|done].
    destruct ph as [|sid|]; try done. injection Hstep as <-.
    eapply settle_inv; [done | exact Hk | | done].
    unfold sendPrompt.
    match goal with |- context [attemptLoop ?d ?r ?s ?ms ?es ?m] =>
      destruct (attemptLoop_same d r s ms es m) as (Hh & Hs & Ha) end.
    by apply quiet_same.
  - destruct (starts m !! k) as [[r ph]|] eqn:Hk; [|done].
    destruct ph as [| |sid model rest errors]; try done.
    destruct (raceCanEndWith config res); [|done]. injection Hstep as <-.
    eapply settle_inv; [done | exact Hk | | done].
    destruct res; cbn [afterPrompt]; [apply quiet_refl | |];
      match goal with |- context [attemptLoop ?d ?r ?s ?ms ?es ?m] =>
        destruct (attemptLoop_same d r s ms es m) as (Hh & Hs & Ha) end;
      by apply quiet_same.
  - destruct (extractions m !! k) as [r|]; [|done]. injection Hstep as <-.
    eapply admission_inv_quiet; [exact Hinv|].
    eapply quiet_trans; [|apply afterMessages_quiet]. by apply quiet_same.
  - destruct (timers m !! k) as [[p taskId]|]; [|done].
    injection Hstep as <-.
    eapply admission_inv_quiet; [exact Hinv|].
    eapply quiet_trans; [|apply timerFired_quiet]. by apply quiet_same.
  - injection Hstep as <-. eapply admission_inv_quiet; [exact Hinv|].
    by apply quiet_same.
Qed.

Lemma reachable_inv (m : Manager) :
  reachable config tmuxEnabled directory m → admission_inv N m.
Proof.
  induction 1 as [|m e m' _ IH Hstep].
  - split; [done | split; [cbn; lia|]]. by intros r (t & Hlook & _).
  - by eapply step_inv.
Qed.

Lemma run_reachable (es : list Event) (m m' : Manager) :
  reachable config tmuxEnabled directory m →
  run config tmuxEnabled directory m es = Some m' →
  reachable config tmuxEnabled directory m'.
Proof.
  revert m. induction es as [|e es IH]; intros m Hm Hrun; cbn in Hrun.
  - by injection Hrun as <-.
  - destruct (step config tmuxEnabled directory m e) as [m1|] eqn:Hstep;
      [|done].
    eapply IH; [|exact Hrun]. by eapply reachable_step.
Qed.

End StartSequence.

(** ** Counting the tasks in ['starting'] status *)

(** The positions of the elements kept by a filter. *)
Lemma filter_positions {A : Type} (P : A → bool) (l : list A) :
  ∃ idx : list nat,
    NoDup idx
    ∧ List.length idx = List.length (List.filter P l)
    ∧ ∀ i, i ∈ idx → ∃ x, l !! i = Some x ∧ P x = true.
Proof.
  induction l as [|a l (idx & Hnd & Hlen & Hidx)].
  - exists []. split; [constructor | split; [done|]].
    intros i Hi. by apply elem_of_nil in Hi.
  - assert (NoDup (S <$> idx)) as HndS
        by (apply NoDup_fmap; [intros ?? [=] |]; done).
    assert (∀ i, i ∈ S <$> idx → ∃ x, (a :: l) !! i = Some x ∧ P x = true)
      as HidxS.
    { intros i Hi. apply list_elem_of_fmap in Hi as (j & -> & Hj).
      by apply Hidx. }
    cbn [List.filter]. destruct (P a) eqn:HPa.
    + exists (0%nat :: (S <$> idx)). split; [|split].
      * constructor; [|done]. intros Hin.
        by apply list_elem_of_fmap in Hin as (j & ? & _).
      * cbn. by rewrite length_fmap, Hlen.
      * intros i Hi. apply elem_of_cons in Hi as [-> | Hi]; [|by apply HidxS].
        exists a. by split.
    + exists (S <$> idx). split; [done | split; [|done]].
      by rewrite length_fmap.
Qed.

(** Distinct tasks that all wait for a session need as many suspended
    activations. *)
Lemma distinct_starting_le_starts (m : Manager) (rs : list nat) :
  (∀ r, starting_at m r →
        ∃ k, starts m !! k = Some {| sf_task := r; sf_phase := AwaitCreate |}) →
  NoDup rs → (∀ r, r ∈ rs → starting_at m r) →
  (List.length rs ≤ List.length (starts m))%nat.
Proof.
  intros Hfr Hnd Hall.
  rewrite <- (length_fmap sf_task (starts m)).
  apply submseteq_length, NoDup_submseteq; [done|].
  intros r Hr. destruct (Hfr r (Hall r Hr)) as (k & Hk).
  apply list_elem_of_fmap. eexists. split; [|by eapply list_elem_of_lookup_2].
  done.
Qed.

Lemma count_starting_le_starts (m : Manager) :
  (∀ r, starting_at m r →
        ∃ k, starts m !! k = Some {| sf_task := r; sf_phase := AwaitCreate |}) →
  (count_starting m ≤ List.length (starts m))%nat.
Proof.
  intros Hfr. unfold count_starting.
  destruct (filter_positions
              (λ t, bool_decide (Task.status t = starting)) (heap m))
    as (idx & Hnd & <- & Hidx).
  apply distinct_starting_le_starts; [done | done |].
  intros r Hr. destruct (Hidx r Hr) as (t & Hlook & HP).
  exists t. split; [done|]. by apply bool_decide_eq_true in HP.
Qed.

(** ** Admission in launch order *)

Lemma keeps_admitted_refl (m : Manager) : keeps_admitted m m.
Proof. by intros r. Qed.

Lemma keeps_admitted_trans (m1 m2 m3 : Manager) :
  keeps_admitted m1 m2 → keeps_admitted m2 m3 → keeps_admitted m1 m3.
Proof. intros H12 H23 r Hr. by apply H23, H12. Qed.

Lemma quiet_keeps_admitted (m m' : Manager) :
  quiet m m' → keeps_admitted m m'.
Proof.
  intros (_ & _ & _ & Hfw) r (t & Hlook & Hst).
  destruct (Hfw r t Hlook) as (t' & Hlook' & Hadv).
  exists t'. split; [done|]. destruct Hadv as [-> | [_ Hnp]]; done.
Qed.

Lemma same_heap_keeps_admitted (m m' : Manager) :
  heap m' = heap m → keeps_admitted m m'.
Proof. intros Hh r. unfold admitted_at. by rewrite Hh. Qed.

Lemma startTask_keeps_admitted (directory : string) (r : nat)
    (m : Manager) :
  keeps_admitted m (startTask directory r m).
Proof.
  rewrite startTask_unfold. cbv zeta. intros r' (t & Hlook & Hst).
  unfold admitted_at. cbn. rewrite list_lookup_alter. case_decide.
  - subst r'. rewrite Hlook. cbn. eauto.
  - eauto.
Qed.

Section AdmissionOrder.

Variable config : option PluginConfig.
Variable tmuxEnabled : bool.
Variable directory : string.

#[local] Abbreviation N := (maxConcurrentStarts config).

Lemma processQueue_loop_keeps_admitted (fuel : nat) (m : Manager) :
  keeps_admitted m (processQueue_loop config directory fuel m).
Proof.
  revert m. induction fuel as [|fuel IH]; intros m; cbn;
    [apply keeps_admitted_refl|].
  destruct (_ && _); [|apply keeps_admitted_refl].
  destruct (startQueue m) as [|r q']; [apply keeps_admitted_refl|].
  eapply keeps_admitted_trans; [|apply IH].
  eapply keeps_admitted_trans; [|apply startTask_keeps_admitted].
  by apply same_heap_keeps_admitted.
Qed.

Lemma finallyStart_keeps_admitted (k : nat) (m : Manager) :
  keeps_admitted m (finallyStart config directory k m).
Proof.
  unfold finallyStart. cbv zeta.
  eapply keeps_admitted_trans; [|apply processQueue_loop_keeps_admitted].
  by apply same_heap_keeps_admitted.
Qed.

Lemma settle_keeps_admitted (k r : nat) (c : Completion) (m0 : Manager) :
  quiet m0 (completion_manager c) →
  keeps_admitted m0 (settle config directory k r c).
Proof.
  intros Hq%quiet_keeps_admitted. destruct c as [m ph | m | m msg]; cbn in *.
  - eapply keeps_admitted_trans; [exact Hq|].
    by apply same_heap_keeps_admitted.
  - eapply keeps_admitted_trans; [exact Hq|].
    apply finallyStart_keeps_admitted.
  - eapply keeps_admitted_trans; [exact Hq|].
    eapply keeps_admitted_trans; [|apply finallyStart_keeps_admitted].
    by apply quiet_keeps_admitted, completeTask_quiet.
Qed.

Lemma launch_keeps_admitted (opts : LaunchOptions) (rnd : string)
    (m : Manager) :
  keeps_admitted m (launch config directory opts rnd m).2.
Proof.
  unfold launch, enqueueStart. cbv zeta. cbn [snd].
  eapply keeps_admitted_trans; [|apply processQueue_loop_keeps_admitted].
  intros r (t & Hlook & Hst). exists t. split; [|done]. cbn.
  by apply lookup_app_l_Some.
Qed.

Lemma step_keeps_admitted (m m' : Manager) (e : Event) :
  step config tmuxEnabled directory m e = Some m' → keeps_admitted m m'.
Proof.
  intros Hstep. destruct e; cbn in Hstep.
  - injection Hstep as <-. apply launch_keeps_admitted.
  - injection Hstep as <-. apply quiet_keeps_admitted, cancel_quiet.
  - injection Hstep as <-.
    apply quiet_keeps_admitted, handleSessionStatus_quiet.
  - injection Hstep as <-.
    apply quiet_keeps_admitted, handleSessionDeleted_quiet.
  - injection Hstep as <-.
    apply quiet_keeps_admitted, waitForCompletion_quiet.
  - injection Hstep as <-. apply quiet_keeps_admitted, cleanup_quiet.
  - destruct (starts m !! k) as [[r ph]|] eqn:Hk; [|done].
    destruct ph; try done. injection Hstep as <-.
    apply settle_keeps_admitted, afterCreate_quiet.
  - destruct (starts m !! k) as [[r ph]|] eqn:Hk; [|done].
    destruct ph as [|sid|]; try done. injection Hstep as <-.
    apply settle_keeps_admitted. unfold sendPrompt.
    match goal with |- context [attemptLoop ?d ?r ?s ?ms ?es ?m] =>
      destruct (attemptLoop_same d r s ms es m) as (Hh & Hs & Ha) end.
    by apply quiet_same.
  - destruct (starts m !! k) as [[r ph]|] eqn:Hk; [|done].
    destruct ph as [| |sid model rest errors]; try done.
    destruct (raceCanEndWith config res); [|done]. injection Hstep as <-.
    apply settle_keeps_admitted.
    destruct res; cbn [afterPrompt]; [apply quiet_refl | |];
      match goal with |- context [attemptLoop ?d ?r ?s ?ms ?es ?m] =>
        destruct (attemptLoop_same d r s ms es m) as (Hh & Hs & Ha) end;
      by apply quiet_same.
  - destruct (extractions m !! k) as [r|]; [|done]. injection Hstep as <-.
    apply quiet_keeps_admitted.
    eapply quiet_trans; [|apply afterMessages_quiet]. by apply quiet_same.
  - destruct (timers m !! k) as [[p taskId]|]; [|done].
    injection Hstep as <-. apply quiet_keeps_admitted.
    eapply quiet_trans; [|apply timerFired_quiet]. by apply quiet_same.
  - injection Hstep as <-. by apply same_heap_keeps_admitted.
Qed.

Lemma run_keeps_admitted (es : list Event) (m m' : Manager) :
  run config tmuxEnabled directory m es = Some m' → keeps_admitted m m'.
Proof.
  revert m. induction es as [|e es IH]; intros m Hrun; cbn in Hrun.
  - injection Hrun as <-. apply keeps_admitted_refl.
  - destruct (step config tmuxEnabled directory m e) as [m1|] eqn:Hstep;
      [|done].
    eapply keeps_admitted_trans; [by eapply step_keeps_admitted | by apply IH].
Qed.

Lemma run_app (es1 es2 : list Event) (m : Manager) :
  run config tmuxEnabled directory m (es1 ++ es2)
  = run config tmuxEnabled directory m es1
      ≫= λ m1, run config tmuxEnabled directory m1 es2.
Proof.
  revert m. induction es1 as [|e es1 IH]; intros m; cbn; [done|].
  destruct (step config tmuxEnabled directory m e); [apply IH | done].
Qed.

(** A launch into a manager with spare capacity and an empty queue starts
    the new task at once. *)
Lemma launch_burst (k : nat) (opts : LaunchOptions) (rnd : string)
    (m : Manager) :
  burst_started k m → Z.of_nat k < N →
  burst_started (S k) (launch config directory opts rnd m).2.
Proof.
  intros (Hlen & Hall & Hact & Hq) Hlt.
  unfold launch, enqueueStart, processQueue. cbv zeta. cbn [snd].
  cbn [startQueue with_startQueue with_tasks with_heap]. rewrite Hq.
  cbn [app List.length processQueue_loop].
  cbn [activeStarts startQueue with_startQueue with_tasks with_heap].
  rewrite Hact. rewrite (proj2 (Z.ltb_lt _ _) Hlt). cbn [andb Nat.ltb Nat.leb].
  rewrite startTask_unfold. cbv zeta.
  split; [|split; [|split]].
  - cbn. rewrite length_alter, length_app. cbn. lia.
  - intros r Hr. unfold starting_at. cbn. rewrite Hlen, list_lookup_alter.
    case_decide as Heq.
    + subst r. rewrite list_lookup_middle by done. cbn. eauto.
    + destruct (Hall r) as (t & Hlook & Hst); [lia|].
      exists t. split; [|done]. by apply lookup_app_l_Some.
  - cbn. lia.
  - reflexivity.
Qed.

Lemma launches_burst (ls : list (LaunchOptions * string)) (k : nat)
    (m : Manager) :
  burst_started k m → Z.of_nat (k + List.length ls) ≤ N →
  ∃ m', run config tmuxEnabled directory m (launches ls) = Some m'
        ∧ burst_started (k + List.length ls) m'.
Proof.
  revert k m. induction ls as [|[opts rnd] ls IH]; intros k m Hb Hle.
  - exists m. split; [done|]. by rewrite Nat.add_0_r.
  - cbn [launches fmap list_fmap run step fst snd].
    cbn [List.length] in Hle.
    destruct (IH (S k) (launch config directory opts rnd m).2) as (m' & Hrun & Hb').
    + apply launch_burst; [done | lia].
    + lia.
    + exists m'. split; [exact Hrun|].
      cbn [List.length]. by replace (k + S (List.length ls))%nat
        with (S k + List.length ls)%nat by lia.
Qed.

(** Among tasks that were all admitted, if not all are ['starting'] then
    one of them has left ['starting']. *)
Lemma some_task_left_starting (m : Manager) (n : nat) :
  (∀ i, (i < n)%nat → admitted_at m i) →
  ¬ (∀ i, (i < n)%nat → starting_at m i) →
  ∃ i t, (i < n)%nat ∧ heap m !! i = Some t
         ∧ Task.status t ≠ pending ∧ Task.status t ≠ starting.
Proof.
  induction n as [|n IH]; intros Hadm Hnot.
  - destruct Hnot. intros i Hi. lia.
  - destruct (Hadm n) as (t & Hlook & Hnp); [lia|].
    destruct (decide (Task.status t = starting)) as [Hst | Hst].
    + destruct IH as (i & t' & Hi & H').
      * intros i Hi. apply Hadm. lia.
      * intros Hall. apply Hnot. intros i Hi.
        destruct (decide (i = n)) as [-> | Hne]; [by exists t|].
        apply Hall. lia.
      * exists i, t'. split; [lia | done].
    + exists n, t. split; [lia | done].
Qed.

(** After [N] launches into the idle manager, whatever happens next: when
    the next task launched is found ['starting'], one of the first [N] has
    left ['starting']. *)
Lemma next_task_starts_after_one_left
    (ls : list (LaunchOptions * string)) (es : list Event) (m : Manager) :
  Z.of_nat (List.length ls) = N →
  run config tmuxEnabled directory (init) (launches ls ++ es) = Some m →
  starting_at m (List.length ls) →
  ∃ i t, (i < List.length ls)%nat ∧ heap m !! i = Some t
         ∧ Task.status t ≠ pending ∧ Task.status t ≠ starting.
Proof.
  intros HN Hrun Hnext.
  destruct (launches_burst ls 0 init) as (m1 & Hrun1 & Hb).
  { split; [done | split; [|done]]. intros r Hr. lia. }
  { cbn. lia. }
  cbn [Nat.add] in Hb. destruct Hb as (Hlen & Hall & _).
  rewrite run_app, Hrun1 in Hrun. cbn in Hrun.
  assert (reachable config tmuxEnabled directory m) as Hreach.
  { eapply run_reachable; [|exact Hrun].
    eapply run_reachable; [constructor | exact Hrun1]. }
  apply reachable_inv in Hreach as (_ & _ & Hfr).
  apply some_task_left_starting.
  - intros i Hi. eapply run_keeps_admitted; [exact Hrun|].
    destruct (Hall i Hi) as (t & Hlook & Hst). exists t.
    split; [done | congruence].
  - intros Hstill.
    pose proof (distinct_starting_le_starts m
                  (seq 0 (S (List.length ls))) Hfr (NoDup_seq _ _)) as Hle.
    rewrite length_seq in Hle.
    assert (Z.of_nat (List.length (starts m)) ≤ Z.max 0 N) as Hcap.
    { eapply run_reachable in Hrun;
        [|eapply run_reachable; [constructor | exact Hrun1]].
      apply reachable_inv in Hrun as (Hl & Ha & _). lia. }
    assert (S (List.length ls) ≤ List.length (starts m))%nat; [|lia].
    apply Hle. intros r Hr. apply elem_of_seq in Hr.
    destruct (decide (r = List.length ls)) as [-> | Hne]; [done|].
    apply Hstill. lia.
Qed.

End AdmissionOrder.

(** C5. Under ceiling [N], in every reachable state of the manager at most
    [N] task objects are in ['starting'] status (so distinct tasks that are
    all ['starting'] are at most [N]); and when [N] tasks are launched into
    the idle manager, the next task launched is found ['starting'] only in
    states where one of the first [N] has left ['starting']. *)
Theorem at_most_ceiling_tasks_starting
    (config : option PluginConfig) (tmuxEnabled : bool)
    (directory : string) :
  (∀ m : Manager,
     reachable config tmuxEnabled directory m →
     Z.of_nat (count_starting m) ≤ Z.max 0 (maxConcurrentStarts config)
     ∧ ∀ rs : list nat,
         NoDup rs → (∀ r, r ∈ rs → starting_at m r) →
         Z.of_nat (List.length rs) ≤ Z.max 0 (maxConcurrentStarts config))
  ∧ (∀ (ls : list (LaunchOptions * string)) (es : list Event)
       (m : Manager),
       Z.of_nat (List.length ls) = maxConcurrentStarts config →
       run config tmuxEnabled directory init (launches ls ++ es) = Some m →
       starting_at m (List.length ls) →
       ∃ i t, (i < List.length ls)%nat ∧ heap m !! i = Some t
              ∧ Task.status t ≠ pending ∧ Task.status t ≠ starting).
Proof.
  split.
  - intros m Hreach. apply reachable_inv in Hreach as (Hlen & Hle & Hfr).
    split.
    + pose proof (count_starting_le_starts m Hfr). lia.
    + intros rs Hnd Hall.
      pose proof (distinct_starting_le_starts m rs Hfr Hnd Hall). lia.
  - apply next_task_starts_after_one_left.
Qed.

Lemma after_two_launches_reachable :
  reachable ceiling_one false "/repo" after_two_launches.
Proof.
  apply (run_reachable ceiling_one false "/repo" two_launches init);
    [constructor|]. vm_compute. reflexivity.
Qed.

Lemma at_most_ceiling_tasks_starting_witness :
  (statusAt after_two_launches 0 = starting
   ∧ statusAt after_two_launches 1 = pending
   ∧ Z.of_nat (count_starting after_two_launches)
     ≤ Z.max 0 (maxConcurrentStarts ceiling_one))
  ∧ (statusAt after_second_admitted 1 = starting
     ∧ ∃ i t, (i < 1)%nat ∧ heap after_second_admitted !! i = Some t
              ∧ Task.status t ≠ pending ∧ Task.status t ≠ starting).
Proof.
  split.
  - split; [vm_compute; reflexivity|]. split; [vm_compute; reflexivity|].
    apply (proj1 (at_most_ceiling_tasks_starting ceiling_one false "/repo")
             after_two_launches after_two_launches_reachable).
  - split; [vm_compute; reflexivity|].
    apply (proj2 (at_most_ceiling_tasks_starting ceiling_one false "/repo")
             first_launch second_admitted after_second_admitted).
    + vm_compute. reflexivity.
    + vm_compute. reflexivity.
    + eexists. split; vm_compute; reflexivity.
Defined.

(** ** Terminal handling *)

(** The guard of [completeTask]: a completed or failed task is left alone,
    whatever the arguments. *)
Lemma completeTask_noop_when_completed_or_failed (r : nat) (st : Status)
    (msg : string) (m : Manager) :
  statusAt m r = completed ∨ statusAt m r = failed →
  completeTask r st msg m = m.
Proof.
  intros Hdone. unfold completeTask.
  destruct Hdone as [-> | ->]; reflexivity.
Qed.

(** The guard does not cover ['cancelled']: a second call overwrites a
    recorded cancellation. *)
Lemma completeTask_overwrites_cancelled (r : nat) (st : Status)
    (msg : string) (m : Manager) (t : BackgroundTask) :
  heap m !! r = Some t → Task.status t = cancelled →
  statusAt (completeTask r st msg m) r = st.
Proof.
  intros Hlook Hst.
  assert (statusAt m r = cancelled) as Hs
    by (unfold statusAt, taskAt; by rewrite Hlook).
  unfold completeTask. rewrite !bool_decide_eq_false_2 by congruence.
  cbn [orb]. cbv zeta. unfold statusAt at 1, taskAt at 1.
  rewrite heap_after_markTerminal. unfold markTerminal, updTask. cbn.
  rewrite list_lookup_alter. case_decide; [|done]. rewrite Hlook. cbn.
  apply terminalFields_status.
Qed.

(** C1 on the code: a task cancelled while its start is in flight is set
    back to ['running'] when the session creation returns, and is later
    completed with a result next to the recorded cancellation error; if
    the creation is rejected instead, the cancelled task becomes
    ['failed'] with another error; and a task cancelled by the deletion of
    its session while its history is being fetched is completed when the
    history arrives. *)
Theorem cancelled_task_is_overwritten :
  observe 0 <$> run None false "/repo" init cancel_during_start
  = Some (cancelled, None, Some "Cancelled by user")
  ∧ observe 0 <$> run None false "/repo" init then_session_created
    = Some (running, None, Some "Cancelled by user")
  ∧ observe 0 <$> run None false "/repo" init then_session_idle
    = Some (completed, Some "A", Some "Cancelled by user")
  ∧ observe 0 <$> run None false "/repo" init then_create_rejected
    = Some (failed, None, Some "boom")
  ∧ observe 0 <$> run None false "/repo" init deleted_during_extraction
    = Some (cancelled, None, Some "Session deleted")
  ∧ observe 0 <$> run None false "/repo" init then_history_arrives
    = Some (completed, Some "A", Some "Session deleted").
Proof. vm_compute. done. Qed.




(** ** Waiting for completion *)


(** C3 on the code: when the timeout elapses before the task is terminal,
    the promise of [waitForCompletion] settles with the task record (here
    still ['running']), not with [null]. *)
Theorem wait_timeout_returns_running_task :
  (λ m, (promises m !! 0%nat, statusAt m 0))
    <$> run None false "/repo" init wait_then_timeout
  = Some (Some (Some (Some 0%nat)), running).
Proof. vm_compute. reflexivity. Qed.

Lemma statusAt_lookup (m : Manager) (r : nat) (t : BackgroundTask) :
  heap m !! r = Some t → statusAt m r = Task.status t.
Proof. unfold statusAt, taskAt. by intros ->. Qed.

Lemma completeTask_task (r : nat) (st : Status) (msg : string)
    (m : Manager) (t : BackgroundTask) :
  heap m !! r = Some t →
  Task.status t ≠ completed → Task.status t ≠ failed →
  heap (completeTask r st msg m) !! r
  = Some (terminalFields st msg (clock m) t).
Proof.
  intros Hlook Hc Hf. unfold completeTask.
  rewrite (statusAt_lookup m r t Hlook).
  rewrite !bool_decide_eq_false_2 by done. cbn [orb]. cbv zeta.
  rewrite heap_after_markTerminal. unfold markTerminal, updTask. cbn.
  rewrite list_lookup_alter. case_decide; [|done]. by rewrite Hlook.
Qed.











(** ** Completion on idle *)

Lemma join_nonempty (sep : string) (l : list string) :
  Forall (λ t, t ≠ "") l → l ≠ [] → Js.join sep l ≠ "".
Proof.
  intros Hall Hne. destruct Hall as [|t l Ht _]; [done|].
  destruct t as [|a t]; [done|]. cbn. by destruct l.
Qed.

Lemma result_as_specified_cases (msgs : list Message) :
  (fragments msgs = [] → result_as_specified msgs = "(No output)")
  ∧ (fragments msgs ≠ [] →
     result_as_specified msgs = Js.join blank_line (fragments msgs)).
Proof.
  unfold result_as_specified. cbv zeta. split.
  - by intros ->.
  - intros Hne.
    pose proof (join_nonempty blank_line _ (fragments_nonempty msgs) Hne)
      as Hjoin.
    by destruct (String.eqb_spec (Js.join blank_line (fragments msgs)) "").
Qed.

(** C6. When an idle event arrives for the session of a running task and
    the message history is read, the task is completed and its stored
    result is the concatenation, in message order then part order, of the
    non-empty text and reasoning parts of the assistant messages, joined
    by blank lines, or the marker ["(No output)"] when there is none; two
    assistant messages with texts ["A"] and ["B"] give ["A\n\nB"]. *)
Theorem idle_event_stores_extracted_text
    (config : option PluginConfig) (tmuxEnabled : bool) (directory : string)
    (m : Manager) (e : StatusEvent) (sid : string) (r : nat)
    (t : BackgroundTask) (data : option (list Message)) :
  se_type e = "session.status" → se_sessionID e = Some sid → sid ≠ "" →
  se_statusType e = Some "idle" →
  tasksBySessionId m !! sid = Some (Task.id t) → Task.id t ≠ "" →
  TaskMap.get (Task.id t) (tasks m) = Some r →
  heap m !! r = Some t → Task.status t = running →
  Js.truthy (Task.sessionId t) = true →
  let msgs := default [] data in
  (∃ m',
     run config tmuxEnabled directory m
       [EvSessionStatus e;
        EvMessagesSettled (List.length (extractions m)) (MessagesData data)]
     = Some m'
     ∧ statusAt m' r = completed
     ∧ Task.result (taskAt m' r) = Some (result_as_specified msgs))
  ∧ (fragments msgs = [] → result_as_specified msgs = "(No output)")
  ∧ (fragments msgs ≠ [] →
     result_as_specified msgs = Js.join blank_line (fragments msgs))
  ∧ result_as_specified history_A_B
    = "A" +:+ Js.newline +:+ Js.newline +:+ "B".
Proof.
  intros Htype Hsid Hsidne Hidle Hidx Hidne Hget Hlook Hst Hses msgs.
  split; [|split; [apply result_as_specified_cases
                  |split; [apply result_as_specified_cases|reflexivity]]].
  apply truthy_Some in Hsidne, Hidne.
  cbn [run step]. unfold handleSessionStatus.
  rewrite Htype, String.eqb_refl, Hsid, Hsidne. cbn [negb]. cbv zeta.
  change (default "" (Some sid)) with sid. rewrite Hidx, Hidne. cbn [negb].
  change (default "" (Some (Task.id t))) with (Task.id t). rewrite Hget.
  rewrite (statusAt_lookup m r t Hlook), Hst, Hidle.
  cbn [bool_decide decide_rel negb].
  rewrite !bool_decide_eq_true_2 by done. cbn [negb].
  unfold extractAndCompleteTask. cbv zeta. unfold taskAt. rewrite Hlook.
  change (default Task.unallocated (Some t)) with t.
  rewrite Hses. cbn [negb].
  cbn [extractions with_extractions call with_outbox].
  rewrite list_lookup_middle by done.
  rewrite (delete_middle (extractions m) [] r), app_nil_r.
  eexists. split; [reflexivity|].
  unfold afterMessages. fold msgs.
  match goal with |- context [completeTask r completed ?s ?x] =>
    pose proof (completeTask_task r completed s x t) as Hdone end.
  cbn [heap with_extractions with_outbox] in Hdone.
  specialize (Hdone Hlook). rewrite Hst in Hdone.
  specialize (Hdone ltac:(done) ltac:(done)).
  unfold statusAt, taskAt. rewrite Hdone.
  rewrite <- extractedResult_spec. by split.
Qed.

Lemma idle_event_stores_extracted_text_witness :
  ∃ m',
    run None false "/repo" running_task
      [EvSessionStatus (idle_event "ses_1");
       EvMessagesSettled (List.length (extractions running_task))
         (MessagesData (Some history_A_B))]
    = Some m'
    ∧ statusAt m' 0 = completed
    ∧ Task.result (taskAt m' 0) = Some (result_as_specified history_A_B).
Proof.
  apply (idle_event_stores_extracted_text None false "/repo" running_task
           (idle_event "ses_1") "ses_1" 0 (taskAt running_task 0)
           (Some history_A_B));
    vm_compute; (reflexivity || discriminate).
Defined.

(** ** References stay allocated

    Task objects are read through [taskAt]; in every reachable state the
    references it is applied to designate objects created by [launch]. *)

Lemma refs_cases (m : Manager) (r : nat) :
  r ∈ refs m
  ↔ r ∈ startQueue m ∨ r ∈ sf_task <$> starts m ∨ r ∈ extractions m
    ∨ r ∈ TaskMap.values (tasks m).
Proof. unfold refs. by rewrite !elem_of_app. Qed.

Lemma no_new_refs_refl (m : Manager) : no_new_refs m m.
Proof. by split. Qed.

Lemma no_new_refs_trans (m1 m2 m3 : Manager) :
  no_new_refs m1 m2 → no_new_refs m2 m3 → no_new_refs m1 m3.
Proof. intros [Hl Hr] [Hl' Hr']. split; [lia | auto]. Qed.

Lemma no_new_refs_allocated (m m' : Manager) :
  refs_allocated m → no_new_refs m m' → refs_allocated m'.
Proof.
  intros Hall [Hl Hsub] r Hr. apply lookup_lt_is_Some.
  specialize (Hall r (Hsub r Hr)). apply lookup_lt_is_Some in Hall. lia.
Qed.

(** An operation that keeps the four containers and the heap size. *)
Lemma no_new_refs_same (m m' : Manager) :
  List.length (heap m') = List.length (heap m) → refs m' = refs m →
  no_new_refs m m'.
Proof. intros Hl Hr. split; [lia | by rewrite Hr]. Qed.

Ltac refs_peel :=
  lazymatch goal with
  | |- no_new_refs ?m (?op ?m') => apply (no_new_refs_trans m m' (op m'))
  end.

Lemma updTask_refs (f : BackgroundTask → BackgroundTask) (r : nat)
    (m : Manager) :
  no_new_refs m (updTask f r m).
Proof. apply no_new_refs_same; [apply length_alter | done]. Qed.

Lemma resolvePromise_refs (p : nat) (v : option nat) (m : Manager) :
  no_new_refs m (resolvePromise p v m).
Proof.
  unfold resolvePromise.
  destruct (promises m !! p) as [[]|]; by apply no_new_refs_same.
Qed.

Lemma resolveWaiter_refs (taskId : string) (r : nat) (m : Manager) :
  no_new_refs m (resolveWaiter taskId r m).
Proof.
  unfold resolveWaiter. destruct (_ !! _) as [p|]; [|apply no_new_refs_refl].
  refs_peel; [apply resolvePromise_refs | by apply no_new_refs_same].
Qed.

Lemma completeTask_refs (r : nat) (st : Status) (msg : string)
    (m : Manager) :
  no_new_refs m (completeTask r st msg m).
Proof.
  unfold completeTask. destruct (_ || _); [apply no_new_refs_refl|].
  cbv zeta. refs_peel; [|apply resolveWaiter_refs].
  refs_peel; [|unfold notifyParent; destruct (Js.truthy _);
               by apply no_new_refs_same].
  refs_peel; [|unfold abortSession; destruct (Js.truthy _);
               by apply no_new_refs_same].
  refs_peel; [|unfold untrackSession; destruct (Js.truthy _);
               by apply no_new_refs_same].
  apply updTask_refs.
Qed.

Lemma spliceFirst_subset (m : Manager) (taskId : string) (q : list nat)
    (r : nat) :
  r ∈ spliceFirst m taskId q → r ∈ q.
Proof.
  induction q as [|r0 q IH]; cbn; [done|].
  destruct (String.eqb _ _); rewrite !elem_of_cons; tauto.
Qed.

Lemma cancelTask_refs (taskId : string) (r : nat) (m : Manager) :
  no_new_refs m (cancelTask taskId r m).
Proof.
  unfold cancelTask. cbv zeta. refs_peel; [|apply completeTask_refs].
  assert (no_new_refs m
            (updTask (Task.with_status cancelled) r
               (with_completionResolvers
                  (delete taskId (completionResolvers m)) m))) as H1.
  { refs_peel; [by apply no_new_refs_same | apply updTask_refs]. }
  destruct (bool_decide _); [|exact H1].
  refs_peel; [exact H1|]. split; [done|]. intros r0.
  rewrite !refs_cases. cbn. intros [Hq | Hrest]; [|by right].
  left. by eapply spliceFirst_subset.
Qed.

Lemma cancelAll_refs (rs : list nat) (count : Z) (m : Manager) :
  no_new_refs m (cancelAll rs count m).2.
Proof.
  revert count m. induction rs as [|r rs IH]; intros count m; cbn.
  - apply no_new_refs_refl.
  - destruct (isActive _); [|apply IH].
    eapply no_new_refs_trans; [|apply IH]. apply cancelTask_refs.
Qed.

Lemma cancel_refs (taskId : option string) (m : Manager) :
  no_new_refs m (cancel taskId m).2.
Proof.
  unfold cancel. destruct (Js.truthy taskId); [|apply cancelAll_refs].
  destruct (TaskMap.get _ _) as [r|]; [|apply no_new_refs_refl].
  destruct (isActive _); [apply cancelTask_refs | apply no_new_refs_refl].
Qed.

Lemma TaskMap_get_values (k : string) (l : list (string * nat)) (r : nat) :
  TaskMap.get k l = Some r → r ∈ TaskMap.values l.
Proof.
  unfold TaskMap.values. induction l as [|[k' v] l IH]; cbn; [done|].
  destruct (String.eqb k k').
  - intros [= ->]. apply elem_of_cons. by left.
  - intros H. apply elem_of_cons. right. by apply IH.
Qed.

Lemma extractAndCompleteTask_refs (r : nat) (m : Manager) :
  r ∈ refs m → no_new_refs m (extractAndCompleteTask r m).
Proof.
  intros Hr. unfold extractAndCompleteTask.
  destruct (negb _); [apply no_new_refs_refl|]. cbv zeta.
  split; [done|]. intros r0. rewrite !refs_cases. cbn.
  rewrite elem_of_app, list_elem_of_singleton.
  intros [H | [H | [[H | ->] | H]]]; try tauto. by apply refs_cases.
Qed.

Lemma handleSessionStatus_refs (e : StatusEvent) (m : Manager) :
  no_new_refs m (handleSessionStatus e m).
Proof.
  unfold handleSessionStatus.
  destruct (negb (String.eqb _ _)); [apply no_new_refs_refl|].
  destruct (negb (Js.truthy (se_sessionID e))); [apply no_new_refs_refl|].
  cbv zeta.
  destruct (negb (Js.truthy _)); [apply no_new_refs_refl|].
  destruct (TaskMap.get _ _) as [r|] eqn:Hget; [|apply no_new_refs_refl].
  destruct (negb (bool_decide _)); [apply no_new_refs_refl|].
  destruct (bool_decide _); [|apply no_new_refs_refl].
  apply extractAndCompleteTask_refs, refs_cases.
  do 3 right. by eapply TaskMap_get_values.
Qed.

Lemma handleSessionDeleted_refs (e : DeletedEvent) (m : Manager) :
  no_new_refs m (handleSessionDeleted e m).
Proof.
  unfold handleSessionDeleted.
  destruct (negb (String.eqb _ _)); [apply no_new_refs_refl|]. cbv zeta.
  destruct (negb (Js.truthy _)); [apply no_new_refs_refl|].
  destruct (negb (Js.truthy _)); [apply no_new_refs_refl|].
  destruct (TaskMap.get _ _) as [r|]; [|apply no_new_refs_refl].
  destruct (_ || _); [|apply no_new_refs_refl].
  refs_peel; [|apply resolveWaiter_refs].
  refs_peel; [|by apply no_new_refs_same].
  refs_peel; [|by apply no_new_refs_same].
  refs_peel; [|apply updTask_refs].
  refs_peel; [|apply updTask_refs].
  apply updTask_refs.
Qed.

Lemma waitForCompletion_refs (taskId : string) (timeout : Z)
    (m : Manager) :
  no_new_refs m (waitForCompletion taskId timeout m).2.
Proof.
  unfold waitForCompletion. cbv zeta.
  destruct (TaskMap.get _ _) as [r|]; [|by apply no_new_refs_same].
  destruct (isTerminal _); [by apply no_new_refs_same|].
  destruct (0 <? timeout); by apply no_new_refs_same.
Qed.

Lemma timerFired_refs (p : nat) (taskId : string) (m : Manager) :
  no_new_refs m (timerFired p taskId m).
Proof.
  unfold timerFired. cbv zeta.
  refs_peel; [by apply no_new_refs_same | apply resolvePromise_refs].
Qed.

Lemma cleanup_refs (m : Manager) : no_new_refs m (cleanup m).
Proof.
  split; [done|]. intros r. rewrite !refs_cases. cbn.
  intros [H | [H | [H | H]]]; try tauto; by apply elem_of_nil in H.
Qed.

Lemma delete_subset {A : Type} (k : nat) (l : list A) (x : A) :
  x ∈ delete k l → x ∈ l.
Proof.
  intros Hx. apply list_elem_of_lookup in Hx as (j & Hj).
  rewrite list_lookup_delete in Hj. by eapply list_elem_of_lookup_2.
Qed.

Lemma startTask_refs (directory : string) (r : nat) (q' : list nat)
    (m : Manager) :
  startQueue m = r :: q' →
  no_new_refs m (startTask directory r (with_startQueue q' m)).
Proof.
  intros Hq. rewrite startTask_unfold. cbv zeta. split.
  - cbn. by rewrite length_alter.
  - intros r0. rewrite !refs_cases. cbn. rewrite Hq, fmap_app. cbn.
    rewrite elem_of_app, !elem_of_cons, elem_of_nil. tauto.
Qed.

Lemma attemptLoop_refs (directory : string) (r : nat) (sid : string)
    (models : list (option string)) (errors : list string) (m : Manager) :
  no_new_refs m
    (completion_manager (attemptLoop directory r sid models errors m)).
Proof.
  revert errors.
  induction models as [|model rest IH]; intros errors; cbn [attemptLoop].
  - apply no_new_refs_refl.
  - destruct (Js.truthy model); [|by apply no_new_refs_same].
    destruct (parseModelReference _); [by apply no_new_refs_same | apply IH].
Qed.

Lemma afterCreate_refs (config : option PluginConfig) (tmuxEnabled : bool)
    (directory : string) (r : nat) (res : CreateResult) (m : Manager) :
  no_new_refs m
    (completion_manager (afterCreate config tmuxEnabled directory r res m)).
Proof.
  unfold afterCreate. destruct res as [id | msg]; [|apply no_new_refs_refl].
  destruct (negb (Js.truthy id)); [apply no_new_refs_refl|]. cbv zeta.
  set (m1 := updTask (Task.with_sessionId (Some (default "" id))) r m).
  set (m2 := with_tasksBySessionId _ m1).
  set (m3 := with_agentBySessionId _ m2).
  set (m4 := updTask (Task.with_status running) r m3).
  assert (no_new_refs m m4) as H4.
  { apply (no_new_refs_trans m m3); [|apply updTask_refs].
    apply (no_new_refs_trans m m1); [apply updTask_refs|].
    by apply no_new_refs_same. }
  destruct tmuxEnabled; [exact H4|].
  eapply no_new_refs_trans; [exact H4 | apply attemptLoop_refs].
Qed.

Section Allocation.

Variable config : option PluginConfig.
Variable tmuxEnabled : bool.
Variable directory : string.

Lemma processQueue_loop_refs (fuel : nat) (m : Manager) :
  no_new_refs m (processQueue_loop config directory fuel m).
Proof.
  revert m. induction fuel as [|fuel IH]; intros m; cbn;
    [apply no_new_refs_refl|].
  destruct (_ && _); [|apply no_new_refs_refl].
  destruct (startQueue m) as [|r q'] eqn:Hq; [apply no_new_refs_refl|].
  eapply no_new_refs_trans; [|apply IH]. by apply startTask_refs.
Qed.

Lemma finallyStart_refs (k : nat) (m : Manager) :
  no_new_refs m (finallyStart config directory k m).
Proof.
  unfold finallyStart. cbv zeta.
  eapply no_new_refs_trans; [|apply processQueue_loop_refs].
  split; [done|]. intros r. rewrite !refs_cases. cbn.
  intros [H | [H | H]]; [tauto | | tauto]. right; left.
  apply list_elem_of_fmap in H as (f & -> & Hf).
  apply list_elem_of_fmap. exists f. split; [done|].
  by eapply delete_subset.
Qed.

Lemma settle_refs (k r : nat) (ph : StartPhase) (c : Completion)
    (m0 : Manager) :
  starts m0 !! k = Some {| sf_task := r; sf_phase := ph |} →
  no_new_refs m0 (completion_manager c) →
  starts (completion_manager c) = starts m0 →
  no_new_refs m0 (settle config directory k r c).
Proof.
  intros Hk Hc Hs. destruct c as [m ph' | m | m msg]; cbn in *.
  - eapply no_new_refs_trans; [exact Hc|]. split; [done|].
    intros r0. rewrite !refs_cases. cbn.
    intros [H | [H | H]]; [tauto | | tauto]. right; left.
    apply list_elem_of_fmap in H as (f & -> & Hf).
    apply list_elem_of_lookup in Hf as (j & Hj).
    rewrite <- Hs in Hk.
    apply list_lookup_insert_Some in Hj as [(-> & <- & _) | (_ & Hj)];
      apply list_elem_of_fmap; eexists;
      (split; [|by eapply list_elem_of_lookup_2]); done.
  - eapply no_new_refs_trans; [exact Hc | apply finallyStart_refs].
  - eapply no_new_refs_trans; [exact Hc|].
    eapply no_new_refs_trans; [apply completeTask_refs|].
    apply finallyStart_refs.
Qed.

Lemma TaskMap_set_values (k : string) (v : nat) (l : list (string * nat))
    (r : nat) :
  r ∈ TaskMap.values (TaskMap.set k v l) → r = v ∨ r ∈ TaskMap.values l.
Proof.
  unfold TaskMap.values. induction l as [|[k' v'] l IH]; cbn.
  - rewrite list_elem_of_singleton. tauto.
  - destruct (String.eqb k k'); cbn; rewrite !elem_of_cons; tauto.
Qed.

Lemma launch_refs_allocated (opts : LaunchOptions) (rnd : string)
    (m : Manager) :
  refs_allocated m →
  refs_allocated (launch config directory opts rnd m).2.
Proof.
  intros Hall. unfold launch, enqueueStart. cbv zeta. cbn [snd].
  eapply no_new_refs_allocated; [|apply processQueue_loop_refs].
  intros r. rewrite refs_cases. cbn. intros Hr.
  apply lookup_lt_is_Some. rewrite length_app. cbn.
  assert (r = List.length (heap m) ∨ r ∈ refs m) as [-> | Hold].
  { rewrite refs_cases. rewrite elem_of_app, list_elem_of_singleton in Hr.
    destruct Hr as [[H | ->] | [H | [H | H]]]; try tauto.
    apply TaskMap_set_values in H. tauto. }
  - lia.
  - specialize (Hall r Hold). apply lookup_lt_is_Some in Hall. lia.
Qed.

Lemma step_refs_allocated (m m' : Manager) (e : Event) :
  refs_allocated m →
  step config tmuxEnabled directory m e = Some m' →
  refs_allocated m'.
Proof.
  intros Hall Hstep. destruct e; cbn in Hstep.
  - injection Hstep as <-. by apply launch_refs_allocated.
  - injection Hstep as <-. eapply no_new_refs_allocated, cancel_refs. done.
  - injection Hstep as <-.
    eapply no_new_refs_allocated, handleSessionStatus_refs. done.
  - injection Hstep as <-.
    eapply no_new_refs_allocated, handleSessionDeleted_refs. done.
  - injection Hstep as <-.
    eapply no_new_refs_allocated, waitForCompletion_refs. done.
  - injection Hstep as <-. eapply no_new_refs_allocated, cleanup_refs. done.
  - destruct (starts m !! k) as [[r ph]|] eqn:Hk; [|done].
    destruct ph; try done. injection Hstep as <-.
    eapply no_new_refs_allocated; [exact Hall|].
    eapply settle_refs; [exact Hk | apply afterCreate_refs|].
    by destruct (afterCreate_quiet tmuxEnabled config directory r res m)
      as [(? & _) _].
  - destruct (starts m !! k) as [[r ph]|] eqn:Hk; [|done].
    destruct ph as [|sid|]; try done. injection Hstep as <-.
    eapply no_new_refs_allocated; [exact Hall|].
    eapply settle_refs; [exact Hk | apply attemptLoop_refs|].
    apply attemptLoop_same.
  - destruct (starts m !! k) as [[r ph]|] eqn:Hk; [|done].
    destruct ph as [| |sid model rest errors]; try done.
    destruct (raceCanEndWith config res); [|done]. injection Hstep as <-.
    eapply no_new_refs_allocated; [exact Hall|].
    eapply settle_refs; [exact Hk | |];
      destruct res; cbn [afterPrompt completion_manager];
      try apply no_new_refs_refl; try apply attemptLoop_refs;
      try reflexivity; apply attemptLoop_same.
  - destruct (extractions m !! k) as [r|]; [|done]. injection Hstep as <-.
    eapply no_new_refs_allocated; [exact Hall|].
    eapply no_new_refs_trans;
      [|destruct res; apply completeTask_refs].
    split; [done|]. intros r0. rewrite !refs_cases. cbn.
    intros [H | [H | [H | H]]]; try tauto.
    right; right; left. by eapply delete_subset.
  - destruct (timers m !! k) as [[p taskId]|]; [|done].
    injection Hstep as <-.
    eapply no_new_refs_allocated; [exact Hall|].
    eapply no_new_refs_trans; [|apply timerFired_refs].
    by apply no_new_refs_same.
  - injection Hstep as <-. eapply no_new_refs_allocated; [exact Hall|].
    by apply no_new_refs_same.
Qed.

(** In every reachable state the references held by the manager designate
    task objects: [taskAt] never reads its placeholder. *)
Lemma reachable_refs_allocated (m : Manager) :
  reachable config tmuxEnabled directory m → refs_allocated m.
Proof.
  induction 1 as [|m e m' _ IH Hstep].
  - intros r Hr. by apply elem_of_nil in Hr.
  - by eapply step_refs_allocated.
Qed.

End Allocation.

(* ================================================================== *)
(** * Part III: further properties of the manager *)
(* ================================================================== *)

(** ** Model references: splitting and joining *)

Lemma substring_prefix (pre s : string) :
  String.substring 0 (String.length pre) (pre +:+ s) = pre.
Proof.
  induction pre as [|a pre IH]; simpl.
  - by destruct s.
  - by rewrite IH.
Qed.

Lemma substring_whole (s : string) :
  String.substring 0 (String.length s) s = s.
Proof. induction s as [|a s IH]; simpl; [done | by rewrite IH]. Qed.

Lemma substring_suffix (pre post : string) (c : ascii) :
  String.substring (S (String.length pre)) (String.length post)
    (pre +:+ String c post) = post.
Proof.
  induction pre as [|a pre IH]; simpl; [apply substring_whole | exact IH].
Qed.

Lemma parseModelReference_join (provider model : string) :
  provider ≠ "" → model ≠ "" → ¬ occurs Js.slash provider →
  parseModelReference (provider +:+ String Js.slash model)
  = Some {| providerID := provider; modelID := model |}.
Proof.
  intros Hp Hm Hno. unfold parseModelReference, Js.indexOf, Js.length.
  rewrite indexOf_from_first by done. rewrite length_append.
  cbn [String.length].
  assert (0 < String.length provider)%nat by (destruct provider; [done | simpl; lia]).
  assert (0 < String.length model)%nat by (destruct model; [done | simpl; lia]).
  rewrite (proj2 (Z.leb_gt _ _)) by lia.
  rewrite Z.geb_leb, (proj2 (Z.leb_gt _ _)) by lia.
  cbn [orb]. unfold Js.slice_from, Js.slice, Js.length.
  rewrite length_append. cbn [String.length]. f_equal. f_equal.
  - replace (Z.to_nat 0) with 0%nat by lia.
    replace (Z.to_nat (0 + Z.of_nat (String.length provider) - 0))
      with (String.length provider) by lia.
    apply substring_prefix.
  - replace (Z.to_nat (0 + Z.of_nat (String.length provider) + 1))
      with (S (String.length provider)) by lia.
    replace (Z.to_nat _) with (String.length model) by lia.
    apply substring_suffix.
Qed.

(** X1. Splitting and joining a model identifier are inverse: a parsed
    identifier is its provider, a slash and its model, with a non-empty
    slash-free provider and a non-empty model; and any such pair joined by
    a slash parses back to the pair. *)
Theorem parseModelReference_round_trip :
  (∀ (model : string) (ref : ModelRef),
     parseModelReference model = Some ref →
     model = providerID ref +:+ String Js.slash (modelID ref)
     ∧ providerID ref ≠ "" ∧ modelID ref ≠ ""
     ∧ ¬ occurs Js.slash (providerID ref))
  ∧ (∀ provider model : string,
       provider ≠ "" → model ≠ "" → ¬ occurs Js.slash provider →
       parseModelReference (provider +:+ String Js.slash model)
       = Some {| providerID := provider; modelID := model |}).
Proof.
  split; [|exact parseModelReference_join].
  intros model ref Hparse.
  destruct (first_occurrence Js.slash model)
    as [Hno | (pre & post & -> & Hpre)].
  - assert (parseModelReference model = None) as Hnone
      by (apply parseModelReference_none_iff; by left).
    congruence.
  - destruct pre as [|a pre].
    { assert (parseModelReference (EmptyString +:+ String Js.slash post) = None)
        as Hnone by (apply parseModelReference_none_iff; right; left; by eexists).
      congruence. }
    destruct post as [|b post].
    { assert (parseModelReference
                (String a pre +:+ String Js.slash EmptyString) = None)
        as Hnone by (apply parseModelReference_none_iff; right; right;
                     by eexists).
      congruence. }
    rewrite parseModelReference_join in Hparse by done.
    injection Hparse as <-. cbn [providerID modelID]. done.
Qed.

Lemma parseModelReference_round_trip_witness :
  parseModelReference codex_reference
  = Some {| providerID := "openai"; modelID := "gpt-5.2-codex" |}
  ∧ codex_reference = "openai" +:+ String Js.slash "gpt-5.2-codex".
Proof.
  split.
  - apply (proj2 parseModelReference_round_trip "openai" "gpt-5.2-codex");
      [discriminate | discriminate |]. simpl. intuition discriminate.
  - apply (proj1 parseModelReference_round_trip codex_reference
             {| providerID := "openai"; modelID := "gpt-5.2-codex" |}).
    vm_compute. reflexivity.
Defined.

(** ** Delegation policy: what can ever be delegated *)





(** ** Fallback resolver: shape of the resolved chain *)







(** ** Prompt attempts *)



(** ** Result extraction: what the stored text depends on *)

Lemma fragments_app (ms1 ms2 : list Message) :
  fragments (ms1 ++ ms2) = fragments ms1 ++ fragments ms2.
Proof. unfold fragments. apply flat_map_app. Qed.

Lemma fragments_cons (m : Message) (ms : list Message) :
  fragments (m :: ms)
  = (if is_assistant m then omap fragment (default [] (parts m)) else [])
    ++ fragments ms.
Proof. reflexivity. Qed.

(** X5. The text stored for a completed task is never the empty string;
    a message that is not assistant-authored, or an assistant part that
    is neither text nor reasoning, changes nothing; and a history without
    assistant messages gives the marker ["(No output)"]. *)
Theorem extractedResult_depends_on_assistant_text :
  (∀ messages, extractedResult messages ≠ "")
  ∧ (∀ before after message,
       is_assistant message = false →
       extractedResult (before ++ message :: after)
       = extractedResult (before ++ after))
  ∧ (∀ before after i ps1 ps2 part,
       String.eqb (part_type part) "text" = false →
       String.eqb (part_type part) "reasoning" = false →
       extractedResult
         (before ++ {| info := i; parts := Some (ps1 ++ part :: ps2) |}
                 :: after)
       = extractedResult
           (before ++ {| info := i; parts := Some (ps1 ++ ps2) |} :: after))
  ∧ (∀ messages,
       Forall (λ message, is_assistant message = false) messages →
       extractedResult messages = "(No output)").
Proof.
  split; [|split; [|split]].
  - intros ms. rewrite extractedResult_spec.
    destruct (decide (fragments ms = [])) as [Hnil | Hne].
    + by rewrite (proj1 (result_as_specified_cases ms) Hnil).
    + rewrite (proj2 (result_as_specified_cases ms) Hne).
      apply join_nonempty; [apply fragments_nonempty | done].
  - intros before after message Hna.
    rewrite !extractedResult_spec. unfold result_as_specified.
    rewrite !fragments_app, fragments_cons. by rewrite Hna.
  - intros before after i ps1 ps2 part Ht Hr.
    rewrite !extractedResult_spec. unfold result_as_specified.
    rewrite !fragments_app, !fragments_cons. unfold is_assistant.
    cbn [info parts].
    change (default [] (Some (ps1 ++ part :: ps2))) with (ps1 ++ part :: ps2).
    change (default [] (Some (ps1 ++ ps2))) with (ps1 ++ ps2).
    assert (fragment part = None) as Hnone.
    { unfold fragment. rewrite Ht, Hr. by destruct (part_text part). }
    rewrite !omap_app. cbn [omap list_omap]. by rewrite Hnone.
  - intros ms Hall. rewrite extractedResult_spec.
    apply result_as_specified_cases.
    induction Hall as [|m ms Hm _ IH]; [done|].
    rewrite fragments_cons, Hm. exact IH.
Qed.

Lemma extractedResult_depends_on_assistant_text_witness :
  extractedResult ([assistant_text "A"] ++ user_text "U" :: [assistant_text "B"])
  = extractedResult ([assistant_text "A"] ++ [assistant_text "B"])
  ∧ extractedResult [user_text "U"] = "(No output)".
Proof.
  split.
  - apply (proj1 (proj2 extractedResult_depends_on_assistant_text)).
    reflexivity.
  - apply (proj2 (proj2 (proj2 extractedResult_depends_on_assistant_text))).
    constructor; [reflexivity | constructor].
Defined.

(** ** Terminal handling: what [completeTask] does and leaves alone *)

Lemma terminalFields_fields (st : Status) (msg : string) (now : nat)
    (t : BackgroundTask) :
  let t' := terminalFields st msg now t in
  Task.parentSessionId t' = Task.parentSessionId t
  ∧ Task.description t' = Task.description t
  ∧ Task.agent t' = Task.agent t
  ∧ Task.prompt t' = Task.prompt t
  ∧ Task.completedAt t' = Some now
  ∧ Task.result t'
    = (if bool_decide (st = completed) then Some msg else Task.result t)
  ∧ Task.error t'
    = (if bool_decide (st = completed) then Task.error t else Some msg).
Proof. unfold terminalFields. cbv zeta. by case_bool_decide. Qed.

(** The terminal handling of a task that is not completed or failed, spelt
    out field by field. *)
Lemma completeTask_effect (r : nat) (st : Status) (msg : string)
    (m : Manager) (t : BackgroundTask) :
  heap m !! r = Some t →
  Task.status t ≠ completed → Task.status t ≠ failed →
  let m' := completeTask r st msg m in
  heap m' = alter (terminalFields st msg (clock m)) r (heap m)
  ∧ tasksBySessionId m' = withoutSession t (tasksBySessionId m)
  ∧ agentBySessionId m' = withoutSession t (agentBySessionId m)
  ∧ outbox m' = outbox m ++ terminalCalls t st msg
  ∧ startQueue m' = startQueue m
  ∧ starts m' = starts m
  ∧ activeStarts m' = activeStarts m
  ∧ tasks m' = tasks m
  ∧ extractions m' = extractions m
  ∧ timers m' = timers m
  ∧ completionResolvers m' = delete (Task.id t) (completionResolvers m)
  ∧ promises m'
    = match completionResolvers m !! Task.id t with
      | Some p => promises (resolvePromise p (Some r) m)
      | None => promises m
      end.
Proof.
  intros Hlook Hc Hf m'.
  set (t1 := terminalFields st msg (clock m) t).
  destruct (terminalFields_status st msg (clock m) t) as (Hst1 & Hid1 & Hses1).
  destruct (terminalFields_fields st msg (clock m) t)
    as (Hpar1 & Hdesc1 & _ & _ & _ & _ & Herr1).
  fold t1 in Hst1, Hid1, Hses1, Hpar1, Hdesc1, Herr1.
  set (m1 := markTerminal r st msg m).
  set (m2 := untrackSession r m1).
  set (m3 := abortSession r m2).
  set (m4 := notifyParent r m3).
  assert (m' = resolveWaiter (Task.id (taskAt m4 r)) r m4) as Hm'.
  { subst m'. unfold completeTask. rewrite (statusAt_lookup m r t Hlook).
    by rewrite !bool_decide_eq_false_2 by done. }
  assert (heap m1 !! r = Some t1) as Hlook1.
  { subst m1. unfold markTerminal, updTask. cbn [heap with_heap].
    rewrite list_lookup_alter. destruct (decide (r = r)); [|done].
    by rewrite Hlook. }
  assert (∀ x, heap x = heap m1 → taskAt x r = t1) as Hat.
  { intros x Hx. unfold taskAt. by rewrite Hx, Hlook1. }
  assert (m2 = if Js.truthy (Task.sessionId t)
               then with_agentBySessionId
                      (delete (default "" (Task.sessionId t))
                         (agentBySessionId m1))
                      (with_tasksBySessionId
                         (delete (default "" (Task.sessionId t))
                            (tasksBySessionId m1)) m1)
               else m1) as Hm2.
  { subst m2. unfold untrackSession. by rewrite (Hat m1 eq_refl), Hses1. }
  assert (heap m2 = heap m1) as Hh2
    by (rewrite Hm2; by destruct (Js.truthy _)).
  assert (m3 = if Js.truthy (Task.sessionId t)
               then call (SessionAbort (default "" (Task.sessionId t))) m2
               else m2) as Hm3.
  { subst m3. unfold abortSession. by rewrite (Hat m2 Hh2), Hses1. }
  assert (heap m3 = heap m1) as Hh3
    by (rewrite Hm3; by destruct (Js.truthy _)).
  assert (m4 = if Js.truthy (Some (Task.parentSessionId t))
               then call (ParentNotification (Task.parentSessionId t)
                            (completionMessage (Task.description t) st msg))
                      m3
               else m3) as Hm4.
  { subst m4. unfold notifyParent, sendCompletionNotification.
    rewrite (Hat m3 Hh3), Hpar1, Hst1, Hdesc1, Herr1.
    unfold completionMessage. by case_bool_decide. }
  assert (heap m4 = heap m1) as Hh4
    by (rewrite Hm4; by destruct (Js.truthy (Some _))).
  rewrite (Hat m4 Hh4), Hid1 in Hm'.
  assert (heap m4 = alter (terminalFields st msg (clock m)) r (heap m)
          ∧ tasksBySessionId m4 = withoutSession t (tasksBySessionId m)
          ∧ agentBySessionId m4 = withoutSession t (agentBySessionId m)
          ∧ outbox m4 = outbox m ++ terminalCalls t st msg
          ∧ startQueue m4 = startQueue m ∧ starts m4 = starts m
          ∧ activeStarts m4 = activeStarts m ∧ tasks m4 = tasks m
          ∧ extractions m4 = extractions m ∧ timers m4 = timers m
          ∧ completionResolvers m4 = completionResolvers m
          ∧ promises m4 = promises m)
    as (Hh4' & Ht4 & Ha4 & Hout & Hq4 & Hs4 & Hc4 & Hk4 & He4 & Hti4 & Hcr4
        & Hpr4).
  { rewrite Hm4, Hm3, Hm2. subst m1.
    unfold withoutSession, terminalCalls.
    destruct (Js.truthy (Task.sessionId t));
      destruct (Js.truthy (Some (Task.parentSessionId t)));
      cbn; rewrite ?app_nil_r, <- ?app_assoc; done. }
  rewrite Hm'. unfold resolveWaiter. rewrite Hcr4.
  destruct (completionResolvers m !! Task.id t) as [p|] eqn:Hres.
  - assert (promises (resolvePromise p (Some r) m4)
            = promises (resolvePromise p (Some r) m)) as Hpr.
    { unfold resolvePromise. rewrite Hpr4.
      destruct (promises m !! p) as [[v|]|]; cbn; by rewrite ?Hpr4. }
    destruct (heap_resolvePromise p (Some r) m4)
      as (Hh & Hs & Ha & Hq & Hk & _).
    assert (tasksBySessionId (resolvePromise p (Some r) m4)
            = tasksBySessionId m4
            ∧ agentBySessionId (resolvePromise p (Some r) m4)
              = agentBySessionId m4
            ∧ outbox (resolvePromise p (Some r) m4) = outbox m4
            ∧ extractions (resolvePromise p (Some r) m4) = extractions m4
            ∧ timers (resolvePromise p (Some r) m4) = timers m4)
      as (Ht & Hag & Ho & He & Hti).
    { unfold resolvePromise. by destruct (promises m4 !! p) as [[v|]|]. }
    cbn [heap tasks tasksBySessionId agentBySessionId startQueue
           activeStarts completionResolvers starts extractions promises
           timers outbox with_completionResolvers].
    rewrite Hh, Hs, Ha, Hq, Hk, Ht, Hag, Ho, He, Hti, Hpr.
    by rewrite Hh4', Ht4, Ha4, Hout, Hq4, Hs4, Hc4, Hk4, He4, Hti4.
  - rewrite Hh4', Ht4, Ha4, Hout, Hq4, Hs4, Hc4, Hk4, He4, Hti4, Hcr4, Hpr4.
    by rewrite delete_id.
Qed.

(** X6. Terminal handling of a task that is not yet completed or failed
    (it may be cancelled): the task object gets the status and the
    completion time, the text goes to [result] for ['completed'] and to
    [error] otherwise (the other of the two keeps its value), every other
    task object is untouched, both session indexes lose the task's session,
    the host is asked to abort the session and then to notify the parent
    (the wording is "failed: ..." for a cancelled task too), and neither the
    start queue nor the count of active starts changes. *)
Theorem completeTask_terminal_handling (r : nat) (st : Status) (msg : string)
    (m : Manager) (t : BackgroundTask) :
  heap m !! r = Some t →
  Task.status t ≠ completed → Task.status t ≠ failed →
  let m' := completeTask r st msg m in
  (∃ t', heap m' !! r = Some t'
         ∧ Task.status t' = st
         ∧ Task.completedAt t' = Some (clock m)
         ∧ Task.result t'
           = (if bool_decide (st = completed) then Some msg
              else Task.result t)
         ∧ Task.error t'
           = (if bool_decide (st = completed) then Task.error t
              else Some msg)
         ∧ Task.id t' = Task.id t
         ∧ Task.sessionId t' = Task.sessionId t)
  ∧ (∀ r', r' ≠ r → heap m' !! r' = heap m !! r')
  ∧ (∀ sid, Task.sessionId t = Some sid → sid ≠ "" →
       tasksBySessionId m' = delete sid (tasksBySessionId m)
       ∧ agentBySessionId m' = delete sid (agentBySessionId m))
  ∧ (Js.truthy (Task.sessionId t) = false →
       tasksBySessionId m' = tasksBySessionId m
       ∧ agentBySessionId m' = agentBySessionId m)
  ∧ outbox m'
    = outbox m
      ++ (if Js.truthy (Task.sessionId t)
          then [SessionAbort (default "" (Task.sessionId t))] else [])
      ++ (if Js.truthy (Some (Task.parentSessionId t))
          then [ParentNotification (Task.parentSessionId t)
                  (if bool_decide (st = completed)
                   then "[Background task " +:+ Js.dquote
                        +:+ Task.description t +:+ Js.dquote
                        +:+ " completed]"
                   else "[Background task " +:+ Js.dquote
                        +:+ Task.description t +:+ Js.dquote
                        +:+ " failed: " +:+ msg +:+ "]")]
          else [])
  ∧ startQueue m' = startQueue m
  ∧ activeStarts m' = activeStarts m
  ∧ tasks m' = tasks m.
Proof.
  intros Hlook Hc Hf m'.
  destruct (completeTask_effect r st msg m t Hlook Hc Hf)
    as (Hh & Ht & Ha & Ho & Hq & _ & Hact & Hk & _).
  fold m' in Hh, Ht, Ha, Ho, Hq, Hact, Hk.
  destruct (terminalFields_status st msg (clock m) t) as (H1 & H2 & H3).
  destruct (terminalFields_fields st msg (clock m) t)
    as (_ & _ & _ & _ & H4 & H5 & H6).
  split; [|split; [|split; [|split; [|split; [|split; [|split]]]]]];
    try done.
  - exists (terminalFields st msg (clock m) t).
    rewrite Hh, list_lookup_alter. destruct (decide (r = r)); [|done].
    rewrite Hlook. cbv zeta in H4, H5, H6. by rewrite H1, H2, H3, H4, H5, H6.
  - intros r' Hr'. rewrite Hh, list_lookup_alter.
    destruct (decide (r = r')); [by subst | done].
  - intros sid Hsid Hne. rewrite Ht, Ha. unfold withoutSession.
    rewrite Hsid. cbn. by destruct sid.
  - intros Hfalsy. rewrite Ht, Ha. unfold withoutSession.
    by rewrite Hfalsy.
Qed.

Lemma completeTask_terminal_handling_witness :
  let m' := completeTask 0 cancelled "Cancelled by user" running_task in
  observe 0 m' = (cancelled, None, Some "Cancelled by user")
  ∧ tasksBySessionId m' !! "ses_1" = None
  ∧ outbox m'
    = outbox running_task
      ++ [SessionAbort "ses_1";
          ParentNotification "ses_root"
            ("[Background task " +:+ Js.dquote +:+ "first" +:+ Js.dquote
             +:+ " failed: Cancelled by user]")].
Proof.
  destruct (completeTask_terminal_handling 0 cancelled "Cancelled by user"
              running_task (taskAt running_task 0))
    as ((t' & Hl & Hs & _ & Hr & He & _) & _ & Hidx & _ & Ho & _);
    [reflexivity | by vm_compute | by vm_compute |].
  cbv zeta. split; [|split].
  - unfold observe, statusAt, taskAt. rewrite Hl. cbn.
    by rewrite Hs, Hr, He.
  - destruct (Hidx "ses_1") as [-> _]; [reflexivity | done |].
    apply lookup_delete_eq.
  - exact Ho.
Defined.

(** ** Cancellation *)

Lemma promises_resolvePromise (p : nat) (v : option nat) (m : Manager) :
  promises (resolvePromise p v m)
  = match promises m !! p with
    | Some None => <[p := Some v]> (promises m)
    | _ => promises m
    end.
Proof. unfold resolvePromise. by destruct (promises m !! p) as [[?|]|]. Qed.

Lemma terminalFields_after_status (st st' : Status) (msg : string)
    (now : nat) (t : BackgroundTask) :
  terminalFields st msg now (Task.with_status st' t)
  = terminalFields st msg now t.
Proof. unfold terminalFields. cbv zeta. by case_bool_decide. Qed.

(** [findIndex] looks at the identifiers only. *)
Lemma spliceFirst_ext (m m' : Manager) (taskId : string) (q : list nat) :
  (∀ x, Task.id (taskAt m' x) = Task.id (taskAt m x)) →
  spliceFirst m' taskId q = spliceFirst m taskId q.
Proof.
  intros Hid. induction q as [|x q IH]; [done|].
  cbn [spliceFirst]. by rewrite Hid, IH.
Qed.

(** [findIndex] then [splice]: the first entry with the identifier is taken
    out, the entries before and after it keep their order. *)
Lemma spliceFirst_spec (m : Manager) (taskId : string) (q : list nat) :
  (Forall (λ x, Task.id (taskAt m x) ≠ taskId) q
   ∧ spliceFirst m taskId q = q)
  ∨ (∃ q1 r0 q2,
       q = q1 ++ r0 :: q2
       ∧ Forall (λ x, Task.id (taskAt m x) ≠ taskId) q1
       ∧ Task.id (taskAt m r0) = taskId
       ∧ spliceFirst m taskId q = q1 ++ q2).
Proof.
  induction q as [|x q IH]; [left; by split|].
  cbn [spliceFirst].
  destruct (String.eqb (Task.id (taskAt m x)) taskId) eqn:Hx.
  - apply String.eqb_eq in Hx. right. by exists [], x, q.
  - apply String.eqb_neq in Hx.
    destruct IH as [[Hall Heq]|(q1 & r0 & q2 & -> & Hall & Hr0 & Heq)].
    + left. split; [by constructor | by rewrite Heq].
    + right. exists (x :: q1), r0, q2.
      split; [done|]. split; [by constructor|]. split; [done|].
      by rewrite Heq.
Qed.

Lemma taskAt_updTask_id (f : BackgroundTask → BackgroundTask) (r : nat)
    (m : Manager) :
  (∀ t, Task.id (f t) = Task.id t) →
  ∀ x, Task.id (taskAt (updTask f r m) x) = Task.id (taskAt m x).
Proof.
  intros Hf x. unfold taskAt, updTask. cbn [heap with_heap].
  rewrite list_lookup_alter. destruct (decide (r = x)) as [->|]; [|done].
  destruct (heap m !! x); cbn; [apply Hf | done].
Qed.

(** The body of [cancel] for one active task, field by field. *)
Lemma cancelTask_effect (taskId : string) (r : nat) (m : Manager)
    (t : BackgroundTask) :
  heap m !! r = Some t →
  Task.status t ≠ completed → Task.status t ≠ failed →
  let m' := cancelTask taskId r m in
  heap m'
  = alter (terminalFields cancelled "Cancelled by user" (clock m)) r (heap m)
  ∧ startQueue m'
    = (if bool_decide (Task.status t = pending)
       then spliceFirst m taskId (startQueue m) else startQueue m)
  ∧ starts m' = starts m
  ∧ activeStarts m' = activeStarts m
  ∧ tasks m' = tasks m
  ∧ tasksBySessionId m' = withoutSession t (tasksBySessionId m)
  ∧ agentBySessionId m' = withoutSession t (agentBySessionId m)
  ∧ outbox m' = outbox m ++ terminalCalls t cancelled "Cancelled by user"
  ∧ extractions m' = extractions m
  ∧ timers m' = timers m
  ∧ completionResolvers m'
    = delete (Task.id t) (delete taskId (completionResolvers m))
  ∧ promises m'
    = match delete taskId (completionResolvers m) !! Task.id t with
      | Some p => promises (resolvePromise p (Some r) m)
      | None => promises m
      end.
Proof.
  intros Hlook Hc Hf m'.
  set (m0 := with_completionResolvers
               (delete taskId (completionResolvers m)) m).
  set (m1 := updTask (Task.with_status cancelled) r m0).
  set (m2 := if bool_decide (Task.status t = pending)
             then with_startQueue (spliceFirst m1 taskId (startQueue m1)) m1
             else m1).
  assert (m' = completeTask r cancelled "Cancelled by user" m2) as ->.
  { assert (statusAt m0 r = Task.status t) as Hst0
      by (by apply statusAt_lookup).
    subst m' m2 m1. unfold cancelTask. cbv zeta. fold m0.
    by rewrite Hst0. }
  assert (heap m1 = alter (Task.with_status cancelled) r (heap m)) as Hh1
    by done.
  assert (heap m2 = heap m1) as Hh2 by (subst m2; by case_bool_decide).
  assert (heap m2 !! r = Some (Task.with_status cancelled t)) as Hlook2.
  { rewrite Hh2, Hh1, list_lookup_alter.
    destruct (decide (r = r)); [|done]. by rewrite Hlook. }
  destruct (completeTask_effect r cancelled "Cancelled by user" m2
              (Task.with_status cancelled t) Hlook2)
    as (Hh & Ht & Ha & Ho & Hq & Hs & Hact & Hk & He & Hti & Hcr & Hpr);
    [done | done |].
  assert (spliceFirst m1 taskId (startQueue m1)
          = spliceFirst m taskId (startQueue m)) as Hsp.
  { apply (spliceFirst_ext m m1 taskId). intros x.
    subst m1. rewrite taskAt_updTask_id; done. }
  assert (clock m2 = clock m ∧ starts m2 = starts m
          ∧ activeStarts m2 = activeStarts m ∧ tasks m2 = tasks m
          ∧ tasksBySessionId m2 = tasksBySessionId m
          ∧ agentBySessionId m2 = agentBySessionId m
          ∧ outbox m2 = outbox m ∧ extractions m2 = extractions m
          ∧ timers m2 = timers m ∧ promises m2 = promises m
          ∧ completionResolvers m2 = delete taskId (completionResolvers m)
          ∧ startQueue m2
            = (if bool_decide (Task.status t = pending)
               then spliceFirst m taskId (startQueue m) else startQueue m))
    as (E1 & E2 & E3 & E4 & E5 & E6 & E7 & E8 & E9 & E10 & E11 & E12).
  { subst m2. rewrite <- Hsp. by case_bool_decide. }
  rewrite Hh, Ht, Ha, Ho, Hq, Hs, Hact, Hk, He, Hti, Hcr, Hpr.
  rewrite Hh2, Hh1, E1, E2, E3, E4, E5, E6, E7, E8, E9, E11, E12.
  change (Task.id (Task.with_status cancelled t)) with (Task.id t).
  assert (∀ p, promises (resolvePromise p (Some r) m2)
               = promises (resolvePromise p (Some r) m)) as Hp
    by (intros p; by rewrite !promises_resolvePromise, E10).
  split; [|repeat (split; [done|]);
           by destruct (delete taskId (completionResolvers m) !! Task.id t)].
  rewrite list_alter_alter_eq. apply list_alter_ext; [|done].
  intros x _. cbn. apply terminalFields_after_status.
Qed.

(** X7. Cancelling by identifier.  An unknown identifier, or a task that is
    already completed, failed or cancelled, gives 0 and changes nothing.
    An active task gives 1: it becomes ['cancelled'] with the error
    "Cancelled by user", its result is not touched, no other task object
    changes, the task stays retrievable under its identifier, and its
    waiter is unregistered.  A task that was being started keeps its start
    slot (the count of active starts and the suspended activations are as
    before); a pending task leaves the start queue, the entries before and
    after it keeping their order. *)
Theorem cancel_by_id (taskId : string) (m : Manager) :
  taskId ≠ "" →
  (getResult taskId m = None → cancel (Some taskId) m = (0, m))
  ∧ (∀ r, getResult taskId m = Some r →
          isActive (statusAt m r) = false →
          cancel (Some taskId) m = (0, m))
  ∧ (∀ r t,
       getResult taskId m = Some r → heap m !! r = Some t →
       isActive (Task.status t) = true →
       let m' := (cancel (Some taskId) m).2 in
       (cancel (Some taskId) m).1 = 1
       ∧ (∃ t', heap m' !! r = Some t'
                ∧ Task.status t' = cancelled
                ∧ Task.error t' = Some "Cancelled by user"
                ∧ Task.result t' = Task.result t
                ∧ Task.completedAt t' = Some (clock m))
       ∧ (∀ r', r' ≠ r → heap m' !! r' = heap m !! r')
       ∧ getResult taskId m' = Some r
       ∧ activeStarts m' = activeStarts m
       ∧ starts m' = starts m
       ∧ (Task.status t ≠ pending → startQueue m' = startQueue m)
       ∧ (Task.status t = pending →
          (Forall (λ x, Task.id (taskAt m x) ≠ taskId) (startQueue m)
           ∧ startQueue m' = startQueue m)
          ∨ (∃ q1 r0 q2,
               startQueue m = q1 ++ r0 :: q2
               ∧ Forall (λ x, Task.id (taskAt m x) ≠ taskId) q1
               ∧ Task.id (taskAt m r0) = taskId
               ∧ startQueue m' = q1 ++ q2))
       ∧ completionResolvers m' !! taskId = None).
Proof.
  intros Hne.
  assert (Js.truthy (Some taskId) = true) as Htr by by destruct taskId.
  unfold cancel, getResult. rewrite Htr.
  change (default "" (Some taskId)) with taskId.
  split; [|split].
  - by intros ->.
  - intros r -> Hin. by rewrite Hin.
  - intros r t Hget Hlook Hact. cbv zeta. rewrite Hget.
    rewrite (statusAt_lookup m r t Hlook), Hact. cbn [fst snd].
    destruct (cancelTask_effect taskId r m t Hlook)
      as (Hh & Hq & Hs & Ha & Hk & _ & _ & _ & _ & _ & Hcr & _);
      [by destruct (Task.status t) | by destruct (Task.status t) |].
    destruct (terminalFields_status cancelled "Cancelled by user" (clock m) t)
      as (H1 & _).
    destruct (terminalFields_fields cancelled "Cancelled by user" (clock m) t)
      as (_ & _ & _ & _ & H4 & H5 & H6). cbv zeta in H4, H5, H6.
    split; [done|]. split; [|split; [|split; [|split; [|split;
      [|split; [|split]]]]]]; try done.
    + exists (terminalFields cancelled "Cancelled by user" (clock m) t).
      rewrite Hh, list_lookup_alter. destruct (decide (r = r)); [|done].
      rewrite Hlook. by rewrite H1, H4, H5, H6.
    + intros r' Hr'. rewrite Hh, list_lookup_alter.
      destruct (decide (r = r')); [by subst | done].
    + by rewrite Hk.
    + intros Hp. rewrite Hq. by rewrite bool_decide_eq_false_2.
    + intros Hp. rewrite Hq, bool_decide_eq_true_2 by done.
      apply spliceFirst_spec.
    + rewrite Hcr. destruct (decide (Task.id t = taskId)) as [->|Hid].
      * apply lookup_delete_eq.
      * rewrite lookup_delete_ne by done. apply lookup_delete_eq.
Qed.

Lemma cancel_by_id_witness :
  (cancel (Some "bg_bbbbbbbb") after_two_launches).1 = 1
  ∧ statusAt (cancel (Some "bg_bbbbbbbb") after_two_launches).2 1
    = cancelled
  ∧ activeStarts (cancel (Some "bg_bbbbbbbb") after_two_launches).2 = 1
  ∧ cancel (Some "bg_cccccccc") after_two_launches
    = (0, after_two_launches).
Proof.
  destruct (cancel_by_id "bg_bbbbbbbb" after_two_launches) as (_ & _ & H);
    [discriminate|].
  destruct (H 1%nat (taskAt after_two_launches 1))
    as (Hn & (t' & Hl & Hs & _) & _ & _ & Ha & _);
    [vm_compute; reflexivity | vm_compute; reflexivity
     | vm_compute; reflexivity |].
  split; [exact Hn|]. split; [|split].
  - unfold statusAt, taskAt. rewrite Hl. exact Hs.
  - rewrite Ha. vm_compute. reflexivity.
  - apply (cancel_by_id "bg_cccccccc" after_two_launches); [discriminate|].
    vm_compute. reflexivity.
Defined.

(** What [cancel()] does to the task objects: an active task of the
    registry is cancelled, every other task object is left as it is. *)
Lemma cancelAll_heap (rs : list nat) :
  ∀ (count : Z) (m : Manager),
    (∀ r, r ∈ rs → is_Some (heap m !! r)) →
    let m' := (cancelAll rs count m).2 in
    (∀ r t, heap m !! r = Some t →
            ∃ t', heap m' !! r = Some t'
                  ∧ if isActive (Task.status t) && bool_decide (r ∈ rs)
                    then Task.status t' = cancelled
                         ∧ Task.error t' = Some "Cancelled by user"
                         ∧ Task.result t' = Task.result t
                    else t' = t)
    ∧ (∀ r, heap m !! r = None → heap m' !! r = None)
    ∧ activeStarts m' = activeStarts m
    ∧ starts m' = starts m
    ∧ tasks m' = tasks m.
Proof.
  induction rs as [|r rs IH]; intros count m Halloc.
  { cbn. split; [|done]. intros r t Hl. exists t. split; [done|].
    rewrite bool_decide_eq_false_2 by apply not_elem_of_nil.
    by rewrite andb_false_r. }
  destruct (Halloc r) as [t Hlook]; [left|].
  cbn [cancelAll]. rewrite (statusAt_lookup m r t Hlook).
  destruct (isActive (Task.status t)) eqn:Hact.
  - set (m1 := cancelTask (Task.id (taskAt m r)) r m).
    destruct (cancelTask_effect (Task.id (taskAt m r)) r m t Hlook)
      as (Hh & _ & Hs & Ha & Hk & _);
      [by destruct (Task.status t) | by destruct (Task.status t) |].
    fold m1 in Hh, Hs, Ha, Hk.
    destruct (IH (count + 1) m1) as (IH1 & IH2 & IH3 & IH4 & IH5).
    { intros x Hx. rewrite Hh, list_lookup_alter.
      destruct (Halloc x) as [tx Htx]; [by right|].
      destruct (decide (r = x)) as [->|]; rewrite ?Htx; by eexists. }
    cbv zeta. rewrite IH3, IH4, IH5, Ha, Hs, Hk.
    split; [|split; [|done]].
    + intros x tx Hx.
      destruct (decide (x = r)) as [->|Hxr].
      * assert (tx = t) as -> by congruence.
        destruct (IH1 r (terminalFields cancelled "Cancelled by user"
                           (clock m) t)) as (t' & Ht' & Hcase).
        { rewrite Hh, list_lookup_alter.
          destruct (decide (r = r)); [|done]. by rewrite Hlook. }
        destruct (terminalFields_status cancelled "Cancelled by user"
                    (clock m) t) as (H1 & _).
        destruct (terminalFields_fields cancelled "Cancelled by user"
                    (clock m) t) as (_ & _ & _ & _ & _ & H5 & H6).
        cbv zeta in H5, H6.
        rewrite H1 in Hcase. cbn in Hcase. subst t'.
        exists (terminalFields cancelled "Cancelled by user" (clock m) t).
        split; [done|]. rewrite Hact.
        rewrite bool_decide_eq_true_2 by left. cbn. by rewrite H1, H5, H6.
      * destruct (IH1 x tx) as (t' & Ht' & Hcase).
        { rewrite Hh, list_lookup_alter.
          by destruct (decide (r = x)); [subst|]. }
        exists t'. split; [done|].
        assert (bool_decide (x ∈ r :: rs) = bool_decide (x ∈ rs)) as ->; [|done].
        apply bool_decide_ext. rewrite elem_of_cons.
        split; [intros [?|?]; done | by right].
    + intros x Hx. apply IH2. rewrite Hh, list_lookup_alter.
      destruct (decide (r = x)); [subst; by rewrite Hx | done].
  - destruct (IH count m) as (IH1 & IH2 & IH3 & IH4 & IH5).
    { intros x Hx. apply Halloc. by right. }
    cbv zeta. split; [|done].
    intros x tx Hx. destruct (IH1 x tx Hx) as (t' & Ht' & Hcase).
    exists t'. split; [done|].
    destruct (decide (x = r)) as [->|Hxr].
    + assert (tx = t) as -> by congruence.
      rewrite Hact in *. done.
    + assert (bool_decide (x ∈ r :: rs) = bool_decide (x ∈ rs)) as ->; [|done].
      apply bool_decide_ext. rewrite elem_of_cons.
        split; [intros [?|?]; done | by right].
Qed.

(** The number [cancel()] returns. *)
Lemma cancelAll_count (rs : list nat) :
  ∀ (count : Z) (m : Manager),
    NoDup rs →
    (∀ r, r ∈ rs → is_Some (heap m !! r)) →
    (cancelAll rs count m).1
    = count + Z.of_nat (List.length
                          (List.filter (λ r, isActive (statusAt m r)) rs)).
Proof.
  induction rs as [|r rs IH]; intros count m Hnd Halloc.
  { cbn. lia. }
  apply NoDup_cons in Hnd as [Hnin Hnd].
  destruct (Halloc r) as [t Hlook]; [left|].
  cbn [cancelAll List.filter].
  destruct (isActive (statusAt m r)) eqn:Hact.
  - set (m1 := cancelTask (Task.id (taskAt m r)) r m).
    rewrite (statusAt_lookup m r t Hlook) in Hact.
    destruct (cancelTask_effect (Task.id (taskAt m r)) r m t Hlook)
      as (Hh & _);
      [by destruct (Task.status t) | by destruct (Task.status t) |].
    fold m1 in Hh.
    rewrite IH; [|done|].
    + rewrite (List.filter_ext_in (λ x, isActive (statusAt m1 x))
                 (λ x, isActive (statusAt m x))).
      { cbn [List.length]. lia. }
      intros x Hx. apply list_elem_of_In in Hx.
      unfold statusAt, taskAt. rewrite Hh, list_lookup_alter.
      destruct (decide (r = x)); [by subst | done].
    + intros x Hx. rewrite Hh, list_lookup_alter.
      destruct (Halloc x) as [tx Htx]; [by right|].
      destruct (decide (r = x)) as [->|]; rewrite ?Htx; by eexists.
  - apply IH; [done|]. intros x Hx. apply Halloc. by right.
Qed.

(** X8. Cancelling everything.  When the registry holds each task object
    once, [cancel()] returns the number of registered tasks that were
    pending, starting or running; afterwards no registered task is active:
    those that were are ['cancelled'] with the error "Cancelled by user"
    and their result untouched, and every other task object (terminal, or
    not in the registry) is exactly as before.  No start slot is released
    and the registry keeps its entries.  An empty identifier is read as no
    identifier. *)
Theorem cancel_all (m : Manager) :
  NoDup (TaskMap.values (tasks m)) →
  (∀ r, r ∈ TaskMap.values (tasks m) → is_Some (heap m !! r)) →
  let m' := (cancel None m).2 in
  (cancel None m).1
  = Z.of_nat (List.length
                (List.filter (λ r, isActive (statusAt m r))
                   (TaskMap.values (tasks m))))
  ∧ (∀ r, r ∈ TaskMap.values (tasks m) → isActive (statusAt m' r) = false)
  ∧ (∀ r t, heap m !! r = Some t →
            ∃ t', heap m' !! r = Some t'
                  ∧ if isActive (Task.status t)
                       && bool_decide (r ∈ TaskMap.values (tasks m))
                    then Task.status t' = cancelled
                         ∧ Task.error t' = Some "Cancelled by user"
                         ∧ Task.result t' = Task.result t
                    else t' = t)
  ∧ activeStarts m' = activeStarts m
  ∧ starts m' = starts m
  ∧ tasks m' = tasks m
  ∧ cancel (Some "") m = cancel None m.
Proof.
  intros Hnd Halloc m'. subst m'. unfold cancel.
  change (Js.truthy None) with false. change (Js.truthy (Some "")) with false.
  cbv iota.
  destruct (cancelAll_heap (TaskMap.values (tasks m)) 0 m Halloc)
    as (H1 & H2 & H3 & H4 & H5).
  rewrite (cancelAll_count _ 0 m Hnd Halloc).
  split; [lia|]. split; [|done].
  intros r Hr. destruct (Halloc r Hr) as [t Ht].
  destruct (H1 r t Ht) as (t' & Ht' & Hcase).
  unfold statusAt, taskAt. rewrite Ht'. cbn.
  rewrite bool_decide_eq_true_2 in Hcase by done.
  destruct (isActive (Task.status t)) eqn:Hact; cbn in Hcase.
  - destruct Hcase as (-> & _). done.
  - by subst t'.
Qed.

Lemma cancel_all_witness :
  (cancel None after_two_launches).1 = 2
  ∧ statusAt (cancel None after_two_launches).2 0 = cancelled
  ∧ statusAt (cancel None after_two_launches).2 1 = cancelled
  ∧ activeStarts (cancel None after_two_launches).2 = 1.
Proof.
  assert (TaskMap.values (tasks after_two_launches) = [0%nat; 1%nat])
    as Hvalues by (vm_compute; reflexivity).
  destruct (cancel_all after_two_launches)
    as (Hn & _ & Hh & Ha & _).
  { rewrite Hvalues. by apply (bool_decide_unpack _). }
  { intros r Hr. rewrite Hvalues in Hr.
    apply elem_of_cons in Hr as [->|Hr];
      [exists (taskAt after_two_launches 0); vm_compute; reflexivity|].
    apply elem_of_cons in Hr as [->|Hr];
      [exists (taskAt after_two_launches 1); vm_compute; reflexivity|].
    by apply elem_of_nil in Hr. }
  split; [rewrite Hn; vm_compute; reflexivity|].
  destruct (Hh 0%nat (taskAt after_two_launches 0))
    as (t0 & Hl0 & Hc0); [vm_compute; reflexivity|].
  destruct (Hh 1%nat (taskAt after_two_launches 1))
    as (t1 & Hl1 & Hc1); [vm_compute; reflexivity|].
  rewrite Hvalues in Hc0, Hc1.
  assert (isActive (Task.status (taskAt after_two_launches 0)) = true)
    as Hact0 by (vm_compute; reflexivity).
  assert (isActive (Task.status (taskAt after_two_launches 1)) = true)
    as Hact1 by (vm_compute; reflexivity).
  rewrite Hact0 in Hc0. rewrite Hact1 in Hc1.
  rewrite bool_decide_eq_true_2 in Hc0 by (apply elem_of_cons; by left).
  rewrite bool_decide_eq_true_2 in Hc1
    by (apply elem_of_cons; right; apply elem_of_cons; by left).
  cbn [andb] in Hc0, Hc1.
  destruct Hc0 as (Hs0 & _). destruct Hc1 as (Hs1 & _).
  split; [|split].
  - unfold statusAt, taskAt. rewrite Hl0. exact Hs0.
  - unfold statusAt, taskAt. rewrite Hl1. exact Hs1.
  - rewrite Ha. vm_compute. reflexivity.
Defined.

(** ** The start queue: admission in arrival order *)

Lemma taskAt_updTask_proj {A : Type} (g : BackgroundTask → A)
    (f : BackgroundTask → BackgroundTask) (r : nat) (m : Manager) :
  (∀ t, g (f t) = g t) →
  ∀ x, g (taskAt (updTask f r m) x) = g (taskAt m x).
Proof.
  intros Hf x. unfold taskAt, updTask. cbn [heap with_heap].
  rewrite list_lookup_alter. destruct (decide (r = x)) as [->|]; [|done].
  destruct (heap m !! x); cbn; [apply Hf | done].
Qed.

(** [startTask] up to its first [await], field by field. *)
Lemma startTask_effect (directory : string) (r : nat) (m : Manager) :
  let m' := startTask directory r m in
  heap m' = alter (Task.with_status starting) r (heap m)
  ∧ starts m' = starts m ++ [awaitingSession r]
  ∧ activeStarts m' = activeStarts m + 1
  ∧ startQueue m' = startQueue m
  ∧ outbox m' = outbox m ++ [creation directory m r]
  ∧ tasks m' = tasks m
  ∧ tasksBySessionId m' = tasksBySessionId m
  ∧ agentBySessionId m' = agentBySessionId m
  ∧ completionResolvers m' = completionResolvers m
  ∧ promises m' = promises m
  ∧ timers m' = timers m
  ∧ extractions m' = extractions m
  ∧ clock m' = clock m.
Proof.
  intros m'. subst m'. rewrite startTask_unfold. cbv zeta.
  unfold creation.
  set (m1 := with_activeStarts (activeStarts m + 1)
               (updTask (Task.with_status starting) r m)).
  assert (Task.parentSessionId (taskAt m1 r)
          = Task.parentSessionId (taskAt m r)) as ->
    by (by apply (taskAt_updTask_proj Task.parentSessionId)).
  assert (Task.description (taskAt m1 r) = Task.description (taskAt m r))
    as -> by (by apply (taskAt_updTask_proj Task.description)).
  done.
Qed.

Section Queue.

Variable config : option PluginConfig.
Variable directory : string.

#[local] Abbreviation N := (maxConcurrentStarts config).

Lemma processQueue_loop_spec (fuel : nat) :
  ∀ m : Manager,
    (List.length (startQueue m) ≤ fuel)%nat →
    let k := admissions N m in
    let m' := processQueue_loop config directory fuel m in
    startQueue m' = drop k (startQueue m)
    ∧ starts m' = starts m ++ (awaitingSession <$> take k (startQueue m))
    ∧ activeStarts m' = activeStarts m + Z.of_nat k
    ∧ outbox m'
      = outbox m ++ (creation directory m <$> take k (startQueue m))
    ∧ (∀ r, heap m' !! r
            = if bool_decide (r ∈ take k (startQueue m))
              then Task.with_status starting <$> heap m !! r
              else heap m !! r)
    ∧ tasks m' = tasks m
    ∧ tasksBySessionId m' = tasksBySessionId m
    ∧ agentBySessionId m' = agentBySessionId m
    ∧ completionResolvers m' = completionResolvers m
    ∧ promises m' = promises m.
Proof.
  induction fuel as [|fuel IH]; intros m Hlen k m'.
  { assert (startQueue m = []) as Hq
      by (destruct (startQueue m); [done | cbn in Hlen; lia]).
    subst k m'. unfold admissions. rewrite Hq. cbn [List.length].
    replace (Z.to_nat (Z.min (Z.of_nat 0) (N - activeStarts m))) with 0%nat
      by lia.
    cbn. rewrite !app_nil_r, Z.add_0_r. by rewrite Hq. }
  subst m'. cbn [processQueue_loop].
  destruct (activeStarts m <? N) eqn:Hslot; cbn [andb].
  - destruct (startQueue m) as [|r q'] eqn:Hq.
    + subst k. unfold admissions. rewrite Hq. cbn [List.length].
      replace (Z.to_nat (Z.min (Z.of_nat 0) (N - activeStarts m))) with 0%nat
        by lia.
      cbn. rewrite !app_nil_r, Z.add_0_r. by rewrite Hq.
    + cbn [List.length Nat.ltb Nat.leb].
      set (m0 := with_startQueue q' m).
      set (m1 := startTask directory r m0).
      destruct (startTask_effect directory r m0)
        as (Hh & Hs & Ha & Hq1 & Ho & Hk & Ht & Hag & Hcr & Hpr & _).
      fold m1 in Hh, Hs, Ha, Hq1, Ho, Hk, Ht, Hag, Hcr, Hpr.
      cbn in Hh, Hs, Ha, Hq1, Ho, Hk, Ht, Hag, Hcr, Hpr.
      apply Z.ltb_lt in Hslot.
      assert (k = S (admissions N m1)) as Hk1.
      { subst k. unfold admissions. rewrite Hq, Hq1, Ha.
        cbn [List.length]. lia. }
      destruct (IH m1) as (I1 & I2 & I3 & I4 & I5 & I6 & I7 & I8 & I9 & I10).
      { rewrite Hq1. cbn in Hlen. lia. }
      rewrite Hk1. cbn [drop take fmap list_fmap].
      rewrite I1, I2, I3, I4, I6, I7, I8, I9, I10.
      rewrite Hq1, Hs, Ha, Ho, Hk, Ht, Hag, Hcr, Hpr.
      rewrite <- !app_assoc. cbn [app].
      split; [done|]. split; [done|]. split; [lia|].
      split; [|split; [|done]].
      * unfold creation at 1. f_equal.
        change (creation directory m0 r) with (creation directory m r).
        f_equal. apply list_fmap_ext. intros i x _. unfold creation.
        assert (∀ {A} (g : BackgroundTask → A),
                  (∀ t, g (Task.with_status starting t) = g t) →
                  g (taskAt m1 x) = g (taskAt m x)) as Hg.
        { intros A g Hgf. unfold taskAt. rewrite Hh, list_lookup_alter.
          destruct (decide (r = x)) as [->|]; [|done].
          change (heap m0) with (heap m).
          destruct (heap m !! x); cbn; [apply Hgf | done]. }
        by rewrite (Hg _ Task.parentSessionId), (Hg _ Task.description).
      * intros x. rewrite I5, Hq1, Hh, list_lookup_alter.
        change (heap m0) with (heap m).
        destruct (decide (r = x)) as [->|Hne].
        { rewrite (bool_decide_eq_true_2 (x ∈ x :: _)) by left.
          case_bool_decide; [|done].
          destruct (heap m !! x); done. }
        { assert (bool_decide (x ∈ r :: take (admissions N m1) q')
                  = bool_decide (x ∈ take (admissions N m1) q')) as ->;
            [|done].
          apply bool_decide_ext. rewrite elem_of_cons.
          split; [intros [?|?]; done | by right]. }
  - subst k. unfold admissions. apply Z.ltb_ge in Hslot.
    replace (Z.to_nat (Z.min (Z.of_nat (List.length (startQueue m)))
                         (N - activeStarts m))) with 0%nat by lia.
    cbn. by rewrite !app_nil_r, Z.add_0_r, drop_0.
Qed.

(** X9. [processQueue] admits the oldest queued tasks, as many as the queue
    holds and the ceiling leaves room for: they leave the queue in arrival
    order, each gets one session request and one suspended activation in
    that order, the count of active starts grows by their number, their
    status becomes ['starting'] and no other task object changes. *)
Theorem processQueue_admits_in_arrival_order (m : Manager) :
  let k := admissions N m in
  let m' := processQueue config directory m in
  Z.of_nat k
  = Z.max 0 (Z.min (Z.of_nat (List.length (startQueue m)))
                   (N - activeStarts m))
  ∧ startQueue m = take k (startQueue m) ++ startQueue m'
  ∧ starts m' = starts m ++ (awaitingSession <$> take k (startQueue m))
  ∧ activeStarts m' = activeStarts m + Z.of_nat k
  ∧ outbox m'
    = outbox m ++ (creation directory m <$> take k (startQueue m))
  ∧ (∀ r, heap m' !! r
          = if bool_decide (r ∈ take k (startQueue m))
            then Task.with_status starting <$> heap m !! r
            else heap m !! r)
  ∧ tasks m' = tasks m.
Proof.
  intros k m'.
  destruct (processQueue_loop_spec (List.length (startQueue m)) m)
    as (H1 & H2 & H3 & H4 & H5 & H6 & _); [done|].
  fold k in H1, H2, H3, H4, H5. fold (processQueue config directory m) in *.
  fold m' in H1, H2, H3, H4, H5, H6.
  split; [subst k; unfold admissions; lia|].
  split; [by rewrite H1, take_drop|]. done.
Qed.

End Queue.

(** ** Launching *)

Lemma TaskMap_get_set_eq (k : string) (v : nat) (l : list (string * nat)) :
  TaskMap.get k (TaskMap.set k v l) = Some v.
Proof.
  induction l as [|[k' v'] l IH]; cbn.
  - by rewrite String.eqb_refl.
  - destruct (String.eqb k k') eqn:Hk; cbn; rewrite ?String.eqb_refl, ?Hk;
      done.
Qed.

Lemma TaskMap_get_set_ne (k k' : string) (v : nat)
    (l : list (string * nat)) :
  k' ≠ k → TaskMap.get k' (TaskMap.set k v l) = TaskMap.get k' l.
Proof.
  intros Hne. apply String.eqb_neq in Hne.
  induction l as [|[k0 v0] l IH]; cbn.
  - by rewrite Hne.
  - destruct (String.eqb k k0) eqn:Hk; cbn.
    + apply String.eqb_eq in Hk as <-. by rewrite Hne.
    + by rewrite IH.
Qed.

Section Launch.

Variable config : option PluginConfig.
Variable directory : string.

#[local] Abbreviation N := (maxConcurrentStarts config).

(** X10. [launch] allocates a new task object and registers it under the
    identifier drawn: the task is retrievable at once, carries the caller's
    description, agent, prompt and parent session, has no session, result,
    error or completion time, and is pending or starting; other
    identifiers resolve as before.  When the ceiling is reached the task
    is appended to the queue and nothing is sent to the host; when a slot
    is free and nobody is queued, it is starting, occupies a slot and one
    session request for it has been issued. *)
Theorem launch_registers_task (opts : LaunchOptions) (rnd : string)
    (m : Manager) :
  let r := (launch config directory opts rnd m).1 in
  let m' := (launch config directory opts rnd m).2 in
  r = List.length (heap m)
  ∧ getResult ("bg_" +:+ rnd) m' = Some r
  ∧ (∀ taskId, taskId ≠ "bg_" +:+ rnd →
               getResult taskId m' = getResult taskId m)
  ∧ (∃ t, heap m' !! r = Some t
          ∧ Task.id t = "bg_" +:+ rnd
          ∧ Task.description t = lo_description opts
          ∧ Task.agent t = lo_agent opts
          ∧ Task.prompt t = lo_prompt opts
          ∧ Task.parentSessionId t = lo_parentSessionId opts
          ∧ Task.sessionId t = None
          ∧ Task.result t = None
          ∧ Task.error t = None
          ∧ Task.completedAt t = None
          ∧ Task.startedAt t = clock m
          ∧ (Task.status t = pending ∨ Task.status t = starting)
          ∧ (N ≤ activeStarts m → Task.status t = pending)
          ∧ (activeStarts m < N → startQueue m = [] →
             Task.status t = starting))
  ∧ (N ≤ activeStarts m →
     startQueue m' = startQueue m ++ [r]
     ∧ outbox m' = outbox m
     ∧ activeStarts m' = activeStarts m
     ∧ starts m' = starts m)
  ∧ (activeStarts m < N → startQueue m = [] →
     startQueue m' = []
     ∧ outbox m'
       = outbox m
         ++ [SessionCreate (lo_parentSessionId opts)
               ("Background: " +:+ lo_description opts) directory]
     ∧ activeStarts m' = activeStarts m + 1
     ∧ starts m' = starts m ++ [awaitingSession r]).
Proof.
  intros r m'. subst r m'. unfold launch. cbv zeta. cbn [fst snd].
  set (task := Task.mk ("bg_" +:+ rnd) None (lo_description opts)
                 (lo_agent opts) pending None None
                 {| cfg_maxConcurrentStarts := N |}
                 (lo_parentSessionId opts) (clock m) None (lo_prompt opts)).
  set (r := List.length (heap m)).
  set (m0 := with_startQueue (startQueue m ++ [r])
               (with_tasks (TaskMap.set ("bg_" +:+ rnd) r (tasks m))
                  (with_heap (heap m ++ [task]) m))).
  assert (enqueueStart config directory r
            (with_tasks (TaskMap.set (Task.id task) r
                           (tasks (with_heap (heap m ++ [task]) m)))
               (with_heap (heap m ++ [task]) m))
          = processQueue_loop config directory
              (List.length (startQueue m0)) m0) as -> by done.
  destruct (processQueue_loop_spec config directory
              (List.length (startQueue m0)) m0)
    as (H1 & H2 & H3 & H4 & H5 & H6 & _); [done|].
  set (m' := processQueue_loop config directory
               (List.length (startQueue m0)) m0) in *.
  set (k := admissions N m0) in *.
  assert (heap m0 !! r = Some task) as Hr
    by (subst m0 r; cbn; apply list_lookup_middle; done).
  assert (Z.of_nat (List.length (startQueue m0))
          = Z.of_nat (List.length (startQueue m)) + 1) as Hlen.
  { subst m0. cbn. rewrite length_app. cbn. lia. }
  assert (N ≤ activeStarts m → k = 0%nat) as Hfull.
  { intros Hge. subst k. unfold admissions.
    change (activeStarts m0) with (activeStarts m). lia. }
  assert (activeStarts m < N → startQueue m = [] → k = 1%nat) as Hfree.
  { intros Hlt Hq. subst k. unfold admissions.
    change (activeStarts m0) with (activeStarts m).
    rewrite Hlen, Hq. cbn [List.length]. lia. }
  split; [done|]. split; [|split; [|split; [|split]]].
  - unfold getResult. rewrite H6. subst m0. cbn.
    apply TaskMap_get_set_eq.
  - intros taskId Hne. unfold getResult. rewrite H6. subst m0. cbn.
    by apply TaskMap_get_set_ne.
  - rewrite H5, Hr.
    destruct (bool_decide (r ∈ take k (startQueue m0))) eqn:Hin.
    + eexists. split; [reflexivity|]. cbn. repeat (split; [done|]).
      split; [by right|]. split; [|done].
      intros Hge. rewrite (Hfull Hge) in Hin. cbn in Hin.
      rewrite bool_decide_eq_false_2 in Hin by apply not_elem_of_nil.
      done.
    + eexists. split; [reflexivity|]. cbn. repeat (split; [done|]).
      split; [by left|]. split; [done|].
      intros Hlt Hq. rewrite (Hfree Hlt Hq) in Hin.
      subst m0. cbn in Hin. rewrite Hq in Hin. cbn in Hin.
      rewrite bool_decide_eq_true_2 in Hin by left. done.
  - intros Hge. rewrite H1, H2, H3, H4, (Hfull Hge). cbn.
    rewrite !app_nil_r, Z.add_0_r. done.
  - intros Hlt Hq. rewrite H1, H2, H3, H4, (Hfree Hlt Hq).
    subst m0. cbn. rewrite Hq. cbn.
    split; [done|]. split; [|done].
    unfold creation, taskAt. cbn [heap with_heap with_tasks with_startQueue].
    fold r. rewrite (list_lookup_middle (heap m) [] task r eq_refl). done.
Qed.

End Launch.

Lemma launch_registers_task_witness :
  let m1 := (launch ceiling_one "/repo" (explore "first") "aaaaaaaa" init).2 in
  let m2 := (launch ceiling_one "/repo" (explore "second") "bbbbbbbb" m1).2 in
  (startQueue m1 = []
   ∧ outbox m1
     = outbox init ++ [SessionCreate "ses_root" "Background: first" "/repo"]
   ∧ activeStarts m1 = activeStarts init + 1
   ∧ starts m1 = starts init ++ [awaitingSession 0])
  ∧ (startQueue m2 = startQueue m1 ++ [1%nat]
     ∧ outbox m2 = outbox m1
     ∧ activeStarts m2 = activeStarts m1
     ∧ starts m2 = starts m1).
Proof.
  cbv zeta. split.
  - apply (launch_registers_task ceiling_one "/repo" (explore "first")
             "aaaaaaaa" init); [by vm_compute | reflexivity].
  - apply (launch_registers_task ceiling_one "/repo" (explore "second")
             "bbbbbbbb"
             (launch ceiling_one "/repo" (explore "first") "aaaaaaaa"
                init).2).
    by vm_compute.
Defined.

(** ** Waiting for completion *)

Lemma waitForCompletion_active (taskId : string) (timeout : Z) (r : nat)
    (m : Manager) :
  TaskMap.get taskId (tasks m) = Some r →
  isTerminal (statusAt m r) = false →
  let p := List.length (promises m) in
  let m' := (waitForCompletion taskId timeout m).2 in
  (waitForCompletion taskId timeout m).1 = p
  ∧ promises m' = promises m ++ [None]
  ∧ completionResolvers m' = <[taskId := p]> (completionResolvers m)
  ∧ timers m'
    = (if 0 <? timeout then timers m ++ [(p, taskId)] else timers m)
  ∧ heap m' = heap m
  ∧ tasks m' = tasks m
  ∧ outbox m' = outbox m.
Proof.
  intros Hget Hterm p m'. subst p m'. unfold waitForCompletion.
  rewrite Hget, Hterm. cbv zeta. by destruct (0 <? timeout).
Qed.

(** X11. The waiters of one task share one slot.  When a second caller
    waits for a task that is still active, its resolver replaces the first
    caller's: the terminal handling of the task resolves the second
    caller's promise with the task and leaves the first caller's pending
    (first part).  And the timeout of the first caller unregisters
    whatever resolver is registered for the task at that time: once it has
    fired, the second caller's promise is not resolved by the terminal
    handling either (second part). *)
Theorem waiters_share_one_slot (taskId : string) (timeout1 timeout2 : Z)
    (r : nat) (st : Status) (msg : string) (m : Manager)
    (t : BackgroundTask) :
  TaskMap.get taskId (tasks m) = Some r →
  heap m !! r = Some t →
  Task.id t = taskId →
  isTerminal (Task.status t) = false →
  let w1 := waitForCompletion taskId timeout1 m in
  let w2 := waitForCompletion taskId timeout2 w1.2 in
  (let m3 := completeTask r st msg w2.2 in
   promises m3 !! w1.1 = Some None
   ∧ promises m3 !! w2.1 = Some (Some (Some r))
   ∧ completionResolvers m3 !! taskId = None)
  ∧ (let m3 := timerFired w1.1 taskId w2.2 in
     let m4 := completeTask r st msg m3 in
     promises m3 !! w1.1 = Some (Some (Some r))
     ∧ statusAt m3 r = Task.status t
     ∧ completionResolvers m3 !! taskId = None
     ∧ promises m4 !! w2.1 = Some None).
Proof.
  intros Hget Hlook Hid Hterm w1 w2.
  assert (Task.status t ≠ completed ∧ Task.status t ≠ failed) as [Hc Hf]
    by (by destruct (Task.status t)).
  destruct (waitForCompletion_active taskId timeout1 r m Hget)
    as (Hp1 & Hpr1 & Hcr1 & _ & Hh1 & Hk1 & _);
    [by rewrite (statusAt_lookup m r t Hlook)|].
  fold w1 in Hp1, Hpr1, Hcr1, Hh1, Hk1.
  destruct (waitForCompletion_active taskId timeout2 r w1.2)
    as (Hp2 & Hpr2 & Hcr2 & _ & Hh2 & Hk2 & _);
    [by rewrite Hk1 | unfold statusAt, taskAt; by rewrite Hh1, Hlook |].
  fold w2 in Hp2, Hpr2, Hcr2, Hh2, Hk2.
  rewrite Hpr1 in Hpr2, Hcr2, Hp2. rewrite Hcr1 in Hcr2.
  rewrite Hh1 in Hh2. rewrite Hk1 in Hk2.
  rewrite length_app in Hp2, Hcr2. cbn [List.length] in Hp2, Hcr2.
  set (n := List.length (promises m)) in *.
  rewrite insert_insert_eq in Hcr2.
  assert (promises w2.2 !! n = Some None) as Hn.
  { rewrite Hpr2, <- app_assoc. by apply list_lookup_middle. }
  assert (promises w2.2 !! (n + 1)%nat = Some None) as Hn1.
  { rewrite Hpr2. apply list_lookup_middle. rewrite length_app. cbn.
    subst n. lia. }
  split.
  - intros m3.
    destruct (completeTask_effect r st msg w2.2 t) as (_ & _ & _ & _ & _
      & _ & _ & _ & _ & _ & Hcr3 & Hpr3); [by rewrite Hh2 | done | done |].
    fold m3 in Hcr3, Hpr3.
    rewrite Hid, Hcr2, lookup_insert_eq in Hpr3.
    rewrite promises_resolvePromise, Hn1 in Hpr3.
    rewrite Hp1, Hp2, Hpr3, Hcr3, Hid.
    split; [|split].
    + rewrite list_lookup_insert_ne by lia. done.
    + apply list_lookup_insert_eq. by eapply lookup_lt_Some.
    + apply lookup_delete_eq.
  - intros m3 m4.
    assert (promises m3 = <[n := Some (Some r)]> (promises w2.2)
            ∧ completionResolvers m3 = delete taskId (completionResolvers w2.2)
            ∧ heap m3 = heap w2.2) as (Hpr3 & Hcr3 & Hh3).
    { subst m3. unfold timerFired. cbv zeta.
      rewrite promises_resolvePromise.
      cbn [promises tasks with_completionResolvers].
      rewrite Hp1, Hn, Hk2, Hget.
      destruct (heap_resolvePromise n (Some r)
                  (with_completionResolvers
                     (delete taskId (completionResolvers w2.2)) w2.2))
        as (E1 & _ & _ & _ & _ & E2).
      by rewrite E1, E2. }
    destruct (completeTask_effect r st msg m3 t) as (_ & _ & _ & _ & _
      & _ & _ & _ & _ & _ & _ & Hpr4); [by rewrite Hh3, Hh2 | done | done |].
    fold m4 in Hpr4.
    rewrite Hid, Hcr3, lookup_delete_eq in Hpr4.
    rewrite Hp1, Hp2, Hpr4, Hpr3, Hcr3.
    split; [|split; [|split]].
    + apply list_lookup_insert_eq. by eapply lookup_lt_Some.
    + unfold statusAt, taskAt. by rewrite Hh3, Hh2, Hlook.
    + apply lookup_delete_eq.
    + rewrite list_lookup_insert_ne by lia. done.
Qed.

Lemma waiters_share_one_slot_witness :
  let w1 := waitForCompletion "bg_aaaaaaaa" 100 running_task in
  let w2 := waitForCompletion "bg_aaaaaaaa" 0 w1.2 in
  (let m3 := completeTask 0 completed "done" w2.2 in
   promises m3 !! w1.1 = Some None
   ∧ promises m3 !! w2.1 = Some (Some (Some 0%nat))
   ∧ completionResolvers m3 !! "bg_aaaaaaaa" = None)
  ∧ (let m3 := timerFired w1.1 "bg_aaaaaaaa" w2.2 in
     let m4 := completeTask 0 completed "done" m3 in
     promises m3 !! w1.1 = Some (Some (Some 0%nat))
     ∧ statusAt m3 0 = Task.status (taskAt running_task 0)
     ∧ completionResolvers m3 !! "bg_aaaaaaaa" = None
     ∧ promises m4 !! w2.1 = Some None).
Proof.
  apply (waiters_share_one_slot "bg_aaaaaaaa" 100 0 0 completed "done"
           running_task (taskAt running_task 0)); reflexivity.
Defined.

(** ** Session events *)

Lemma handleSessionStatus_cases (e : StatusEvent) (m : Manager) :
  handleSessionStatus e m = m
  ∨ ∃ sid tid r s,
      se_type e = "session.status"
      ∧ se_statusType e = Some "idle"
      ∧ se_sessionID e = Some sid ∧ sid ≠ ""
      ∧ tasksBySessionId m !! sid = Some tid ∧ tid ≠ ""
      ∧ getResult tid m = Some r
      ∧ statusAt m r = running
      ∧ Task.sessionId (taskAt m r) = Some s ∧ s ≠ ""
      ∧ handleSessionStatus e m
        = with_extractions (extractions m ++ [r])
            (call (SessionMessages s) m).
Proof.
  unfold handleSessionStatus, getResult.
  destruct (String.eqb_spec (se_type e) "session.status") as [Hty|];
    cbn [negb]; [|by left].
  destruct (se_sessionID e) as [sid|] eqn:Hsid; [|by left].
  destruct (Js.truthy (Some sid)) eqn:Hsidt; cbn [negb]; [|by left].
  cbv zeta. change (default "" (Some sid)) with sid.
  destruct (tasksBySessionId m !! sid) as [tid|] eqn:Htid; [|by left].
  destruct (Js.truthy (Some tid)) eqn:Htidt; cbn [negb]; [|by left].
  change (default "" (Some tid)) with tid.
  destruct (TaskMap.get tid (tasks m)) as [r|] eqn:Hget; [|by left].
  destruct (bool_decide (statusAt m r = running)) eqn:Hrun; cbn [negb];
    [|by left].
  destruct (bool_decide (se_statusType e = Some "idle")) eqn:Hidle;
    [|by left].
  unfold extractAndCompleteTask. cbv zeta.
  destruct (Task.sessionId (taskAt m r)) as [s|] eqn:Hs; [|by left].
  destruct (Js.truthy (Some s)) eqn:Hst; cbn [negb]; [|by left].
  apply bool_decide_eq_true in Hrun, Hidle.
  apply truthy_Some in Hsidt, Htidt, Hst.
  right. exists sid, tid, r, s. by rewrite Hs.
Qed.

(** X12. A session status event never changes a task, an index, a waiter
    or the start queue.  It has an effect only when it is a
    ["session.status"] event of type ["idle"] for a session that is
    tracked for a registered task in ['running'] status which has a
    session: then exactly one request for that session's message history is
    issued and one extraction is pending; the task is still running. *)
Theorem session_status_only_requests_history (e : StatusEvent)
    (m : Manager) :
  let m' := handleSessionStatus e m in
  (heap m' = heap m ∧ tasks m' = tasks m
   ∧ tasksBySessionId m' = tasksBySessionId m
   ∧ agentBySessionId m' = agentBySessionId m
   ∧ completionResolvers m' = completionResolvers m
   ∧ promises m' = promises m ∧ timers m' = timers m
   ∧ startQueue m' = startQueue m ∧ activeStarts m' = activeStarts m
   ∧ starts m' = starts m)
  ∧ (m' = m
     ∨ ∃ sid tid r s,
         se_type e = "session.status"
         ∧ se_statusType e = Some "idle"
         ∧ se_sessionID e = Some sid ∧ sid ≠ ""
         ∧ tasksBySessionId m !! sid = Some tid ∧ tid ≠ ""
         ∧ getResult tid m = Some r
         ∧ statusAt m r = running
         ∧ Task.sessionId (taskAt m r) = Some s ∧ s ≠ ""
         ∧ outbox m' = outbox m ++ [SessionMessages s]
         ∧ extractions m' = extractions m ++ [r]).
Proof.
  intros m'. subst m'.
  destruct (handleSessionStatus_cases e m)
    as [->|(sid & tid & r & s & H1 & H2 & H3 & H4 & H5 & H6 & H7 & H8 & H9
            & H10 & ->)].
  - split; [done | by left].
  - split; [done|]. right. by exists sid, tid, r, s.
Qed.

Section History.

Variable config : option PluginConfig.
Variable tmuxEnabled : bool.
Variable directory : string.

(** X13. The first answer wins.  Two idle events for the session of a
    running task issue two history requests.  The first answer to arrive
    completes the task (or fails it, when the request was rejected); the
    second answer, whatever it is, changes neither the task objects nor
    the indexes and sends nothing more to the host. *)
Theorem first_history_answer_wins
    (m : Manager) (e : StatusEvent) (sid s : string) (r : nat)
    (t : BackgroundTask) (res1 res2 : MessagesResult) :
  se_type e = "session.status" → se_sessionID e = Some sid → sid ≠ "" →
  se_statusType e = Some "idle" →
  tasksBySessionId m !! sid = Some (Task.id t) → Task.id t ≠ "" →
  TaskMap.get (Task.id t) (tasks m) = Some r →
  heap m !! r = Some t → Task.status t = running →
  Task.sessionId t = Some s → s ≠ "" →
  let k := List.length (extractions m) in
  ∃ m2 m3 m4,
    run config tmuxEnabled directory m [EvSessionStatus e; EvSessionStatus e]
    = Some m2
    ∧ outbox m2 = outbox m ++ [SessionMessages s; SessionMessages s]
    ∧ step config tmuxEnabled directory m2 (EvMessagesSettled k res1)
      = Some m3
    ∧ statusAt m3 r
      = match res1 with
        | MessagesData _ => completed
        | MessagesRejected _ => failed
        end
    ∧ step config tmuxEnabled directory m3 (EvMessagesSettled k res2)
      = Some m4
    ∧ heap m4 = heap m3
    ∧ outbox m4 = outbox m3
    ∧ tasksBySessionId m4 = tasksBySessionId m3
    ∧ completionResolvers m4 = completionResolvers m3
    ∧ promises m4 = promises m3.
Proof.
  intros Htype Hsid Hsidne Hidle Hidx Hidne Hget Hlook Hst Hses Hsne k.
  subst k.
  assert (∀ x, heap x = heap m → tasks x = tasks m →
               tasksBySessionId x = tasksBySessionId m →
               handleSessionStatus e x
               = with_extractions (extractions x ++ [r])
                   (call (SessionMessages s) x)) as Hidle_at.
  { intros x Hh Hk Hi.
    destruct (handleSessionStatus_cases e x)
      as [Hsame|(sid' & tid' & r' & s' & _ & _ & H3 & _ & H5 & _ & H7 & _
                 & H9 & _ & ->)].
    - exfalso. revert Hsame. unfold handleSessionStatus.
      apply truthy_Some in Hsidne, Hidne, Hsne.
      rewrite Htype, String.eqb_refl, Hsid, Hsidne. cbn [negb]. cbv zeta.
      change (default "" (Some sid)) with sid. rewrite Hi, Hidx, Hidne.
      cbn [negb]. change (default "" (Some (Task.id t))) with (Task.id t).
      rewrite Hk, Hget. unfold statusAt, taskAt. rewrite Hh, Hlook.
      change (default Task.unallocated (Some t)) with t.
      rewrite Hst, Hidle. rewrite !bool_decide_eq_true_2 by done.
      cbn [negb]. unfold extractAndCompleteTask. cbv zeta.
      unfold taskAt. rewrite Hh, Hlook.
      change (default Task.unallocated (Some t)) with t.
      rewrite Hses, Hsne. cbn [negb].
      intros Heq. apply (f_equal extractions) in Heq. cbn in Heq.
      apply (f_equal List.length) in Heq. rewrite length_app in Heq.
      cbn in Heq. lia.
    - rewrite Hsid in H3. injection H3 as <-.
      rewrite Hi, Hidx in H5. injection H5 as <-.
      unfold getResult in H7. rewrite Hk, Hget in H7. injection H7 as <-.
      unfold taskAt in H9. rewrite Hh, Hlook in H9.
      change (default Task.unallocated (Some t)) with t in H9.
      rewrite Hses in H9. by injection H9 as <-. }
  set (m1 := with_extractions (extractions m ++ [r])
               (call (SessionMessages s) m)).
  set (m2 := with_extractions (extractions m1 ++ [r])
               (call (SessionMessages s) m1)).
  set (m2' := with_extractions
                (delete (List.length (extractions m)) (extractions m2)) m2).
  set (m3 := afterMessages r res1 m2').
  set (m3' := with_extractions
                (delete (List.length (extractions m)) (extractions m3)) m3).
  exists m2, m3, (afterMessages r res2 m3').
  assert (extractions m2 = extractions m ++ [r; r]) as Hex2
    by (subst m2 m1; cbn; by rewrite <- app_assoc).
  assert (extractions m2' = extractions m ++ [r]) as Hex2'.
  { subst m2'. cbn [extractions with_extractions]. rewrite Hex2.
    by rewrite (delete_middle (extractions m) [r] r). }
  assert (heap m2' !! r = Some t) as Hlook2 by done.
  assert (heap m3 !! r
          = Some (terminalFields
                    match res1 with
                    | MessagesData _ => completed
                    | MessagesRejected _ => failed
                    end
                    match res1 with
                    | MessagesData data => extractedResult (default [] data)
                    | MessagesRejected msg => msg
                    end (clock m2') t)
          ∧ extractions m3 = extractions m2') as [Hlook3 Hex3].
  { subst m3. unfold afterMessages. destruct res1 as [data|msg].
    - destruct (completeTask_effect r completed
                  (extractedResult (default [] data)) m2' t Hlook2)
        as (Hh & _ & _ & _ & _ & _ & _ & _ & He & _);
        [by rewrite Hst | by rewrite Hst |].
      split; [|done]. rewrite Hh, list_lookup_alter.
      destruct (decide (r = r)); [|done]. by rewrite Hlook2.
    - destruct (completeTask_effect r failed msg m2' t Hlook2)
        as (Hh & _ & _ & _ & _ & _ & _ & _ & He & _);
        [by rewrite Hst | by rewrite Hst |].
      split; [|done]. rewrite Hh, list_lookup_alter.
      destruct (decide (r = r)); [|done]. by rewrite Hlook2. }
  assert (statusAt m3 r
          = match res1 with
            | MessagesData _ => completed
            | MessagesRejected _ => failed
            end) as Hst3.
  { rewrite (statusAt_lookup m3 r _ Hlook3).
    apply terminalFields_status. }
  assert (afterMessages r res2 m3' = m3') as Hnoop.
  { unfold afterMessages.
    assert (statusAt m3' r = completed ∨ statusAt m3' r = failed) as Hfin.
    { change (statusAt m3' r) with (statusAt m3 r). rewrite Hst3.
      destruct res1; auto. }
    destruct res2;
      by apply completeTask_noop_when_completed_or_failed. }
  split; [|split; [|split; [|split; [|split]]]].
  - cbn [run step]. rewrite (Hidle_at m) by done. fold m1.
    rewrite (Hidle_at m1) by done. done.
  - subst m2 m1. cbn. by rewrite <- app_assoc.
  - assert (extractions m2 !! List.length (extractions m) = Some r) as Hk2.
    { rewrite Hex2. by apply list_lookup_middle. }
    cbn [step]. by rewrite Hk2.
  - done.
  - assert (extractions m3 !! List.length (extractions m) = Some r) as Hk3.
    { rewrite Hex3, Hex2'. by apply list_lookup_middle. }
    cbn [step]. by rewrite Hk3.
  - by rewrite Hnoop.
Qed.

End History.

Lemma first_history_answer_wins_witness :
  ∃ m2 m3 m4,
    run None false "/repo" running_task
      [EvSessionStatus (idle_event "ses_1");
       EvSessionStatus (idle_event "ses_1")]
    = Some m2
    ∧ outbox m2
      = outbox running_task
        ++ [SessionMessages "ses_1"; SessionMessages "ses_1"]
    ∧ step None false "/repo" m2
        (EvMessagesSettled (List.length (extractions running_task))
           (MessagesData (Some [assistant_text "A"])))
      = Some m3
    ∧ statusAt m3 0 = completed
    ∧ step None false "/repo" m3
        (EvMessagesSettled (List.length (extractions running_task))
           (MessagesRejected "boom"))
      = Some m4
    ∧ heap m4 = heap m3
    ∧ outbox m4 = outbox m3
    ∧ tasksBySessionId m4 = tasksBySessionId m3
    ∧ completionResolvers m4 = completionResolvers m3
    ∧ promises m4 = promises m3.
Proof.
  apply (first_history_answer_wins None false "/repo" running_task
           (idle_event "ses_1") "ses_1" "ses_1" 0 (taskAt running_task 0)
           (MessagesData (Some [assistant_text "A"]))
           (MessagesRejected "boom"));
    vm_compute; (reflexivity || discriminate).
Defined.

Lemma resolveWaiter_fields (taskId : string) (r : nat) (x : Manager) :
  let x' := resolveWaiter taskId r x in
  heap x' = heap x ∧ tasks x' = tasks x
  ∧ tasksBySessionId x' = tasksBySessionId x
  ∧ agentBySessionId x' = agentBySessionId x
  ∧ startQueue x' = startQueue x ∧ activeStarts x' = activeStarts x
  ∧ starts x' = starts x ∧ extractions x' = extractions x
  ∧ timers x' = timers x ∧ outbox x' = outbox x
  ∧ completionResolvers x' = delete taskId (completionResolvers x).
Proof.
  intros x'. subst x'. unfold resolveWaiter.
  destruct (completionResolvers x !! taskId) as [p|] eqn:Hp.
  - unfold resolvePromise. by destruct (promises x !! p) as [[?|]|].
  - by rewrite delete_id.
Qed.

Lemma handleSessionDeleted_cases (e : DeletedEvent) (m : Manager) :
  handleSessionDeleted e m = m
  ∨ ∃ sid tid r,
      de_type e = "session.deleted"
      ∧ deletedSessionId e = Some sid ∧ sid ≠ ""
      ∧ tasksBySessionId m !! sid = Some tid ∧ tid ≠ ""
      ∧ getResult tid m = Some r
      ∧ (statusAt m r = running ∨ statusAt m r = pending)
      ∧ handleSessionDeleted e m
        = resolveWaiter tid r
            (with_agentBySessionId (delete sid (agentBySessionId m))
               (with_tasksBySessionId (delete sid (tasksBySessionId m))
                  (with_heap
                     (alter (sessionDeletedFields (clock m)) r (heap m))
                     m))).
Proof.
  unfold handleSessionDeleted, getResult.
  destruct (String.eqb_spec (de_type e) "session.deleted") as [Hty|];
    cbn [negb]; [|by left].
  cbv zeta. fold (deletedSessionId e).
  destruct (deletedSessionId e) as [sid|] eqn:Hsid; [|by left].
  destruct (Js.truthy (Some sid)) eqn:Hsidt; cbn [negb]; [|by left].
  change (default "" (Some sid)) with sid.
  destruct (tasksBySessionId m !! sid) as [tid|] eqn:Htid; [|by left].
  destruct (Js.truthy (Some tid)) eqn:Htidt; cbn [negb]; [|by left].
  change (default "" (Some tid)) with tid.
  destruct (TaskMap.get tid (tasks m)) as [r|] eqn:Hget; [|by left].
  destruct (bool_decide (statusAt m r = running)
            || bool_decide (statusAt m r = pending)) eqn:Hst; [|by left].
  apply truthy_Some in Hsidt, Htidt.
  right. exists sid, tid, r.
  repeat (split; [done|]). split.
  - apply orb_true_iff in Hst as [Hst|Hst]; apply bool_decide_eq_true in Hst;
      auto.
  - f_equal. unfold updTask. cbn [heap with_heap clock].
    rewrite !list_alter_alter_eq. reflexivity.
Qed.

(** X14. A session deletion event is handled silently: nothing is sent to
    the host (no abort, no parent notification, unlike the terminal
    handling of [completeTask]), and the start queue, the count of active
    starts, the suspended activations and the registry stay as they are.
    The event's [info.id] is taken even when it is the empty string, in
    which case the event is ignored.  Either nothing changes at all, or
    the session is tracked for a registered task that is running or
    pending: then that task becomes ['cancelled'] with the error
    "Session deleted" and the completion time, its result untouched, no
    other task object changes, the session leaves both indexes and no
    waiter stays registered for the task. *)
Theorem session_deleted_cancels_silently (e : DeletedEvent) (m : Manager) :
  let m' := handleSessionDeleted e m in
  (outbox m' = outbox m ∧ startQueue m' = startQueue m
   ∧ activeStarts m' = activeStarts m ∧ starts m' = starts m
   ∧ tasks m' = tasks m ∧ extractions m' = extractions m
   ∧ timers m' = timers m)
  ∧ (de_infoId e = Some "" → m' = m)
  ∧ (m' = m
     ∨ ∃ sid tid r,
         de_type e = "session.deleted"
         ∧ deletedSessionId e = Some sid ∧ sid ≠ ""
         ∧ tasksBySessionId m !! sid = Some tid ∧ tid ≠ ""
         ∧ getResult tid m = Some r
         ∧ (statusAt m r = running ∨ statusAt m r = pending)
         ∧ (∀ t, heap m !! r = Some t →
                 ∃ t', heap m' !! r = Some t'
                       ∧ Task.status t' = cancelled
                       ∧ Task.error t' = Some "Session deleted"
                       ∧ Task.completedAt t' = Some (clock m)
                       ∧ Task.result t' = Task.result t)
         ∧ (∀ r', r' ≠ r → heap m' !! r' = heap m !! r')
         ∧ tasksBySessionId m' = delete sid (tasksBySessionId m)
         ∧ agentBySessionId m' = delete sid (agentBySessionId m)
         ∧ completionResolvers m' = delete tid (completionResolvers m)).
Proof.
  intros m'. subst m'.
  destruct (handleSessionDeleted_cases e m)
    as [Hsame|(sid & tid & r & H1 & H2 & H3 & H4 & H5 & H6 & H7 & Heq)].
  { rewrite Hsame. split; [done|]. split; [done | by left]. }
  rewrite Heq.
  match goal with |- context [resolveWaiter tid r ?x] => set (x0 := x) end.
  destruct (resolveWaiter_fields tid r x0)
    as (Hh & Hk & Ht & Ha & Hq & Hact & Hs & He & Hti & Ho & Hcr).
  rewrite Hh, Hk, Ht, Ha, Hq, Hact, Hs, He, Hti, Ho, Hcr.
  split; [done|]. split.
  - intros Hinfo. unfold deletedSessionId in H2. rewrite Hinfo in H2.
    by injection H2 as <-.
  - right. exists sid, tid, r. repeat (split; [done|]).
    split; [|split; [|done]].
    + intros t Hlook. exists (sessionDeletedFields (clock m) t).
      subst x0. cbn [heap with_heap with_tasksBySessionId
                       with_agentBySessionId].
      rewrite list_lookup_alter. destruct (decide (r = r)); [|done].
      by rewrite Hlook.
    + intros r' Hr'. subst x0.
      cbn [heap with_heap with_tasksBySessionId with_agentBySessionId].
      rewrite list_lookup_alter. destruct (decide (r = r')); [by subst|done].
Qed.

(** ** The start queue never idles *)











Section WorkConservation.

Variable config : option PluginConfig.
Variable tmuxEnabled : bool.
Variable directory : string.

#[local] Abbreviation N := (maxConcurrentStarts config).







End WorkConservation.


(** ** Clean-up *)

(** X16. After [cleanup] the manager has forgotten every task: no
    identifier is retrievable, the queue, the waiters and both session
    indexes are empty, so every later session event is ignored, [cancel]
    cancels nothing and returns 0, every session is treated as the root
    orchestrator by the permission check, and waiting for any identifier
    settles with null at once.  Task objects, suspended start activations
    and their slots, promises and armed timers are not touched: nothing is
    aborted, no waiter is resolved, and a wait-timeout that fires later
    settles its promise with null. *)
Theorem cleanup_forgets_everything (m : Manager) :
  let m' := cleanup m in
  (∀ taskId, getResult taskId m' = None)
  ∧ startQueue m' = []
  ∧ completionResolvers m' = ∅
  ∧ tasksBySessionId m' = ∅ ∧ agentBySessionId m' = ∅
  ∧ (heap m' = heap m ∧ starts m' = starts m
     ∧ activeStarts m' = activeStarts m ∧ promises m' = promises m
     ∧ timers m' = timers m ∧ outbox m' = outbox m
     ∧ extractions m' = extractions m)
  ∧ (∀ e, handleSessionStatus e m' = m')
  ∧ (∀ e, handleSessionDeleted e m' = m')
  ∧ (∀ taskId, cancel taskId m' = (0, m'))
  ∧ (∀ parentSessionId requestedAgent,
       isAgentAllowed m' parentSessionId requestedAgent
       = includes SUBAGENT_NAMES requestedAgent)
  ∧ (∀ taskId timeout,
       promises (waitForCompletion taskId timeout m').2
       = promises m ++ [Some None])
  ∧ (∀ p taskId,
       promises m !! p = Some None →
       promises (timerFired p taskId m') !! p = Some (Some None)).
Proof.
  intros m'.
  assert (tasks m' = []) as Hk by done.
  assert (tasksBySessionId m' = ∅) as Ht by done.
  split; [done|]. repeat (split; [done|]).
  split; [|split; [|split; [|split; [|split]]]].
  - intros e.
    destruct (handleSessionStatus_cases e m')
      as [->|(sid & ? & ? & ? & _ & _ & _ & _ & Hidx & _)]; [done|].
    by rewrite Ht, lookup_empty in Hidx.
  - intros e.
    destruct (handleSessionDeleted_cases e m')
      as [->|(sid & ? & ? & _ & _ & _ & Hidx & _)]; [done|].
    by rewrite Ht, lookup_empty in Hidx.
  - intros taskId. unfold cancel. rewrite Hk. cbn.
    by destruct (Js.truthy taskId).
  - intros p x. unfold isAgentAllowed, parentAgentName.
    change (agentBySessionId m') with (∅ : gmap string string).
    by rewrite lookup_empty.
  - intros taskId timeout. unfold waitForCompletion. by rewrite Hk.
  - intros p taskId Hp. unfold timerFired. cbv zeta.
    rewrite promises_resolvePromise.
    cbn [promises tasks with_completionResolvers]. rewrite Hk.
    change (promises m') with (promises m). rewrite Hp. cbn.
    apply list_lookup_insert_eq. by eapply lookup_lt_Some.
Qed.

Lemma cleanup_forgets_everything_witness :
  promises (timerFired 0 "bg_aaaaaaaa" (cleanup waited_task)) !! 0%nat
  = Some (Some None).
Proof.
  apply (cleanup_forgets_everything waited_task).
  vm_compute. reflexivity.
Defined.

(** ** The outcome of session creation *)

Section Creation.

Variable config : option PluginConfig.
Variable tmuxEnabled : bool.
Variable directory : string.

#[local] Abbreviation N := (maxConcurrentStarts config).

Lemma afterCreate_failure (r : nat) (res : CreateResult) (msg : string)
    (m : Manager) :
  creationFailure res = Some msg →
  afterCreate config tmuxEnabled directory r res m = Throw m msg.
Proof.
  unfold creationFailure, afterCreate. destruct res as [id|msg'].
  - destruct (Js.truthy id); [done|]. by intros [= <-].
  - by intros [= <-].
Qed.

(** X17. A failed session creation fails the task and frees its slot.
    When [session.create] is rejected, or answers without a session id,
    the task (unless already completed or failed) becomes ['failed'] with
    the rejection message, respectively "Failed to create background
    session", its result untouched; the parent is notified; the activation
    ends and its slot goes to the queue: the oldest queued tasks, as many
    as the ceiling now leaves room for, are admitted in arrival order. *)
Theorem failed_session_creation_frees_slot (k r : nat) (m : Manager)
    (t : BackgroundTask) (res : CreateResult) (msg : string) :
  starts m !! k = Some (awaitingSession r) →
  heap m !! r = Some t →
  Task.status t ≠ completed → Task.status t ≠ failed →
  r ∉ startQueue m →
  creationFailure res = Some msg →
  let n := admissions N (with_activeStarts (activeStarts m - 1) m) in
  ∃ m',
    step config tmuxEnabled directory m (EvCreateSettled k res) = Some m'
    ∧ (∃ t', heap m' !! r = Some t'
             ∧ Task.status t' = failed
             ∧ Task.error t' = Some msg
             ∧ Task.result t' = Task.result t
             ∧ Task.sessionId t' = Task.sessionId t)
    ∧ activeStarts m' = activeStarts m - 1 + Z.of_nat n
    ∧ starts m'
      = delete k (starts m) ++ (awaitingSession <$> take n (startQueue m))
    ∧ startQueue m' = drop n (startQueue m)
    ∧ outbox m'
      = outbox m ++ terminalCalls t failed msg
        ++ (creation directory m <$> take n (startQueue m))
    ∧ tasksBySessionId m' = withoutSession t (tasksBySessionId m)
    ∧ agentBySessionId m' = withoutSession t (agentBySessionId m).
Proof.
  intros Hk Hlook Hc Hf Hnq Hfail n.
  set (m1 := completeTask r failed msg m).
  set (m2 := with_activeStarts (activeStarts m1 - 1)
               (with_starts (delete k (starts m1)) m1)).
  exists (processQueue config directory m2).
  destruct (completeTask_effect r failed msg m t Hlook Hc Hf)
    as (Hh & Ht & Ha & Ho & Hq & Hs & Hact & _).
  fold m1 in Hh, Ht, Ha, Ho, Hq, Hs, Hact.
  assert (admissions N m2 = n) as Hn.
  { subst n m2. unfold admissions. cbn. by rewrite Hq, Hact. }
  destruct (processQueue_loop_spec config directory
              (List.length (startQueue m2)) m2)
    as (P1 & P2 & P3 & P4 & P5 & _ & P7 & P8 & _); [done|].
  fold (processQueue config directory m2) in P1, P2, P3, P4, P5, P7, P8.
  rewrite Hn in P1, P2, P3, P4, P5.
  change (startQueue m2) with (startQueue m1) in P1, P2, P4, P5.
  rewrite Hq in P1, P2, P4, P5.
  destruct (terminalFields_status failed msg (clock m) t) as (T1 & _ & T3).
  destruct (terminalFields_fields failed msg (clock m) t)
    as (T4 & T5 & _ & _ & _ & T6 & T7). cbv zeta in T4, T5, T6, T7.
  split; [|split; [|split; [|split; [|split; [|split; [|split]]]]]].
  - cbn [step]. rewrite Hk. unfold awaitingSession.
    rewrite (afterCreate_failure r res msg m Hfail). reflexivity.
  - exists (terminalFields failed msg (clock m) t).
    rewrite P5, bool_decide_eq_false_2.
    + change (heap m2) with (heap m1). rewrite Hh, list_lookup_alter.
      destruct (decide (r = r)); [|done]. rewrite Hlook.
      by rewrite T1, T3, T6, T7.
    + intros Hin. apply Hnq. apply elem_of_take in Hin as (i & Hi & _).
      by eapply list_elem_of_lookup_2.
  - rewrite P3. cbn. by rewrite Hact.
  - rewrite P2. cbn. by rewrite Hs.
  - done.
  - rewrite P4. change (outbox m2) with (outbox m1). rewrite Ho.
    rewrite <- app_assoc. do 2 f_equal.
    apply list_fmap_ext. intros i x _. unfold creation, taskAt.
    change (heap m2) with (heap m1). rewrite Hh, list_lookup_alter.
    destruct (decide (r = x)) as [<-|]; [|done].
    rewrite Hlook. cbn. by rewrite T4, T5.
  - rewrite P7. exact Ht.
  - rewrite P8. exact Ha.
Qed.

(** X18. A session that was created is tracked.  When [session.create]
    answers with a non-empty session id, the task object gets that session
    id and the status ['running'] (whatever its status was), no other task
    object changes, and both session indexes map the session to the
    task's identifier and agent.  With the pane delay the activation then
    waits for the delay: nothing more is sent and the start slot is still
    held. *)
Theorem created_session_is_tracked (k r : nat) (m : Manager)
    (t : BackgroundTask) (sid : string) :
  tmuxEnabled = true →
  starts m !! k = Some (awaitingSession r) →
  heap m !! r = Some t →
  sid ≠ "" →
  ∃ m',
    step config tmuxEnabled directory m
      (EvCreateSettled k (CreateData (Some sid))) = Some m'
    ∧ heap m' !! r
      = Some (Task.with_status running (Task.with_sessionId (Some sid) t))
    ∧ (∀ r', r' ≠ r → heap m' !! r' = heap m !! r')
    ∧ tasksBySessionId m' = <[sid := Task.id t]> (tasksBySessionId m)
    ∧ agentBySessionId m' = <[sid := Task.agent t]> (agentBySessionId m)
    ∧ starts m'
      = <[k := {| sf_task := r; sf_phase := AwaitDelay sid |}]> (starts m)
    ∧ activeStarts m' = activeStarts m
    ∧ startQueue m' = startQueue m
    ∧ outbox m' = outbox m
    ∧ tasks m' = tasks m.
Proof.
  intros Htmux Hk Hlook Hsid. apply truthy_Some in Hsid.
  eexists. split.
  { cbn [step]. rewrite Hk. unfold awaitingSession, afterCreate.
    rewrite Hsid, Htmux. cbn [negb]. cbv zeta. cbn [settle].
    reflexivity. }
  change (default "" (Some sid)) with sid.
  set (m1 := updTask (Task.with_sessionId (Some sid)) r m).
  assert (taskAt m1 r = Task.with_sessionId (Some sid) t) as Hat.
  { unfold taskAt. subst m1. cbn [heap updTask with_heap].
    rewrite list_lookup_alter. destruct (decide (r = r)); [|done].
    by rewrite Hlook. }
  assert (∀ x, heap x = heap m1 →
               taskAt x r = Task.with_sessionId (Some sid) t) as Hat'.
  { intros x Hx. rewrite <- Hat. unfold taskAt. by rewrite Hx. }
  rewrite !Hat' by reflexivity.
  cbn [heap tasks tasksBySessionId agentBySessionId startQueue activeStarts
         starts outbox with_starts updTask with_heap with_tasksBySessionId
         with_agentBySessionId Task.id Task.agent Task.with_sessionId].
  split; [|split; [|done]].
  - subst m1. cbn [heap updTask with_heap].
    rewrite list_alter_alter_eq, list_lookup_alter.
    destruct (decide (r = r)); [|done]. by rewrite Hlook.
  - intros r' Hr'. subst m1. cbn [heap updTask with_heap].
    rewrite list_alter_alter_eq, list_lookup_alter.
    destruct (decide (r = r')); [by subst | done].
Qed.

End Creation.

Lemma failed_session_creation_frees_slot_witness :
  ∃ m',
    step ceiling_one false "/repo" after_two_launches
      (EvCreateSettled 0 (CreateData None)) = Some m'
    ∧ (∃ t', heap m' !! 0%nat = Some t'
             ∧ Task.status t' = failed
             ∧ Task.error t' = Some "Failed to create background session"
             ∧ Task.result t' = Task.result (taskAt after_two_launches 0)
             ∧ Task.sessionId t'
               = Task.sessionId (taskAt after_two_launches 0))
    ∧ activeStarts m' = activeStarts after_two_launches - 1 + Z.of_nat 1
    ∧ starts m'
      = delete 0%nat (starts after_two_launches)
        ++ (awaitingSession <$> take 1 (startQueue after_two_launches))
    ∧ startQueue m' = drop 1 (startQueue after_two_launches)
    ∧ outbox m'
      = outbox after_two_launches
        ++ terminalCalls (taskAt after_two_launches 0) failed
             "Failed to create background session"
        ++ (creation "/repo" after_two_launches
              <$> take 1 (startQueue after_two_launches))
    ∧ tasksBySessionId m'
      = withoutSession (taskAt after_two_launches 0)
          (tasksBySessionId after_two_launches)
    ∧ agentBySessionId m'
      = withoutSession (taskAt after_two_launches 0)
          (agentBySessionId after_two_launches).
Proof.
  apply (failed_session_creation_frees_slot ceiling_one false "/repo"
           0 0 after_two_launches (taskAt after_two_launches 0)
           (CreateData None) "Failed to create background session").
  - vm_compute. reflexivity.
  - vm_compute. reflexivity.
  - vm_compute. discriminate.
  - vm_compute. discriminate.
  - assert (startQueue after_two_launches = [1%nat]) as ->
      by (vm_compute; reflexivity).
    intros Hin. apply list_elem_of_singleton in Hin. discriminate.
  - reflexivity.
Defined.

Lemma created_session_is_tracked_witness :
  ∃ m',
    step None true "/repo" (launch None "/repo" (explore "first")
                              "aaaaaaaa" init).2
      (EvCreateSettled 0 (CreateData (Some "ses_1"))) = Some m'
    ∧ statusAt m' 0 = running
    ∧ tasksBySessionId m' !! "ses_1" = Some "bg_aaaaaaaa"
    ∧ agentBySessionId m' !! "ses_1" = Some "explorer"
    ∧ activeStarts m' = 1.
Proof.
  destruct (created_session_is_tracked None true "/repo" 0 0
              (launch None "/repo" (explore "first") "aaaaaaaa" init).2
              (taskAt (launch None "/repo" (explore "first") "aaaaaaaa"
                         init).2 0) "ses_1")
    as (m' & Hstep & Hl & _ & Ht & Ha & _ & Hact & _).
  - reflexivity.
  - vm_compute. reflexivity.
  - vm_compute. reflexivity.
  - discriminate.
  - exists m'. split; [exact Hstep|]. split; [|split; [|split]].
    + unfold statusAt, taskAt. rewrite Hl. reflexivity.
    + rewrite Ht. rewrite lookup_insert_eq. vm_compute. reflexivity.
    + rewrite Ha. rewrite lookup_insert_eq. vm_compute. reflexivity.
    + rewrite Hact. vm_compute. reflexivity.
Defined.
